(** * alert-spooler: a shallow embedding of the spooler package

    The development follows the Go sources of [spooler/]: the normalizer and
    fingerprinter ([normalize.go]), the tagger ([cccc.go]), the flattener
    ([flatten.go]), the structured-data encoder and the Runner
    ([runner.go]).  Go strings are byte strings ([string]); Go [int] and
    [time.Duration] values are integers ([Z]); Go maps are finite maps
    ([gmap]); the SQLite ledgers are lists of rows in id order. *)

From stdpp Require Import base option list gmap strings sorting.
From Stdlib Require Import ZArith Lia Ascii String DecimalString SpecFloat.

Set Warnings "-clear-no-such-hyp".

Local Open Scope string_scope.
Local Open Scope list_scope.

(* ===================================================================== *)
(** * Part I: definitions                                                 *)
(* ===================================================================== *)

(** ** The [strings] package, on byte strings *)

Module GoStr.

Definition byteOf (c : ascii) : N := N_of_ascii c.

(** ['0' <= c && c <= '9'], the class [\d] of Go's regexp syntax. *)
Definition isDigit (c : ascii) : bool :=
  (48 <=? byteOf c)%N && (byteOf c <=? 57)%N.

Fixpoint rev_go (acc s : string) : string :=
  match s with
  | EmptyString => acc
  | String c s' => rev_go (String c acc) s'
  end.

Definition rev (s : string) : string := rev_go EmptyString s.

Fixpoint drop (n : nat) (s : string) : string :=
  match n, s with
  | S n', String _ s' => drop n' s'
  | _, _ => s
  end.

Fixpoint take (n : nat) (s : string) : string :=
  match n, s with
  | S n', String c s' => String c (take n' s')
  | _, _ => EmptyString
  end.

(** [strings.HasPrefix(s, p)] and [strings.HasSuffix(s, p)]. *)
Definition HasPrefix (s p : string) : bool := String.prefix p s.
Definition HasSuffix (s p : string) : bool := String.prefix (rev p) (rev s).

Definition TrimPrefix (s p : string) : string :=
  if HasPrefix s p then drop (String.length p) s else s.
Definition TrimSuffix (s p : string) : string :=
  if HasSuffix s p then take (String.length s - String.length p) s else s.

(** [strings.Contains(s, sub)]: [sub] occurs at some offset of [s]. *)
Fixpoint Contains (s sub : string) : bool :=
  HasPrefix s sub ||
  match s with
  | EmptyString => false
  | String _ s' => Contains s' sub
  end.

(** Width in bytes of the white-space rune (as [unicode.IsSpace] has it) that
    starts [s], or [0] when [s] does not start with one.  The runes are
    U+0009..U+000D, U+0020, U+0085, U+00A0, U+1680, U+2000..U+200A, U+2028,
    U+2029, U+202F, U+205F and U+3000, in their UTF-8 encoding. *)
Definition spaceWidth (s : string) : nat :=
  match s with
  | EmptyString => 0
  | String c0 r0 =>
    let b0 := byteOf c0 in
    if ((9 <=? b0) && (b0 <=? 13) || (b0 =? 32))%N then 1
    else match r0 with
    | EmptyString => 0
    | String c1 r1 =>
      let b1 := byteOf c1 in
      if ((b0 =? 194) && ((b1 =? 133) || (b1 =? 160)))%N then 2
      else match r1 with
      | EmptyString => 0
      | String c2 _ =>
        let b2 := byteOf c2 in
        if ((b0 =? 225) && (b1 =? 154) && (b2 =? 128)
            || (b0 =? 226) && (b1 =? 128)
               && ((128 <=? b2) && (b2 <=? 138) || (b2 =? 168) || (b2 =? 169)
                   || (b2 =? 175))
            || (b0 =? 226) && (b1 =? 129) && (b2 =? 159)
            || (b0 =? 227) && (b1 =? 128) && (b2 =? 128))%N
        then 3 else 0
      end
    end
  end.

(** The same test read backwards: [r] is a reversed string, and the result is
    the width of the white-space rune the original string ends with. *)
Definition spaceWidthRev (r : string) : nat :=
  match r with
  | EmptyString => 0
  | String c0 _ =>
    if (byteOf c0 <? 128)%N then spaceWidth (String c0 EmptyString)
    else
      let w2 := spaceWidth (rev (take 2 r)) in
      if Nat.eqb w2 2 then 2
      else if Nat.eqb (spaceWidth (rev (take 3 r))) 3 then 3 else 0
  end.

(** Drops leading white space; [skip] counts the bytes of the rune being
    dropped that are still ahead. *)
Fixpoint trimLeft_go (width : string -> nat) (skip : nat) (s : string) : string :=
  match s with
  | EmptyString => EmptyString
  | String _ s' =>
    match skip with
    | S n => trimLeft_go width n s'
    | O => match width s with
           | S n => trimLeft_go width n s'
           | O => s
           end
    end
  end.

(** [strings.TrimSpace]. *)
Definition TrimSpace (s : string) : string :=
  rev (trimLeft_go spaceWidthRev 0 (rev (trimLeft_go spaceWidth 0 s))).

(** [strings.Fields]: the maximal runs of bytes that belong to no white-space
    rune.  [cur] is the field being read, reversed. *)
Fixpoint fields_go (skip : nat) (cur : string) (s : string) : list string :=
  let flush := match cur with EmptyString => [] | _ => [rev cur] end in
  match s with
  | EmptyString => flush
  | String c s' =>
    match skip with
    | S n => fields_go n EmptyString s'
    | O => match spaceWidth s with
           | S n => flush ++ fields_go n EmptyString s'
           | O => fields_go 0 (String c cur) s'
           end
    end
  end.

Definition Fields (s : string) : list string := fields_go 0 EmptyString s.

(** [strings.Join]. *)
Fixpoint Join (l : list string) (sep : string) : string :=
  match l with
  | [] => EmptyString
  | [x] => x
  | x :: rest => x +:+ sep +:+ Join rest sep
  end.

(** [strings.ReplaceAll(s, old, new)] for a non-empty [old] (all the callers
    pass a one-byte [old]): non-overlapping occurrences, leftmost first. *)
Fixpoint replaceAll_go (old new : string) (skip : nat) (s : string) : string :=
  match s with
  | EmptyString => EmptyString
  | String c s' =>
    match skip with
    | S n => replaceAll_go old new n s'
    | O => if HasPrefix s old
           then new +:+ replaceAll_go old new (String.length old - 1) s'
           else String c (replaceAll_go old new 0 s')
    end
  end.

Definition ReplaceAll (s old new : string) : string := replaceAll_go old new 0 s.

(** [strconv.Itoa] on a non-negative index. *)
Definition Itoa (n : nat) : string := NilEmpty.string_of_uint (Nat.to_uint n).

(** [%d] of an [int]. *)
Definition ItoaZ (z : Z) : string :=
  match z with
  | Zneg p => "-" +:+ Itoa (Pos.to_nat p)
  | _ => Itoa (Z.to_nat z)
  end.

(** ASCII upper-casing: what [strings.ToUpper] does on ASCII text. *)
Definition asciiUpper (c : ascii) : ascii :=
  if ((97 <=? byteOf c) && (byteOf c <=? 122))%N
  then ascii_of_N (byteOf c - 32) else c.

Fixpoint asciiToUpper (s : string) : string :=
  match s with
  | EmptyString => EmptyString
  | String c s' => String (asciiUpper c) (asciiToUpper s')
  end.

End GoStr.

(** ** SHA-256 ([crypto/sha256]) and lower-case hex ([encoding/hex])

    The digest is computed as FIPS 180-4 describes it, on 32-bit words held in
    [Z] and reduced modulo [2^32] after every addition. *)

Module Sha256.

Local Open Scope Z_scope.

Definition wrap32 (x : Z) : Z := x mod 2 ^ 32.
Definition add32 (x y : Z) : Z := wrap32 (x + y).
Definition rotr (n x : Z) : Z :=
  wrap32 (Z.lor (Z.shiftr x n) (Z.shiftl x (32 - n))).
Definition not32 (x : Z) : Z := 2 ^ 32 - 1 - x.

Definition Ch (x y z : Z) : Z := Z.lxor (Z.land x y) (Z.land (not32 x) z).
Definition Maj (x y z : Z) : Z :=
  Z.lxor (Z.lxor (Z.land x y) (Z.land x z)) (Z.land y z).
Definition bigSigma0 (x : Z) : Z := Z.lxor (Z.lxor (rotr 2 x) (rotr 13 x)) (rotr 22 x).
Definition bigSigma1 (x : Z) : Z := Z.lxor (Z.lxor (rotr 6 x) (rotr 11 x)) (rotr 25 x).
Definition smallSigma0 (x : Z) : Z := Z.lxor (Z.lxor (rotr 7 x) (rotr 18 x)) (Z.shiftr x 3).
Definition smallSigma1 (x : Z) : Z := Z.lxor (Z.lxor (rotr 17 x) (rotr 19 x)) (Z.shiftr x 10).

(** The constants are the first 32 bits of the fractional parts of the cube
    roots (round constants) and of the square roots (initial hash value) of
    the first primes; they are computed here rather than tabulated. *)
Definition firstPrimes : list Z :=
  [
   2; 3; 5; 7; 11; 13; 17; 19; 23; 29; 31; 37; 41; 43; 47; 53;
   59; 61; 67; 71; 73; 79; 83; 89; 97; 101; 103; 107; 109; 113; 127; 131;
   137; 139; 149; 151; 157; 163; 167; 173; 179; 181; 191; 193; 197; 199; 211; 223;
   227; 229; 233; 239; 241; 251; 257; 263; 269; 271; 277; 281; 283; 293; 307; 311 ].

(** The largest [x] between [lo] and [hi] with [x ^ 3 <= n]. *)
Fixpoint cubeRoot_go (fuel : nat) (lo hi n : Z) : Z :=
  match fuel with
  | O => lo
  | S fuel' =>
    if hi - lo <=? 1 then lo
    else
      let mid := (lo + hi) / 2 in
      if mid ^ 3 <=? n then cubeRoot_go fuel' mid hi n else cubeRoot_go fuel' lo mid n
  end.

Definition fracCubeRoot32 (p : Z) : Z := wrap32 (cubeRoot_go 40 0 (2 ^ 36) (p * 2 ^ 96)).
Definition fracSquareRoot32 (p : Z) : Z := wrap32 (Z.sqrt (p * 2 ^ 64)).

Definition K256 : list Z := Eval vm_compute in List.map fracCubeRoot32 firstPrimes.
Definition H0 : list Z := Eval vm_compute in List.map fracSquareRoot32 (List.firstn 8 firstPrimes).

(** Padding: a [1] bit, zeroes up to 56 modulo 64 bytes, and the bit length
    as a big-endian 64-bit integer. *)
Definition bigEndian (width : nat) (x : Z) : list Z :=
  List.map (fun i => (Z.shiftr x (8 * Z.of_nat i)) mod 256) (List.rev (seq 0 width)).

Definition pad (msg : list Z) : list Z :=
  let len := Z.of_nat (List.length msg) in
  let zeros := Z.to_nat ((55 - len) mod 64) in
  msg ++ [128] ++ List.repeat 0 zeros ++ bigEndian 8 (8 * len).

Fixpoint wordsOf (n : nat) (bytes : list Z) : list Z :=
  match n, bytes with
  | S n', b0 :: b1 :: b2 :: b3 :: rest =>
      (b0 * 2 ^ 24 + b1 * 2 ^ 16 + b2 * 2 ^ 8 + b3) :: wordsOf n' rest
  | _, _ => []
  end.

Fixpoint blocksOf (n : nat) (bytes : list Z) : list (list Z) :=
  match n with
  | O => []
  | S n' =>
    match bytes with
    | [] => []
    | _ => wordsOf 16 (List.firstn 64 bytes) :: blocksOf n' (List.skipn 64 bytes)
    end
  end.

(** The message schedule, most recent word first: [w] holds
    [W(t-1); W(t-2); ...]. *)
Fixpoint schedule (n : nat) (w : list Z) : list Z :=
  match n with
  | O => w
  | S n' =>
    let at_ i := List.nth i w 0 in
    let wt := add32 (add32 (smallSigma1 (at_ 1%nat)) (at_ 6%nat))
                    (add32 (smallSigma0 (at_ 14%nat)) (at_ 15%nat)) in
    schedule n' (wt :: w)
  end.

Record regs := Regs { ra : Z; rb : Z; rc : Z; rd : Z; re : Z; rf : Z; rg : Z; rh : Z }.

Definition round (r : regs) (kw : Z * Z) : regs :=
  let t1 := add32 (add32 (add32 (rh r) (bigSigma1 (re r)))
                         (add32 (Ch (re r) (rf r) (rg r)) (fst kw))) (snd kw) in
  let t2 := add32 (bigSigma0 (ra r)) (Maj (ra r) (rb r) (rc r)) in
  Regs (add32 t1 t2) (ra r) (rb r) (rc r) (add32 (rd r) t1) (re r) (rf r) (rg r).

Definition regsOf (h : list Z) : regs :=
  let at_ i := List.nth i h 0 in
  Regs (at_ 0%nat) (at_ 1%nat) (at_ 2%nat) (at_ 3%nat)
       (at_ 4%nat) (at_ 5%nat) (at_ 6%nat) (at_ 7%nat).

Definition listOf (r : regs) : list Z :=
  [ra r; rb r; rc r; rd r; re r; rf r; rg r; rh r].

Definition compress (h : list Z) (block : list Z) : list Z :=
  let w := List.rev (schedule 48 (List.rev block)) in
  let r := List.fold_left round (List.combine K256 w) (regsOf h) in
  List.map (fun p => add32 (fst p) (snd p)) (List.combine h (listOf r)).

Definition bytesOf (s : string) : list Z :=
  List.map (fun c => Z.of_N (GoStr.byteOf c)) (list_ascii_of_string s).

(** [sha256.Sum256]: the 32 bytes of the digest. *)
Definition Sum256 (s : string) : list Z :=
  let bytes := pad (bytesOf s) in
  let h := List.fold_left compress (blocksOf (List.length bytes) bytes) H0 in
  List.concat (List.map (bigEndian 4) h).

Definition hexDigit (n : Z) : ascii :=
  ascii_of_N (Z.to_N (if n <? 10 then 48 + n else 87 + n)).

(** [hex.EncodeToString]. *)
Fixpoint EncodeToString (bytes : list Z) : string :=
  match bytes with
  | [] => EmptyString
  | b :: rest => String (hexDigit (b / 16)) (String (hexDigit (b mod 16)) (EncodeToString rest))
  end.

Definition hexSum256 (s : string) : string := EncodeToString (Sum256 s).

End Sha256.

(** ** The fragment of [regexp] that [normalize.go] uses

    Go's [regexp] reports, among the matches that start leftmost, the one a
    backtracking search finds first.  [matches r s] lists the lengths of the
    matches of [r] at the head of [s] in that search order, so its first
    element is the match that is reported. *)

Module Regexp.

Inductive regex : Type :=
  | Eps                                   (* the empty pattern *)
  | Digit                                 (* [\d] *)
  | Lit (c : ascii)                       (* a literal byte *)
  | Seq (r1 r2 : regex)                   (* concatenation *)
  | Rep (r : regex) (lo hi : nat).        (* [r{lo,hi}], greedy *)

Definition Opt (r : regex) : regex := Rep r 0 1.

Fixpoint matches (r : regex) (s : string) : list nat :=
  match r with
  | Eps => [0]
  | Digit =>
    match s with
    | String c _ => if GoStr.isDigit c then [1] else []
    | EmptyString => []
    end
  | Lit a =>
    match s with
    | String c _ => if Ascii.eqb a c then [1] else []
    | EmptyString => []
    end
  | Seq r1 r2 =>
    List.flat_map (fun n => List.map (Nat.add n) (matches r2 (GoStr.drop n s)))
                  (matches r1 s)
  | Rep r0 lo hi =>
    (fix rep (lo hi : nat) (s : string) {struct hi} : list nat :=
       let stop := match lo with O => [0] | S _ => [] end in
       match hi with
       | O => stop
       | S hi' =>
         List.flat_map
           (fun n => List.map (Nat.add n) (rep (Nat.pred lo) hi' (GoStr.drop n s)))
           (matches r0 s)
         ++ stop
       end) lo hi s
  end.

(** Length of the match reported at the head of [s], if there is one. *)
Definition matchLen (r : regex) (s : string) : option nat := List.head (matches r s).

(** [re.ReplaceAllString(src, repl)] for a [repl] without [$]: every
    non-overlapping match, leftmost first, is replaced.  [skip] counts the
    bytes of the current match that are still ahead.  (No pattern of this
    package matches the empty string; an empty match replaces nothing here.) *)
Fixpoint replaceAll_go (r : regex) (repl : string) (skip : nat) (s : string) : string :=
  match s with
  | EmptyString => EmptyString
  | String c s' =>
    match skip with
    | S n => replaceAll_go r repl n s'
    | O =>
      match matchLen r s with
      | Some (S n) => repl +:+ replaceAll_go r repl n s'
      | _ => String c (replaceAll_go r repl 0 s')
      end
    end
  end.

Definition ReplaceAllString (r : regex) (src repl : string) : string :=
  replaceAll_go r repl 0 src.

(** Pattern syntax: [D n] is [\d{n}], [Dr lo hi] is [\d{lo,hi}], [L c] a
    literal, [pat] the concatenation of a list. *)
Definition D (n : nat) : regex := Rep Digit n n.
Definition Dr (lo hi : nat) : regex := Rep Digit lo hi.
Definition L (c : ascii) : regex := Lit c.
Definition pat (rs : list regex) : regex := List.fold_right Seq Eps rs.

End Regexp.

(** ** normalize.go *)

Import Regexp.

Definition timestampPatterns : list regex :=
  [ (* \d{4}-\d{2}-\d{2} \d{2}:\d{2}:\d{2} *)
    pat [D 4; L "-"; D 2; L "-"; D 2; L " "; D 2; L ":"; D 2; L ":"; D 2];
    (* \d{4}-\d{2}-\d{2}T\d{2}:\d{2}:\d{2} *)
    pat [D 4; L "-"; D 2; L "-"; D 2; L "T"; D 2; L ":"; D 2; L ":"; D 2];
    (* \d{4}-\d{2}-\d{2}T\d{2}:\d{2} *)
    pat [D 4; L "-"; D 2; L "-"; D 2; L "T"; D 2; L ":"; D 2];
    (* \d{4}-\d{2}-\d{2}T\d{2}:\d{2}:\d{2}\.\d{3,6} *)
    pat [D 4; L "-"; D 2; L "-"; D 2; L "T"; D 2; L ":"; D 2; L ":"; D 2;
         L "."; Dr 3 6];
    (* \d{4}-\d{2}-\d{2} \d{2}:\d{2}:\d{2}\.\d{3,6} *)
    pat [D 4; L "-"; D 2; L "-"; D 2; L " "; D 2; L ":"; D 2; L ":"; D 2;
         L "."; Dr 3 6];
    (* \d{4}\.\d{2}\.\d{2}T\d{2}:\d{2}:\d{2}(\.\d{3,6})? *)
    pat [D 4; L "."; D 2; L "."; D 2; L "T"; D 2; L ":"; D 2; L ":"; D 2;
         Opt (pat [L "."; Dr 3 6])];
    (* \d{4}/\d{2}/\d{2} \d{2}:\d{2} *)
    pat [D 4; L "/"; D 2; L "/"; D 2; L " "; D 2; L ":"; D 2];
    (* \d{4}-\d{1,2}-\d{1,2} \d{1,2}:\d{1,2}:\d{1,2} *)
    pat [D 4; L "-"; Dr 1 2; L "-"; Dr 1 2; L " "; Dr 1 2; L ":"; Dr 1 2;
         L ":"; Dr 1 2] ].

(** The loop of [NormalizeText]: each pattern in turn, over the whole text. *)
Definition stripTimestamps (input : string) : string :=
  List.fold_left (fun s re => ReplaceAllString re s "") timestampPatterns input.

Definition NormalizeText (input : string) : string :=
  let s := stripTimestamps input in
  let s := GoStr.TrimSpace s in
  GoStr.Join (GoStr.Fields s) " ".

Definition HashNormalized (normalized : string) (hexLen : Z) : string :=
  let full := Sha256.hexSum256 normalized in
  if ((hexLen <=? 0) || (Z.of_nat (String.length full) <=? hexLen))%Z then full
  else GoStr.take (Z.to_nat hexLen) full.

(** ** cccc.go

    [strings.ToUpper] maps every letter of Unicode; it is a parameter here,
    and [GoStr.asciiToUpper] is what it does on ASCII text. *)

Section Tagger.

Variable ToUpper : string -> string.

Fixpoint ExtractCCCC_loop (upper : string) (codes : list string) : string :=
  match codes with
  | [] => "none"
  | c :: rest =>
    let c := ToUpper (GoStr.TrimSpace c) in
    if String.eqb c EmptyString then ExtractCCCC_loop upper rest
    else if GoStr.Contains upper c then c
    else ExtractCCCC_loop upper rest
  end.

Definition ExtractCCCC (text : string) (codes : list string) : string :=
  match codes with
  | [] => "none"
  | _ => ExtractCCCC_loop (ToUpper text) codes
  end.

End Tagger.

(** ** Decoded JSON values

    What [json.Unmarshal] stores in an [any]: [nil], [bool], [float64],
    [string], [[]any] and [map[string]any].  The pairs of a [JObject] are
    listed in the order in which [range] visits the map: Go leaves that order
    unspecified, so a statement about every list is a statement about every
    iteration order. *)

#[warnings="-register-all"]
Inductive json : Type :=
  | JNull
  | JBool (b : bool)
  | JNumber (f : spec_float)
  | JString (s : string)
  | JArray (vs : list json)
  | JObject (kvs : list (string * json)).

(** ** flatten.go *)

Record FlattenOptions := { MaxDepth : Z; MaxKeys : Z }.

Definition depthPlaceholder (opts : FlattenOptions) : json :=
  JString ("<max_depth:" +:+ GoStr.ItoaZ (MaxDepth opts) +:+ ">").

(** [len(out) >= opts.MaxKeys] *)
Definition capReached (opts : FlattenOptions) (out : gmap string json) : bool :=
  (MaxKeys opts <=? Z.of_nat (size out))%Z.

Fixpoint flattenInto (opts : FlattenOptions) (out : gmap string json)
    (prefix : string) (value : json) (depth : Z) {struct value} : gmap string json :=
  if capReached opts out then out
  else if (MaxDepth opts <? depth)%Z then
    if String.eqb prefix EmptyString then out
    else <[prefix := depthPlaceholder opts]> out
  else
    match value with
    | JObject kvs =>
      (fix range (kvs : list (string * json)) (out : gmap string json) :=
         match kvs with
         | [] => out
         | (k, child) :: rest =>
           let key := if String.eqb prefix EmptyString then k
                      else prefix +:+ "." +:+ k in
           let out := flattenInto opts out key child (depth + 1) in
           if capReached opts out then out else range rest out
         end) kvs out
    | JArray vs =>
      (fix range (i : nat) (vs : list json) (out : gmap string json) :=
         match vs with
         | [] => out
         | child :: rest =>
           let idx := GoStr.Itoa i in
           let key := if String.eqb prefix EmptyString then idx
                      else prefix +:+ "[" +:+ idx +:+ "]" in
           let out := flattenInto opts out key child (depth + 1) in
           if capReached opts out then out else range (S i) rest out
         end) 0 vs out
    | v =>
      if String.eqb prefix EmptyString then <["value" := v]> out
      else <[prefix := v]> out
    end.

Definition flattenDefaults (opts : FlattenOptions) : FlattenOptions :=
  {| MaxDepth := if (MaxDepth opts <=? 0)%Z then 16 else MaxDepth opts;
     MaxKeys := if (MaxKeys opts <=? 0)%Z then 5000 else MaxKeys opts |}.

Definition FlattenJSON (value : json) (opts : FlattenOptions) : gmap string json :=
  flattenInto (flattenDefaults opts) ∅ EmptyString value 0.

(** Structural induction on decoded values, through the lists they nest. *)
Section json_induction.

Variable P : json -> Prop.
Hypothesis HNull : P JNull.
Hypothesis HBool : forall b, P (JBool b).
Hypothesis HNumber : forall f, P (JNumber f).
Hypothesis HString : forall s, P (JString s).
Hypothesis HArray : forall vs, Forall P vs -> P (JArray vs).
Hypothesis HObject : forall kvs, Forall (fun kv => P kv.2) kvs -> P (JObject kvs).

Fixpoint json_nested_ind (v : json) : P v :=
  match v with
  | JNull => HNull
  | JBool b => HBool b
  | JNumber f => HNumber f
  | JString s => HString s
  | JArray vs =>
    HArray vs
      ((fix all (l : list json) : Forall P l :=
          match l with
          | [] => @List.Forall_nil _ P
          | x :: l' => @List.Forall_cons _ P x l' (json_nested_ind x) (all l')
          end) vs)
  | JObject kvs =>
    HObject kvs
      ((fix all (l : list (string * json)) : Forall (fun kv => P kv.2) l :=
          match l with
          | [] => @List.Forall_nil _ _
          | kv :: l' => @List.Forall_cons _ _ kv l' (json_nested_ind kv.2) (all l')
          end) kvs)
  end.

End json_induction.

(** ** The structured-data encoder ([buildStructuredData], runner.go) *)

Definition dquote : string := String (ascii_of_nat 34) EmptyString.
Definition backslash : string := String (ascii_of_nat 92) EmptyString.
Definition newline : string := String (ascii_of_nat 10) EmptyString.
Definition carriageReturn : string := String (ascii_of_nat 13) EmptyString.

Definition escapeSDParam (v : string) : string :=
  let v := GoStr.ReplaceAll v backslash (backslash +:+ backslash) in
  let v := GoStr.ReplaceAll v dquote (backslash +:+ dquote) in
  let v := GoStr.ReplaceAll v "]" (backslash +:+ "]") in
  let v := GoStr.ReplaceAll v newline " " in
  let v := GoStr.ReplaceAll v carriageReturn " " in
  v.

Definition preferredOrder : list string :=
  ["job"; "service"; "env"; "site"; "cluster"; "filename"; "alert_type";
   "alert_level"; "hash"; "cccc"; "replay"; "deadman"].

(** The five [WriteString] calls that emit one parameter. *)
Definition writeParam (b k v : string) : string :=
  b +:+ " " +:+ k +:+ "=" +:+ dquote +:+ escapeSDParam v +:+ dquote.

Definition blank (v : string) : bool := String.eqb (GoStr.TrimSpace v) EmptyString.

(** First loop: the preferred keys, in their fixed order. *)
Definition sdPreferred (kv : gmap string string) (b : string) : string * gset string :=
  List.fold_left
    (fun (st : string * gset string) k =>
       match kv !! k with
       | None => st
       | Some v =>
         if blank v then st
         else (writeParam st.1 k v, {[k]} ∪ st.2)
       end)
    preferredOrder (b, ∅).

(** Second loop: the keys left over, collected in the order of [range]. *)
Definition sdExtraKeys (kv : gmap string string) (seen : gset string) : list string :=
  List.fold_left
    (fun extraKeys (p : string * string) =>
       if decide (p.1 ∈ seen) then extraKeys
       else if blank p.2 then extraKeys
       else extraKeys ++ [p.1])
    (map_to_list kv) [].

(** [sort.Strings]: ascending, byte by byte ([String.le] is [String.leb]). *)
Definition sortStrings (l : list string) : list string := merge_sort String.le l.

Definition buildStructuredData (sdID : string) (kv : gmap string string) : string :=
  let sdID := if String.eqb sdID EmptyString then "cndp" else sdID in
  let b := "[" +:+ sdID in
  let st := sdPreferred kv b in
  let extraKeys := sortStrings (sdExtraKeys kv st.2) in
  let b := List.fold_left
             (fun b k => writeParam b k (default EmptyString (kv !! k)))
             extraKeys st.1 in
  b +:+ "]".

(** ** [time]: instants, durations and the deadline helpers of runner.go

    A [Time] is a count of nanoseconds since the zero [time.Time] (January 1,
    year 1, 00:00 UTC), so that [IsZero] is a test against [0]; a [Duration]
    is Go's [int64] count of nanoseconds, and [Sub] saturates as Go's does. *)

Module GoTime.

Local Open Scope Z_scope.

Definition Time := Z.
Definition Duration := Z.

Definition Millisecond : Duration := 1000000.
Definition Second : Duration := 1000 * Millisecond.
Definition minDuration : Duration := - 2 ^ 63.
Definition maxDuration : Duration := 2 ^ 63 - 1.

Definition IsZero (t : Time) : bool := t =? 0.
Definition After (t u : Time) : bool := u <? t.
Definition Add (t : Time) (d : Duration) : Time := t + d.

Definition Sub (t u : Time) : Duration :=
  let d := t - u in
  if d <? minDuration then minDuration
  else if maxDuration <? d then maxDuration
  else d.

(** [time.Until(t)], the clock reading [now]. *)
Definition Until (now t : Time) : Duration := Sub t now.

(** Year and month of an instant in UTC (proleptic Gregorian calendar). *)
Definition nsPerDay : Z := 86400 * Second.

Definition civil (t : Time) : Z * Z :=
  let z := t / nsPerDay + 306 in
  let era := z / 146097 in
  let doe := z - era * 146097 in
  let yoe := (doe - doe / 1460 + doe / 36524 - doe / 146096) / 365 in
  let doy := doe - (365 * yoe + yoe / 4 - yoe / 100) in
  let mp := (5 * doy + 2) / 153 in
  let m := if mp <? 10 then mp + 3 else mp - 9 in
  let y := yoe + era * 400 + (if m <=? 2 then 1 else 0) in
  (y, m).

Definition Year (t : Time) : Z := (civil t).1.
Definition Month (t : Time) : Z := (civil t).2.

End GoTime.

Import GoTime.

Definition isDeadlineExceeded (now deadline : Time) : bool :=
  negb (IsZero deadline) && After now deadline.

Definition remainingTimeout (now deadline : Time) (fallback : Duration) : Duration :=
  if IsZero deadline then fallback
  else
    let rem := Until now deadline in
    if (rem <=? 0)%Z then (1 * Millisecond)%Z
    else if ((fallback <=? 0) || (rem <? fallback))%Z then rem
    else fallback.

(** ** models.go: the two ledgers *)

Record ProcessedFile := mkProcessedFile {
  pfID : nat;
  Path : string;
  SHA256 : string;
  SizeBytes : Z;
  ModUnixNano : Z;
  ProcessedAt : Time;
  AllSent : bool;
  Deleted : bool;
  DeletedAt : option Time;
  LastError : string
}.

Record SpoolEvent := mkSpoolEvent {
  evID : nat;
  IngestedAt : Time;
  SourcePath : string;
  SourceType : string;
  AlertType : string;
  AlertLevel : string;
  CCCC : string;
  EventIndex : Z;
  FileDigestSHA256 : string;
  RawContent : string;
  EventJSON : string;
  FlatJSON : string;
  Normalized : string;
  ContentHash : string;
  SentSyslog : bool;
  SendError : string;
  SentAt : option Time;
  ArchivedAt : Time
}.

(** The columns that [Updates] and [Create] write. *)
Definition setEvID (id : nat) (e : SpoolEvent) : SpoolEvent :=
  mkSpoolEvent id (IngestedAt e) (SourcePath e) (SourceType e) (AlertType e)
    (AlertLevel e) (CCCC e) (EventIndex e) (FileDigestSHA256 e) (RawContent e)
    (EventJSON e) (FlatJSON e) (Normalized e) (ContentHash e) (SentSyslog e)
    (SendError e) (SentAt e) (ArchivedAt e).

Definition setSent (sent : bool) (err : string) (at_ : option Time) (e : SpoolEvent)
  : SpoolEvent :=
  mkSpoolEvent (evID e) (IngestedAt e) (SourcePath e) (SourceType e) (AlertType e)
    (AlertLevel e) (CCCC e) (EventIndex e) (FileDigestSHA256 e) (RawContent e)
    (EventJSON e) (FlatJSON e) (Normalized e) (ContentHash e) sent err at_
    (ArchivedAt e).

Definition setSendError (err : string) (e : SpoolEvent) : SpoolEvent :=
  setSent (SentSyslog e) err (SentAt e) e.

Definition setPfID (id : nat) (f : ProcessedFile) : ProcessedFile :=
  mkProcessedFile id (Path f) (SHA256 f) (SizeBytes f) (ModUnixNano f)
    (ProcessedAt f) (AllSent f) (Deleted f) (DeletedAt f) (LastError f).

Definition setLastError (err : string) (f : ProcessedFile) : ProcessedFile :=
  mkProcessedFile (pfID f) (Path f) (SHA256 f) (SizeBytes f) (ModUnixNano f)
    (ProcessedAt f) (AllSent f) (Deleted f) (DeletedAt f) err.

Definition setDeleted (at_ : Time) (err : string) (f : ProcessedFile) : ProcessedFile :=
  mkProcessedFile (pfID f) (Path f) (SHA256 f) (SizeBytes f) (ModUnixNano f)
    (ProcessedAt f) (AllSent f) true (Some at_) err.

Definition setAllSent (err : string) (f : ProcessedFile) : ProcessedFile :=
  mkProcessedFile (pfID f) (Path f) (SHA256 f) (SizeBytes f) (ModUnixNano f)
    (ProcessedAt f) true (Deleted f) (DeletedAt f) err.

(** ** store.go: one SQLite file

    A table is the list of its rows in id order.  Rows are never deleted, and
    [Create] gives a new row the next id. *)

Record DB := mkDB {
  files : list ProcessedFile;
  events : list SpoolEvent
}.

Definition emptyDB : DB := mkDB [] [].

(** [Where("path = ? AND sha256 = ?", path, sha)] *)
Definition pfKeyIs (path sha : string) (f : ProcessedFile) : bool :=
  String.eqb (Path f) path && String.eqb (SHA256 f) sha.

(** [Where("source_path = ? AND file_sha256 = ?", path, sha)] *)
Definition evOfFile (path sha : string) (e : SpoolEvent) : bool :=
  String.eqb (SourcePath e) path && String.eqb (FileDigestSHA256 e) sha.

Definition updateFilesWhere (sel : ProcessedFile -> bool)
    (upd : ProcessedFile -> ProcessedFile) (d : DB) : DB :=
  mkDB (List.map (fun f => if sel f then upd f else f) (files d)) (events d).

Definition updateEventsWhere (sel : SpoolEvent -> bool)
    (upd : SpoolEvent -> SpoolEvent) (d : DB) : DB :=
  mkDB (files d) (List.map (fun e => if sel e then upd e else e) (events d)).

(** [Create(&events)]: the rows get consecutive ids. *)
Fixpoint assignIDs (next : nat) (evs : list SpoolEvent) : list SpoolEvent :=
  match evs with
  | [] => []
  | e :: rest => setEvID next e :: assignIDs (S next) rest
  end.

Inductive result (A : Type) : Type :=
  | Ok (a : A)
  | Err (msg : string).
Arguments Ok {A} a.
Arguments Err {A} msg.

(** The transaction of [archiveAndMarkFile]: the events, then the file row.
    GORM refuses an empty batch ([ErrEmptySlice]), and the unique index on
    (path, sha256) refuses a second row for the pair; either failure rolls
    the whole transaction back. *)
Definition archiveTx (evs : list SpoolEvent) (pf : ProcessedFile) (d : DB) : result DB :=
  match evs with
  | [] => Err "empty slice found"
  | _ =>
    if List.existsb (pfKeyIs (Path pf) (SHA256 pf)) (files d)
    then Err "UNIQUE constraint failed: processed_files.path, processed_files.sha256"
    else Ok (mkDB (files d ++ [setPfID (S (List.length (files d))) pf])
                  (events d ++ assignIDs (S (List.length (events d))) evs))
  end.

(** ** The world a Runner acts on *)

Inductive Node : Type :=
  | File (content : string) (modTime : Time)
  | Dir.

(** One call of [SendRFC5424Timeout], with the error it returned. *)
Record SyslogCall := mkCall {
  appName : string;
  structuredData : string;
  message : string;
  timeoutArgument : Duration;
  sendResult : option string
}.

(** What the next call of the sender will do: its error, if any, and the
    time it takes. *)
Record SendOutcome := mkOutcome {
  sendErr : option string;
  sendTook : Duration
}.

Record World := mkWorld {
  fs : gmap string Node;          (* the files and directories, by path *)
  unreadable : gset string;       (* paths that [os.ReadFile] fails on *)
  undeletable : gset string;      (* paths that [os.Remove] fails on *)
  unopenable : gset string;       (* database paths that SQLite cannot open *)
  stores : gmap string DB;        (* the database files, by path *)
  clock : Time;                   (* [time.Now()] *)
  calls : list SyslogCall;        (* what the sender was asked, oldest first *)
  script : list SendOutcome;      (* what the sender will answer, call by call *)
  fallback : SendOutcome;         (* and what it answers once the script is used up *)
  unrenamable : gset string;      (* paths that [os.Rename] cannot move: another
                                     device, no permission *)
  uncreatable : gset string;      (* paths that [os.Create] fails on *)
  unwritable : gmap string nat    (* paths on which writing fails, with the
                                     number of bytes written before it does *)
}.

Definition withFs (f : gmap string Node) (w : World) : World :=
  mkWorld f (unreadable w) (undeletable w) (unopenable w) (stores w) (clock w)
          (calls w) (script w) (fallback w)
          (unrenamable w) (uncreatable w) (unwritable w).

Definition withStores (s : gmap string DB) (w : World) : World :=
  mkWorld (fs w) (unreadable w) (undeletable w) (unopenable w) s (clock w)
          (calls w) (script w) (fallback w)
          (unrenamable w) (uncreatable w) (unwritable w).

(** The sender: the call is logged with its result, and the clock moves on
    by the time it took.  A sender that is down for good has an empty script
    and a failing fallback; the mock of runner_test.go that fails its next
    [n] calls has [n] failures in the script and a fallback that succeeds. *)
Definition SendRFC5424Timeout (app sd msg : string) (timeout : Duration) (w : World)
  : World * option string :=
  let o := match script w with
           | o :: _ => o
           | [] => fallback w
           end in
  (mkWorld (fs w) (unreadable w) (undeletable w) (unopenable w) (stores w)
           (Add (clock w) (sendTook o))
           (calls w ++ [mkCall app sd msg timeout (sendErr o)])
           (List.tl (script w)) (fallback w)
           (unrenamable w) (uncreatable w) (unwritable w),
   sendErr o).

(** [path/filepath] on slash-separated paths. *)
Module Filepath.

(** Index just past the last ['/'] of [s]. *)
Fixpoint afterLastSlash (s : string) : string :=
  match s with
  | EmptyString => EmptyString
  | String c s' =>
    if GoStr.Contains s' "/" then afterLastSlash s' else
    if Ascii.eqb c "/" then s' else s
  end.

Fixpoint trimTrailingSlashes_rev (r : string) : string :=
  match r with
  | String c r' => if Ascii.eqb c "/" then trimTrailingSlashes_rev r' else r
  | EmptyString => EmptyString
  end.

(** [filepath.Base] *)
Definition Base (path : string) : string :=
  match path with
  | EmptyString => "."
  | _ =>
    match GoStr.rev (trimTrailingSlashes_rev (GoStr.rev path)) with
    | EmptyString => "/"
    | p => afterLastSlash p
    end
  end.

(** [filepath.Ext]: from the last dot of the last element. *)
Fixpoint ext_go (s : string) : string :=
  match s with
  | EmptyString => EmptyString
  | String c s' =>
    match ext_go s' with
    | EmptyString => if Ascii.eqb c "." then s else EmptyString
    | e => e
    end
  end.

Definition Ext (path : string) : string := ext_go (afterLastSlash path).

End Filepath.

(** ** What the spooler takes from the Go runtime and its libraries

    These functions are not modelled; every statement below holds for each
    choice of them. *)

Class Runtime := {
  strings_ToUpper : string -> string;
  strings_ToLower : string -> string;
  (** [json.Unmarshal] into an [any], and [json.Marshal] *)
  json_Unmarshal : string -> result json;
  json_Marshal : json -> result string;
  (** [json.Marshal] of the payload map: source, event_index, event, flat *)
  json_MarshalPayload : string -> Z -> string -> string -> string;
  fmt_Sprint : json -> string;
  (** [parseAnyTime] of runner.go, which rests on [time.Parse] *)
  parseAnyTime : json -> option Time;
  (** [t.UTC().Format(time.RFC3339Nano)] *)
  time_FormatRFC3339Nano : Time -> string;
  (** offset of the local zone from UTC at an instant *)
  zoneOffset : Time -> Duration;
  filepath_Join : string -> string -> string;
  (** [filepath.Glob] over the database files *)
  filepath_Glob : string -> list string -> result (list string);
  (** [expandGlobWithDoubleStar] of runner.go over the file system *)
  expandGlobWithDoubleStar : string -> gmap string Node -> result (list string)
}.

(** ** runner.go: configuration, Runner and per-cycle counters *)

Record InputSpec := mkInputSpec {
  Glob : string;
  inAlertType : string;
  inErrorDir : string
}.

Record RunnerConfig := mkRunnerConfig {
  DBPath : string;
  DBFolder : string;
  DBPrefix : string;
  JobLabel : string;
  Debug : bool;
  InputGlobs : list string;
  Inputs : list InputSpec;
  SyslogAddr : string;
  ServiceLabel : string;
  HashHexLen : Z;
  CCCCEnabled : bool;
  CCCCCodes : list string;
  DeleteAfterSend : bool;
  Timeout : Duration;
  DeadmanToken : string;
  ReplayFrom : Time;
  FixedLabels : gmap string string
}.

Definition setServiceLabel (v : string) (c : RunnerConfig) : RunnerConfig :=
  mkRunnerConfig (DBPath c) (DBFolder c) (DBPrefix c) (JobLabel c) (Debug c)
    (InputGlobs c) (Inputs c) (SyslogAddr c) v (HashHexLen c) (CCCCEnabled c)
    (CCCCCodes c) (DeleteAfterSend c) (Timeout c) (DeadmanToken c) (ReplayFrom c)
    (FixedLabels c).

Definition setHashHexLen (v : Z) (c : RunnerConfig) : RunnerConfig :=
  mkRunnerConfig (DBPath c) (DBFolder c) (DBPrefix c) (JobLabel c) (Debug c)
    (InputGlobs c) (Inputs c) (SyslogAddr c) (ServiceLabel c) v (CCCCEnabled c)
    (CCCCCodes c) (DeleteAfterSend c) (Timeout c) (DeadmanToken c) (ReplayFrom c)
    (FixedLabels c).

Definition setDeleteAfterSend (v : bool) (c : RunnerConfig) : RunnerConfig :=
  mkRunnerConfig (DBPath c) (DBFolder c) (DBPrefix c) (JobLabel c) (Debug c)
    (InputGlobs c) (Inputs c) (SyslogAddr c) (ServiceLabel c) (HashHexLen c)
    (CCCCEnabled c) (CCCCCodes c) v (Timeout c) (DeadmanToken c) (ReplayFrom c)
    (FixedLabels c).

Definition setDBPrefix (v : string) (c : RunnerConfig) : RunnerConfig :=
  mkRunnerConfig (DBPath c) (DBFolder c) v (JobLabel c) (Debug c)
    (InputGlobs c) (Inputs c) (SyslogAddr c) (ServiceLabel c) (HashHexLen c)
    (CCCCEnabled c) (CCCCCodes c) (DeleteAfterSend c) (Timeout c) (DeadmanToken c)
    (ReplayFrom c) (FixedLabels c).

Definition setCCCCEnabled (v : bool) (c : RunnerConfig) : RunnerConfig :=
  mkRunnerConfig (DBPath c) (DBFolder c) (DBPrefix c) (JobLabel c) (Debug c)
    (InputGlobs c) (Inputs c) (SyslogAddr c) (ServiceLabel c) (HashHexLen c)
    v (CCCCCodes c) (DeleteAfterSend c) (Timeout c) (DeadmanToken c)
    (ReplayFrom c) (FixedLabels c).

(** [db] is the path of the database that is open, [None] for a nil handle. *)
Record Runner := mkRunner {
  cfg : RunnerConfig;
  db : option string;
  dbKey : string
}.

Record runStats := mkStats {
  FilesIngested : Z;
  EventsNew : Z;
  EventsSentOK : Z;
  EventsSentErr : Z;
  EventsReplayOK : Z;
  EventsReplayErr : Z;
  FilesDeleted : Z;
  MaxLag : Duration
}.

Definition zeroStats : runStats := mkStats 0%Z 0%Z 0%Z 0%Z 0%Z 0%Z 0%Z 0%Z.

Definition incFilesIngested (s : runStats) : runStats :=
  mkStats (FilesIngested s + 1)%Z (EventsNew s) (EventsSentOK s) (EventsSentErr s)
          (EventsReplayOK s) (EventsReplayErr s) (FilesDeleted s) (MaxLag s).
Definition incEventsNew (s : runStats) : runStats :=
  mkStats (FilesIngested s) (EventsNew s + 1)%Z (EventsSentOK s) (EventsSentErr s)
          (EventsReplayOK s) (EventsReplayErr s) (FilesDeleted s) (MaxLag s).
Definition incEventsSentOK (s : runStats) : runStats :=
  mkStats (FilesIngested s) (EventsNew s) (EventsSentOK s + 1)%Z (EventsSentErr s)
          (EventsReplayOK s) (EventsReplayErr s) (FilesDeleted s) (MaxLag s).
Definition incEventsSentErr (s : runStats) : runStats :=
  mkStats (FilesIngested s) (EventsNew s) (EventsSentOK s) (EventsSentErr s + 1)%Z
          (EventsReplayOK s) (EventsReplayErr s) (FilesDeleted s) (MaxLag s).
Definition incEventsReplayOK (s : runStats) : runStats :=
  mkStats (FilesIngested s) (EventsNew s) (EventsSentOK s) (EventsSentErr s)
          (EventsReplayOK s + 1)%Z (EventsReplayErr s) (FilesDeleted s) (MaxLag s).
Definition incEventsReplayErr (s : runStats) : runStats :=
  mkStats (FilesIngested s) (EventsNew s) (EventsSentOK s) (EventsSentErr s)
          (EventsReplayOK s) (EventsReplayErr s + 1)%Z (FilesDeleted s) (MaxLag s).
Definition incFilesDeleted (s : runStats) : runStats :=
  mkStats (FilesIngested s) (EventsNew s) (EventsSentOK s) (EventsSentErr s)
          (EventsReplayOK s) (EventsReplayErr s) (FilesDeleted s + 1)%Z (MaxLag s).
Definition raiseMaxLag (lag : Duration) (s : runStats) : runStats :=
  mkStats (FilesIngested s) (EventsNew s) (EventsSentOK s) (EventsSentErr s)
          (EventsReplayOK s) (EventsReplayErr s) (FilesDeleted s)
          (if (MaxLag s <? lag)%Z then lag else MaxLag s).

Record inputItem := mkInputItem {
  itPath : string;
  itAlertType : string;
  itErrorDir : string
}.

(** [m[k]] on a decoded object. *)
Fixpoint objLookup (kvs : list (string * json)) (k : string) : option json :=
  match kvs with
  | [] => None
  | (k', v) :: rest => if String.eqb k' k then Some v else objLookup rest k
  end.

(** ** The operating system *)

Definition unixEpoch : Time := (719162 * nsPerDay)%Z.
Definition UnixNano (t : Time) : Z := (t - unixEpoch)%Z.

Definition exists_ (path : string) (w : World) : bool :=
  match fs w !! path with Some _ => true | None => false end.

Definition hasChildren (path : string) (w : World) : bool :=
  List.existsb (fun q => GoStr.HasPrefix q (path +:+ "/"))
               (List.map fst (map_to_list (fs w))).

(** [os.Remove]: [None] when the path is gone afterwards. *)
Definition os_Remove (path : string) (w : World) : World * option string :=
  match fs w !! path with
  | None => (w, Some "remove: no such file or directory")
  | Some n =>
    if decide (path ∈ undeletable w) then (w, Some "remove: permission denied")
    else match n with
    | Dir => if hasChildren path w then (w, Some "remove: directory not empty")
             else (withFs (delete path (fs w)) w, None)
    | File _ _ => (withFs (delete path (fs w)) w, None)
    end
  end.

(** [os.MkdirAll] *)
Definition os_MkdirAll (dir : string) (w : World) : World * option string :=
  match fs w !! dir with
  | Some (File _ _) => (w, Some "mkdir: not a directory")
  | Some Dir => (w, None)
  | None => (withFs (<[dir := Dir]> (fs w)) w, None)
  end.

(** [os.Rename]: fails when the new path is a directory, when the old path
    is missing, and when the system refuses the move (another device, no
    permission); a file at the new path is replaced.  A directory moves with
    what lies under it. *)
Definition renamed (src dst p : string) : string :=
  if String.eqb p src then dst
  else if GoStr.HasPrefix p (src +:+ "/") then dst +:+ GoStr.drop (String.length src) p
  else p.

Definition os_Rename (src dst : string) (w : World) : World * option string :=
  match fs w !! dst with
  | Some Dir => (w, Some "rename: file exists")
  | dstNode =>
    match fs w !! src with
    | None => (w, Some "rename: no such file or directory")
    | Some n =>
      if decide (src ∈ unrenamable w) then (w, Some "rename: invalid cross-device link")
      else
        match n, dstNode with
        | File _ _, _ => (withFs (<[dst := n]> (delete src (fs w))) w, None)
        | Dir, Some _ => (w, Some "rename: not a directory")
        | Dir, None =>
          (withFs (list_to_map (List.map (fun pn => (renamed src dst pn.1, pn.2))
                                         (map_to_list (fs w)))) w, None)
        end
    end
  end.

(** [os.Open] for reading. *)
Definition os_Open (path : string) (w : World) : option string :=
  match fs w !! path with
  | None => Some "open: no such file or directory"
  | Some _ =>
    if decide (path ∈ unreadable w) then Some "open: permission denied" else None
  end.

(** [os.Create]: the file is there afterwards, and empty. *)
Definition os_Create (path : string) (w : World) : World * option string :=
  match fs w !! path with
  | Some Dir => (w, Some "open: is a directory")
  | _ =>
    if decide (path ∈ uncreatable w) then (w, Some "open: permission denied")
    else (withFs (<[path := File EmptyString (clock w)]> (fs w)) w, None)
  end.

(** [io.Copy(out, in)] and [out.Close()], [in] reading [src] and [out]
    writing the file just created at [dst]: reading a directory fails; a
    write that fails leaves what was written before it. *)
Definition io_Copy (dst src : string) (w : World) : World * option string :=
  match fs w !! src with
  | Some (File content _) =>
    match unwritable w !! dst with
    | Some n =>
      (withFs (<[dst := File (GoStr.take n content) (clock w)]> (fs w)) w,
       Some "write: no space left on device")
    | None => (withFs (<[dst := File content (clock w)]> (fs w)) w, None)
    end
  | _ => (w, Some "read: is a directory")
  end.

Section Runner.

Context `{RT : Runtime}.

(** ** move.go *)

Definition MoveFileToDir (srcPath dstDir : string) (w : World) : World * result string :=
  if blank dstDir then (w, Err "dstDir is empty")
  else
    match os_MkdirAll dstDir w with
    | (w, Some e) => (w, Err e)
    | (w, None) =>
      let base := Filepath.Base srcPath in
      let dstPath := filepath_Join dstDir base in
      let dstPath :=
        if exists_ dstPath w then
          let ext := Filepath.Ext base in
          let name := GoStr.TrimSuffix base ext in
          filepath_Join dstDir
            (name +:+ "-" +:+ GoStr.ItoaZ (UnixNano (clock w)) +:+ ext)
        else dstPath in
      (* Try fast rename first. *)
      match os_Rename srcPath dstPath w with
      | (w, None) => (w, Ok dstPath)
      | (w, Some _) =>
        (* Fallback: copy + remove (handles cross-device moves). *)
        match os_Open srcPath w with
        | Some e => (w, Err e)
        | None =>
          match os_Create dstPath w with
          | (w, Some e) => (w, Err e)
          | (w, None) =>
            match io_Copy dstPath srcPath w with
            | (w, Some e) => ((os_Remove dstPath w).1, Err e)
            | (w, None) =>
              match os_Remove srcPath w with
              | (w, Some e) => (w, Err e)
              | (w, None) => (w, Ok dstPath)
              end
            end
          end
        end
      end
    end.

(** ** alert_level.go *)

Definition NormalizeAlertLevel (v : string) : string :=
  let s := strings_ToLower (GoStr.TrimSpace v) in
  if List.existsb (String.eqb s) ["error"; "critical"; "2"; "3"; "4"; "5"] then "critical"
  else if List.existsb (String.eqb s) ["warn"; "warning"; "1"] then "warning"
  else "unknown".

Fixpoint firstLevelKey (kvs : list (string * json)) (keys : list string) : option json :=
  match keys with
  | [] => None
  | key :: rest =>
    match objLookup kvs key with
    | Some v => Some v
    | None => firstLevelKey kvs rest
    end
  end.

Definition levelOfExt (sourcePath : string) : string :=
  let ext := strings_ToLower (Filepath.Ext sourcePath) in
  if String.eqb ext ".warn" then "warning"
  else if String.eqb ext ".alarm" then "critical"
  else "unknown".

Definition ExtractAlertLevel (item : json) (sourcePath : string) : string :=
  match item with
  | JObject kvs =>
    match firstLevelKey kvs ["status"; "level"; "severity"] with
    | Some v => NormalizeAlertLevel (fmt_Sprint v)
    | None => levelOfExt sourcePath
    end
  | _ => levelOfExt sourcePath
  end.

(** ** runner.go: building events *)

Fixpoint extractEventTime_keys (kvs : list (string * json)) (keys : list string)
  : option Time :=
  match keys with
  | [] => None
  | k :: rest =>
    match objLookup kvs k with
    | None => extractEventTime_keys kvs rest
    | Some v =>
      match parseAnyTime v with
      | Some ts => Some ts
      | None => extractEventTime_keys kvs rest
      end
    end
  end.

Definition extractEventTime (item : json) : option Time :=
  match item with
  | JObject kvs =>
    extractEventTime_keys kvs
      ["time"; "timestamp"; "ts"; "occur_time"; "occurTime"; "created_at";
       "createdAt"; "alert_time"; "alertTime"]
  | _ => None
  end.

Definition computeLag (now : Time) (item : json) : option Duration :=
  match extractEventTime item with
  | None => None
  | Some ts =>
    if IsZero ts then None
    else
      let lag := Sub now ts in
      if (lag <? 0)%Z then None else Some lag
  end.

(** The [if lag, ok := computeLag(...); ok] block on [stats.MaxLag]. *)
Definition noteLag (now : Time) (item : json) (stats : runStats) : runStats :=
  match computeLag now item with
  | Some lag => raiseMaxLag lag stats
  | None => stats
  end.

Definition jsonAnyFromString (s : string) : json :=
  match json_Unmarshal s with
  | Ok v => v
  | Err _ => JNull
  end.

Definition extractKeyText (item : json) : string :=
  let marshalled := match json_Marshal item with Ok b => b | Err _ => EmptyString end in
  match item with
  | JObject kvs =>
    match objLookup kvs "detail" with
    | Some (JString s) => s
    | _ =>
      match objLookup kvs "description" with
      | Some (JString s) => s
      | _ => marshalled
      end
    end
  | _ => marshalled
  end.

Definition inferSourceType (path : string) : string :=
  let ext := strings_ToLower (Filepath.Ext path) in
  if String.eqb ext ".warn" then "warn"
  else if String.eqb ext ".alarm" then "alarm"
  else GoStr.TrimPrefix ext ".".

Definition inferAlertType (path : string) : string :=
  let p := strings_ToLower path in
  if GoStr.Contains p "/dev/" then "dev"
  else if GoStr.Contains p "/iec/" then "iec"
  else if GoStr.Contains p "/business/" then "business"
  else if GoStr.Contains p "/general/" then "general"
  else
    let ext := strings_ToLower (Filepath.Ext path) in
    if String.eqb ext ".alarm" then "dev" else "unknown".

Definition newErrorEvent (now : Time) (sourcePath sourceType alertType fileSHA raw err : string)
  : SpoolEvent :=
  {| evID := 0;
     IngestedAt := now;
     SourcePath := sourcePath;
     SourceType := sourceType;
     AlertType := alertType;
     AlertLevel := "unknown";
     CCCC := EmptyString;
     EventIndex := 0%Z;
     FileDigestSHA256 := fileSHA;
     RawContent := raw;
     EventJSON := "{}";
     FlatJSON := "{}";
     Normalized := EmptyString;
     ContentHash := EmptyString;
     SentSyslog := false;
     SendError := "decode/build error: " +:+ err;
     SentAt := None;
     ArchivedAt := now |}.

(** [buildEvent]; its callers pass a nil [stats], so the lag is not noted. *)
Definition buildEvent (c : RunnerConfig) (item : json)
    (raw sourcePath sourceType alertType fileSHA : string) (idx : Z) (now : Time)
  : result SpoolEvent :=
  match json_Marshal item with
  | Err e => Err e
  | Ok eventJSON =>
    let flat := FlattenJSON item {| MaxDepth := 0%Z; MaxKeys := 0%Z |} in
    match json_Marshal (JObject (map_to_list flat)) with
    | Err e => Err e
    | Ok flatJSON =>
      let keyText := extractKeyText item in
      let normalized := NormalizeText keyText in
      let hash := HashNormalized normalized (HashHexLen c) in
      let cccc :=
        match CCCCCodes c with
        | [] => "none"
        | _ => ExtractCCCC strings_ToUpper keyText (CCCCCodes c)
        end in
      let alertLevel := ExtractAlertLevel item sourcePath in
      Ok {| evID := 0;
            IngestedAt := now;
            SourcePath := sourcePath;
            SourceType := sourceType;
            AlertType := alertType;
            AlertLevel := alertLevel;
            CCCC := cccc;
            EventIndex := idx;
            FileDigestSHA256 := fileSHA;
            RawContent := raw;
            EventJSON := eventJSON;
            FlatJSON := flatJSON;
            Normalized := normalized;
            ContentHash := hash;
            SentSyslog := false;
            SendError := EmptyString;
            SentAt := None;
            ArchivedAt := now |}
    end
  end.

Fixpoint toEvents_range (c : RunnerConfig) (i : Z) (items : list json)
    (raw sourcePath sourceType alertType fileSHA : string) (now : Time)
  : list SpoolEvent :=
  match items with
  | [] => []
  | item :: rest =>
    let ev :=
      match buildEvent c item raw sourcePath sourceType alertType fileSHA i now with
      | Err e => newErrorEvent now sourcePath sourceType alertType fileSHA raw e
      | Ok ev => ev
      end in
    ev :: toEvents_range c (i + 1)%Z rest raw sourcePath sourceType alertType fileSHA now
  end.

Definition toEvents (c : RunnerConfig) (decoded : json)
    (raw sourcePath sourceType alertType fileSHA : string) (now : Time)
  : result (list SpoolEvent) :=
  match decoded with
  | JArray v =>
    Ok (toEvents_range c 0%Z v raw sourcePath sourceType alertType fileSHA now)
  | v =>
    match buildEvent c v raw sourcePath sourceType alertType fileSHA 0%Z now with
    | Err e => Err e
    | Ok ev => Ok [ev]
    end
  end.

End Runner.

(** ** runner.go: the store, ingestion, resend, finalize, replay, heartbeat *)

Definition jsonInt (z : Z) : json :=
  JNumber (match z with
           | Z0 => S754_zero false
           | Zpos p => S754_finite false p 0
           | Zneg p => S754_finite true p 0
           end).

(** [%0<width>d] *)
Definition padZeros (width : nat) (z : Z) : string :=
  let digits := GoStr.Itoa (Z.abs_nat z) in
  let sign := if (z <? 0)%Z then "-" else EmptyString in
  let fill := width - String.length sign - String.length digits in
  sign +:+ GoStr.rev (GoStr.take fill "0000000000000000") +:+ digits.

(** [time.Parse("200601", s)]: four digits of year, two of month. *)
Definition digitVal (c : ascii) : Z := Z.of_N (GoStr.byteOf c) - 48.

Definition parseYYYYMM (s : string) : option (Z * Z) :=
  match s with
  | String y1 (String y2 (String y3 (String y4 (String m1 (String m2 EmptyString))))) =>
    if List.forallb GoStr.isDigit [y1; y2; y3; y4; m1; m2] then
      let y := (digitVal y1 * 1000 + digitVal y2 * 100 + digitVal y3 * 10 + digitVal y4)%Z in
      let m := (digitVal m1 * 10 + digitVal m2)%Z in
      if ((1 <=? m) && (m <=? 12))%Z then Some (y, m) else None
    else None
  | _ => None
  end.

Section Cycle.

Context `{RT : Runtime}.

(** The database the Runner has open, and a write to it. *)
Definition curDB (r : Runner) (w : World) : DB :=
  match db r with
  | Some p => default emptyDB (stores w !! p)
  | None => emptyDB
  end.

Definition putDB (r : Runner) (d : DB) (w : World) : World :=
  match db r with
  | Some p => withStores (<[p := d]> (stores w)) w
  | None => w
  end.

(** [OpenDB]: opens the file, creating it and its tables when missing. *)
Definition OpenDB (path : string) (w : World) : World * option string :=
  if decide (path ∈ unopenable w) then (w, Some "unable to open database file")
  else
    match stores w !! path with
    | Some _ => (w, None)
    | None => (withStores (<[path := emptyDB]> (stores w)) w, None)
    end.

Definition Close (r : Runner) : Runner :=
  match db r with
  | None => r
  | Some _ => mkRunner (cfg r) None EmptyString
  end.

Definition ensureDBForNow (r : Runner) (w : World) : Runner * World * option string :=
  if blank (DBFolder (cfg r)) then
    match db r with
    | Some _ => (r, w, None)
    | None =>
      match OpenDB (DBPath (cfg r)) w with
      | (w, Some e) => (r, w, Some e)
      | (w, None) => (mkRunner (cfg r) (Some (DBPath (cfg r))) "static", w, None)
      end
    end
  else
    let now := Add (clock w) (zoneOffset (clock w)) in
    let key := padZeros 4 (Year now) +:+ padZeros 2 (Month now) in
    if match db r with Some _ => String.eqb (dbKey r) key | None => false end
    then (r, w, None)
    else
      (* switch DB per natural month *)
      let r := Close r in
      let r := if blank (DBPrefix (cfg r))
               then mkRunner (setDBPrefix "alerts_" (cfg r)) (db r) (dbKey r)
               else r in
      match os_MkdirAll (DBFolder (cfg r)) w with
      | (w, Some e) => (r, w, Some e)
      | (w, None) =>
        let dbPath := filepath_Join (DBFolder (cfg r)) (DBPrefix (cfg r) +:+ key +:+ ".db") in
        match OpenDB dbPath w with
        | (w, Some e) => (r, w, Some e)
        | (w, None) => (mkRunner (cfg r) (Some dbPath) key, w, None)
        end
      end.

Definition NewRunner (c : RunnerConfig) (w : World) : World * result Runner :=
  if blank (DBFolder c) && blank (DBPath c) then (w, Err "DBPath or DBFolder is required")
  else if blank (JobLabel c) then (w, Err "JobLabel is required")
  else if match InputGlobs c, Inputs c with [], [] => true | _, _ => false end
  then (w, Err "Inputs or InputGlobs is required")
  else if String.eqb (SyslogAddr c) EmptyString then (w, Err "SyslogAddr is required")
  else
    let c := if String.eqb (ServiceLabel c) EmptyString then setServiceLabel "alerts" c else c in
    let c := if (HashHexLen c <=? 0)%Z then setHashHexLen 24 c else c in
    (* Required by user: delete after confirmed send+DB by default. *)
    let c := if negb (DeleteAfterSend c) then setDeleteAfterSend true c else c in
    let r := mkRunner c None EmptyString in
    match ensureDBForNow r w with
    | (_, w, Some e) => (w, Err e)
    | (r, w, None) => (w, Ok r)
    end.

Definition isAlreadyProcessed (r : Runner) (w : World) (path sha : string) : bool :=
  List.existsb (pfKeyIs path sha) (files (curDB r w)).

(** The label map of a send, and the send itself. *)
Definition fixedLabel (c : RunnerConfig) (k : string) : string :=
  default EmptyString (FixedLabels c !! k).

Definition eventLabels (c : RunnerConfig) (filename : string) (ev : SpoolEvent)
  : gmap string string :=
  list_to_map
    [("job", JobLabel c); ("service", ServiceLabel c);
     ("env", fixedLabel c "env"); ("site", fixedLabel c "site");
     ("cluster", fixedLabel c "cluster");
     ("filename", filename);
     ("alert_type", AlertType ev);
     ("alert_level", if blank (AlertLevel ev) then "unknown" else AlertLevel ev);
     ("hash", ContentHash ev); ("cccc", CCCC ev)].

Definition sendEvent (labels : gmap string string) (ev : SpoolEvent)
    (deadline : Time) (w : World) : World * option string :=
  let structured := buildStructuredData "cndp" labels in
  let payload := json_MarshalPayload (SourcePath ev) (EventIndex ev) (EventJSON ev)
                                     (FlatJSON ev) in
  SendRFC5424Timeout "alert-spooler" structured payload
    (remainingTimeout (clock w) deadline (3 * Second)%Z) w.

(** The first loop of [archiveAndMarkFile]: every event is sent once and the
    outcome is written into the event. *)
Fixpoint archiveSends (c : RunnerConfig) (path : string) (deadline : Time)
    (evs : list SpoolEvent) (w : World) (stats : runStats)
  : list SpoolEvent * bool * World * runStats :=
  match evs with
  | [] => ([], true, w, stats)
  | ev :: rest =>
    let stats := incEventsNew stats in
    let stats := noteLag (clock w) (jsonAnyFromString (EventJSON ev)) stats in
    let '(w, err) := sendEvent (eventLabels c (Filepath.Base path) ev) ev deadline w in
    let '(ev, ok, stats) :=
      match err with
      | Some e => (setSent false e (SentAt ev) ev, false, incEventsSentErr stats)
      | None => (setSent true (SendError ev) (Some (clock w)) ev, true,
                 incEventsSentOK stats)
      end in
    let '(rest, allSent, w, stats) := archiveSends c path deadline rest w stats in
    (ev :: rest, ok && allSent, w, stats)
  end.

Definition tryDeleteProcessedFile (r : Runner) (path sha : string) (w : World)
  : World * option string :=
  match os_Remove path w with
  | (w, Some e) =>
    (putDB r (updateFilesWhere (pfKeyIs path sha)
                (setLastError ("delete failed: " +:+ e)) (curDB r w)) w,
     Some e)
  | (w, None) =>
    (putDB r (updateFilesWhere (pfKeyIs path sha)
                (setDeleted (clock w) EmptyString) (curDB r w)) w,
     None)
  end.

Definition archiveAndMarkFile (r : Runner) (path sha : string)
    (size : Z) (modTime : Time) (evs : list SpoolEvent) (deadline : Time)
    (errorDir : string) (moveToErrorDir : bool) (w : World) (stats : runStats)
  : World * runStats * option string :=
  (* send syslog + persist *)
  let '(evs, allSent, w, stats) := archiveSends (cfg r) path deadline evs w stats in
  let pf := {| pfID := 0; Path := path; SHA256 := sha; SizeBytes := size;
               ModUnixNano := UnixNano modTime; ProcessedAt := clock w;
               AllSent := allSent; Deleted := false; DeletedAt := None;
               LastError := EmptyString |} in
  match archiveTx evs pf (curDB r w) with
  | Err e =>
    (* Best-effort: move files that failed DB archive out of the input directory. *)
    let w := if moveToErrorDir && negb (blank errorDir)
             then (MoveFileToDir path errorDir w).1 else w in
    (w, stats, Some e)
  | Ok d =>
    let w := putDB r d w in
    let stats := incFilesIngested stats in
    if moveToErrorDir && negb (blank errorDir) then
      match MoveFileToDir path errorDir w with
      | (w, Err mvErr) =>
        (putDB r (updateFilesWhere (pfKeyIs path sha)
                    (setLastError ("move to error_dir failed: " +:+ mvErr))
                    (curDB r w)) w,
         stats, Some mvErr)
      | (w, Ok dst) =>
        (putDB r (updateFilesWhere (pfKeyIs path sha)
                    (setDeleted (clock w) ("moved to error_dir: " +:+ dst))
                    (curDB r w)) w,
         incFilesDeleted stats, None)
      end
    else if DeleteAfterSend (cfg r) && allSent then
      (* Delete source file only after allSent + DB insert succeeded. *)
      match tryDeleteProcessedFile r path sha w with
      | (w, Some remErr) => (w, stats, Some remErr)
      | (w, None) => (w, incFilesDeleted stats, None)
      end
    else (w, stats, None)
  end.

Definition ingestFile (r : Runner) (path forcedAlertType errorDir : string)
    (deadline : Time) (w : World) (stats : runStats)
  : World * runStats * option string :=
  match fs w !! path with
  | None => (w, stats, Some "stat: no such file or directory")
  | Some Dir => (w, stats, None)
  | Some (File content modTime) =>
    if (Z.of_nat (String.length content) <=? 0)%Z then (w, stats, None)
    else if decide (path ∈ unreadable w) then
      (* Best-effort: move unreadable files out of the input directory. *)
      let w := if negb (blank errorDir) then (MoveFileToDir path errorDir w).1 else w in
      (w, stats, Some "read: permission denied")
    else
      let fileSHAHex := Sha256.hexSum256 content in
      if isAlreadyProcessed r w path fileSHAHex then (w, stats, None)
      else
        let alertType := GoStr.TrimSpace forcedAlertType in
        let alertType := if String.eqb alertType EmptyString
                         then inferAlertType path else alertType in
        let sourceType := inferSourceType path in
        let raw := content in
        let size := Z.of_nat (String.length content) in
        let asError (e : string) :=
          archiveAndMarkFile r path fileSHAHex size modTime
            [newErrorEvent (clock w) path sourceType alertType fileSHAHex raw e]
            deadline errorDir true w stats in
        match json_Unmarshal content with
        | Err e => asError e    (* archive decode error as a single event *)
        | Ok decoded =>
          match toEvents (cfg r) decoded raw path sourceType alertType fileSHAHex
                         (clock w) with
          | Err e => asError e
          | Ok evs =>
            archiveAndMarkFile r path fileSHAHex size modTime evs deadline
              EmptyString false w stats
          end
        end
  end.

(** [expandGlobs] and [expandInputs]: the matches of every pattern, each path
    once, in the order found. *)
Fixpoint addUnseen {A} (mk : string -> A) (ms : list string) (seen : gset string)
  : list A * gset string :=
  match ms with
  | [] => ([], seen)
  | m :: rest =>
    if decide (m ∈ seen) then addUnseen mk rest seen
    else let '(out, seen') := addUnseen mk rest ({[m]} ∪ seen) in (mk m :: out, seen')
  end.

Fixpoint expandGlobs_from (globs : list string) (seen : gset string) (w : World)
  : result (list string) :=
  match globs with
  | [] => Ok []
  | g :: rest =>
    match expandGlobWithDoubleStar g (fs w) with
    | Err e => Err e
    | Ok ms =>
      let '(out, seen) := addUnseen id ms seen in
      match expandGlobs_from rest seen w with
      | Err e => Err e
      | Ok more => Ok (out ++ more)
      end
    end
  end.

Definition expandGlobs (globs : list string) (w : World) : result (list string) :=
  expandGlobs_from globs ∅ w.

Fixpoint expandInputs_from (inputs : list InputSpec) (seen : gset string) (w : World)
  : result (list inputItem) :=
  match inputs with
  | [] => Ok []
  | i :: rest =>
    if blank (Glob i) then expandInputs_from rest seen w
    else
      match expandGlobWithDoubleStar (Glob i) (fs w) with
      | Err e => Err e
      | Ok ms =>
        let '(out, seen) :=
          addUnseen (fun m => mkInputItem m (inAlertType i) (inErrorDir i)) ms seen in
        match expandInputs_from rest seen w with
        | Err e => Err e
        | Ok more => Ok (out ++ more)
        end
      end
  end.

Definition expandInputs (inputs : list InputSpec) (w : World) : result (list inputItem) :=
  expandInputs_from inputs ∅ w.

(** The two ingestion loops of [RunOnce]; [true] when the deadline cut the
    loop short. *)
Fixpoint ingestAll (r : Runner) (deadline : Time) (items : list inputItem)
    (w : World) (stats : runStats) : World * runStats * bool :=
  match items with
  | [] => (w, stats, false)
  | it :: rest =>
    if isDeadlineExceeded (clock w) deadline then (w, stats, true)
    else
      let '(w, stats, _) :=
        ingestFile r (itPath it) (itAlertType it) (itErrorDir it) deadline w stats in
      ingestAll r deadline rest w stats
  end.

(** [resendPending]: the loop over the rows that were unsent when it began. *)
Fixpoint resendLoop (r : Runner) (deadline : Time) (pending : list SpoolEvent)
    (w : World) (stats : runStats) : World * runStats * option string :=
  match pending with
  | [] => (w, stats, None)
  | ev :: rest =>
    if isDeadlineExceeded (clock w) deadline then (w, stats, Some "timeout exceeded")
    else
      let stats := noteLag (clock w) (jsonAnyFromString (EventJSON ev)) stats in
      let '(w, err) :=
        sendEvent (eventLabels (cfg r) (Filepath.Base (SourcePath ev)) ev) ev deadline w in
      match err with
      | Some e =>
        let w := putDB r (updateEventsWhere (fun x => Nat.eqb (evID x) (evID ev))
                            (setSendError e) (curDB r w)) w in
        resendLoop r deadline rest w (incEventsSentErr stats)
      | None =>
        let w := putDB r (updateEventsWhere (fun x => Nat.eqb (evID x) (evID ev))
                            (setSent true EmptyString (Some (clock w))) (curDB r w)) w in
        resendLoop r deadline rest w (incEventsSentOK stats)
      end
  end.

Definition resendPending (r : Runner) (deadline : Time) (w : World) (stats : runStats)
  : World * runStats * option string :=
  let pending := List.filter (fun e => negb (SentSyslog e)) (events (curDB r w)) in
  resendLoop r deadline pending w stats.

(** [finalizeFiles]: the loop over the rows that were not yet all sent or not
    yet deleted when it began. *)
Definition finalizeOne (r : Runner) (pf : ProcessedFile) (w : World) (stats : runStats)
  : World * runStats :=
  let ofFile := List.filter (evOfFile (Path pf) (SHA256 pf)) (events (curDB r w)) in
  let total := List.length ofFile in
  if Nat.eqb total 0 then (w, stats)
  else
    let sent := List.length (List.filter SentSyslog ofFile) in
    let allSent := Nat.eqb sent total in
    let w := if allSent && negb (AllSent pf)
             then putDB r (updateFilesWhere (fun f => Nat.eqb (pfID f) (pfID pf))
                             (setAllSent EmptyString) (curDB r w)) w
             else w in
    if DeleteAfterSend (cfg r) && allSent && negb (Deleted pf) then
      (* If file already missing, mark deleted to stop retry loop. *)
      if negb (exists_ (Path pf) w) then
        (putDB r (updateFilesWhere (fun f => Nat.eqb (pfID f) (pfID pf))
                    (setDeleted (clock w) "file missing") (curDB r w)) w,
         stats)
      else
        match tryDeleteProcessedFile r (Path pf) (SHA256 pf) w with
        | (w, None) => (w, incFilesDeleted stats)
        | (w, Some _) => (w, stats)
        end
    else (w, stats).

Fixpoint finalizeLoop (r : Runner) (pfs : list ProcessedFile) (w : World)
    (stats : runStats) : World * runStats :=
  match pfs with
  | [] => (w, stats)
  | pf :: rest =>
    let '(w, stats) := finalizeOne r pf w stats in
    finalizeLoop r rest w stats
  end.

Definition finalizeFiles (r : Runner) (w : World) (stats : runStats) : World * runStats :=
  let pfs := List.filter (fun f => negb (AllSent f) || negb (Deleted f))
                         (files (curDB r w)) in
  finalizeLoop r pfs w stats.

(** [listMonthlyDBs]: the database files named <prefix><YYYYMM>.db whose
    month lies between those of [from] and [to]. *)
Definition monthKey (t : Time) : Z := (Year t * 100 + Month t)%Z.

Definition isMonthlyDB (prefix : string) (fromKey toKey : Z) (p : string) : bool :=
  let base := Filepath.Base p in
  if negb (GoStr.HasPrefix base prefix) || negb (GoStr.HasSuffix base ".db") then false
  else
    let yyyymm := GoStr.TrimSuffix (GoStr.TrimPrefix base prefix) ".db" in
    if negb (Nat.eqb (String.length yyyymm) 6) then false
    else
      match parseYYYYMM yyyymm with
      | None => false
      | Some (y, m) =>
        let key := (y * 100 + m)%Z in
        negb ((key <? fromKey) || (toKey <? key))%Z
      end.

Definition listMonthlyDBs (folder prefix : string) (from to : Time) (w : World)
  : result (list string) :=
  let pattern := filepath_Join folder (prefix +:+ "*.db") in
  match filepath_Glob pattern (List.map fst (map_to_list (stores w))) with
  | Err e => Err e
  | Ok candidates =>
    Ok (sortStrings
          (List.filter (isMonthlyDB prefix (monthKey from) (monthKey to)) candidates))
  end.

(** [replayFrom]: the events of one database, then the databases in turn. *)
Fixpoint replayEvents (r : Runner) (deadline : Time) (evs : list SpoolEvent)
    (w : World) (stats : runStats) : World * runStats * option string :=
  match evs with
  | [] => (w, stats, None)
  | ev :: rest =>
    if isDeadlineExceeded (clock w) deadline then (w, stats, Some "timeout exceeded")
    else
      let stats := noteLag (clock w) (jsonAnyFromString (EventJSON ev)) stats in
      let labels :=
        <["replay" := "true"]> (eventLabels (cfg r) (Filepath.Base (SourcePath ev)) ev) in
      let '(w, err) := sendEvent labels ev deadline w in
      match err with
      | Some _ => replayEvents r deadline rest w (incEventsReplayErr stats)
      | None => replayEvents r deadline rest w (incEventsReplayOK stats)
      end
  end.

Fixpoint replayDBs (r : Runner) (from deadline : Time) (dbPaths : list string)
    (w : World) (stats : runStats) : World * runStats * option string :=
  match dbPaths with
  | [] => (w, stats, None)
  | dbPath :: rest =>
    if isDeadlineExceeded (clock w) deadline then (w, stats, Some "timeout exceeded")
    else if decide (dbPath ∈ unopenable w) then (w, stats, Some "unable to open database file")
    else
      let d := default emptyDB (stores w !! dbPath) in
      let evs := List.filter (fun e => (from <=? ArchivedAt e)%Z) (events d) in
      match replayEvents r deadline evs w stats with
      | (w, stats, Some e) => (w, stats, Some e)
      | (w, stats, None) => replayDBs r from deadline rest w stats
      end
  end.

Definition replayFrom (r : Runner) (from deadline : Time) (w : World) (stats : runStats)
  : World * runStats * option string :=
  if blank (DBFolder (cfg r))
  then (w, stats, Some "replay requires DBFolder (monthly rolling DB)")
  else if blank (DBPrefix (cfg r))
  then (w, stats, Some "replay requires DBPrefix (monthly rolling DB)")
  else
    let to := clock w in
    match listMonthlyDBs (DBFolder (cfg r)) (DBPrefix (cfg r)) from to w with
    | Err e => (w, stats, Some e)
    | Ok dbPaths => replayDBs r from deadline dbPaths w stats
    end.

(** [sendDeadman]: the heartbeat. *)
Definition Milliseconds (d : Duration) : Z := Z.quot d Millisecond.

Definition deadmanLabels (c : RunnerConfig) : gmap string string :=
  list_to_map
    [("job", JobLabel c); ("service", ServiceLabel c);
     ("env", fixedLabel c "env"); ("site", fixedLabel c "site");
     ("cluster", fixedLabel c "cluster");
     ("filename", "-"); ("alert_type", "deadman"); ("alert_level", "unknown");
     ("hash", "deadman"); ("cccc", "none"); ("deadman", DeadmanToken c)].

Definition sendDeadman (r : Runner) (deadline start end_ : Time) (stats : runStats)
    (runErr : option string) (w : World) : World * option string :=
  let status := match runErr with Some _ => "error" | None => "ok" end in
  let errMsg := match runErr with Some e => e | None => EmptyString end in
  let msg := JObject
    [("deadman", JString (DeadmanToken (cfg r)));
     ("status", JString status);
     ("error", JString errMsg);
     ("started_at", JString (time_FormatRFC3339Nano start));
     ("ended_at", JString (time_FormatRFC3339Nano end_));
     ("duration_ms", jsonInt (Milliseconds (Sub end_ start)));
     ("events_new", jsonInt (EventsNew stats));
     ("events_sent_ok", jsonInt (EventsSentOK stats));
     ("events_sent_err", jsonInt (EventsSentErr stats));
     ("events_replay_ok", jsonInt (EventsReplayOK stats));
     ("events_replay_err", jsonInt (EventsReplayErr stats));
     ("files_ingested", jsonInt (FilesIngested stats));
     ("files_deleted", jsonInt (FilesDeleted stats));
     ("max_lag_ms", jsonInt (Milliseconds (MaxLag stats)))] in
  let b := match json_Marshal msg with Ok b => b | Err _ => EmptyString end in
  SendRFC5424Timeout "alert-spooler" (buildStructuredData "cndp" (deadmanLabels (cfg r))) b
    (remainingTimeout (clock w) deadline (3 * Second)%Z) w.

(** [RunOnce] up to its deferred heartbeat. *)
Definition runBody (r : Runner) (deadline : Time) (w : World) (stats : runStats)
  : Runner * World * runStats * option string :=
  match ensureDBForNow r w with
  | (r, w, Some e) => (r, w, stats, Some e)
  | (r, w, None) =>
    if negb (IsZero (ReplayFrom (cfg r))) then
      let '(w, stats, err) := replayFrom r (ReplayFrom (cfg r)) deadline w stats in
      (r, w, stats, err)
    else
      match expandGlobs (InputGlobs (cfg r)) w with
      | Err e => (r, w, stats, Some e)
      | Ok paths =>
        let legacy := List.map (fun p => mkInputItem p EmptyString EmptyString) paths in
        match ingestAll r deadline legacy w stats with
        | (w, stats, true) => (r, w, stats, Some "timeout exceeded")
        | (w, stats, false) =>
          match expandInputs (Inputs (cfg r)) w with
          | Err e => (r, w, stats, Some e)
          | Ok items =>
            match ingestAll r deadline items w stats with
            | (w, stats, true) => (r, w, stats, Some "timeout exceeded")
            | (w, stats, false) =>
              if isDeadlineExceeded (clock w) deadline
              then (r, w, stats, Some "timeout exceeded")
              else
                match resendPending r deadline w stats with
                | (w, stats, Some e) => (r, w, stats, Some e)
                | (w, stats, None) =>
                  if isDeadlineExceeded (clock w) deadline
                  then (r, w, stats, Some "timeout exceeded")
                  else
                    let '(w, stats) := finalizeFiles r w stats in
                    (r, w, stats, None)
                end
            end
          end
        end
      end
  end.

Definition RunOnce (r : Runner) (w : World) : Runner * World * option string :=
  let start := clock w in
  let deadline := if (0 <? Timeout (cfg r))%Z then Add (clock w) (Timeout (cfg r)) else 0%Z in
  let '(r, w, stats, runErr) := runBody r deadline w zeroStats in
  (* Best-effort: deadman should still be sent even on failures. *)
  let w := if blank (DeadmanToken (cfg r)) then w
           else (sendDeadman r deadline start (clock w) stats runErr w).1 in
  (r, w, runErr).

End Cycle.

(** ** A sample runtime, for the worked examples

    ASCII case mapping; a decoder that accepts the texts that start with an
    opening brace and reads them as an object with the text as its detail;
    patterns that match the one path they spell. *)

Definition sampleRuntime : Runtime := {|
  strings_ToUpper := GoStr.asciiToUpper;
  strings_ToLower := fun s => s;
  json_Unmarshal := fun s =>
    if GoStr.HasPrefix s "{" then Ok (JObject [("detail", JString s)])
    else Err "invalid character";
  json_Marshal := fun _ => Ok "{}";
  json_MarshalPayload := fun source _ _ _ => source;
  fmt_Sprint := fun _ => EmptyString;
  parseAnyTime := fun _ => None;
  time_FormatRFC3339Nano := fun _ => EmptyString;
  zoneOffset := fun _ => 0%Z;
  filepath_Join := fun dir name => dir +:+ "/" +:+ name;
  filepath_Glob := fun _ paths => Ok paths;
  expandGlobWithDoubleStar := fun pattern files =>
    match files !! pattern with
    | Some _ => Ok [pattern]
    | None => Ok []
    end
|}.

(** One input file under a monthly database folder, as the tests of
    runner_test.go set it up; the clock stands at 2026-02-07 12:00 UTC. *)
Definition sampleConfig : RunnerConfig := {|
  DBPath := EmptyString;
  DBFolder := "/db";
  DBPrefix := "spooler_";
  JobLabel := "mhdbs";
  Debug := false;
  InputGlobs := [];
  Inputs := [mkInputSpec "/in/general/fail.warn" "general" EmptyString];
  SyslogAddr := "127.0.0.1:1";
  ServiceLabel := "alerts";
  HashHexLen := 24%Z;
  CCCCEnabled := false;
  CCCCCodes := ["ZBBB"];
  DeleteAfterSend := false;
  Timeout := 0%Z;
  DeadmanToken := EmptyString;
  ReplayFrom := 0%Z;
  FixedLabels := ∅
|}.

Definition sampleNow : Time := ((739653 * 86400 + 12 * 3600) * 1000000000)%Z.

Definition sampleWorld (outcomes : list SendOutcome) : World := {|
  fs := {[ "/in/general/fail.warn" :=
             File "{2026-02-07 12:00:00 heart beat missing ZBBB}" sampleNow ]};
  unreadable := ∅;
  undeletable := ∅;
  unopenable := ∅;
  stores := ∅;
  clock := sampleNow;
  calls := [];
  script := outcomes;
  fallback := mkOutcome None 0%Z;
  unrenamable := ∅;
  uncreatable := ∅;
  unwritable := ∅
|}.

Definition failing (msg : string) : SendOutcome := mkOutcome (Some msg) 0%Z.

Definition withTimeout (t : Duration) (c : RunnerConfig) : RunnerConfig :=
  mkRunnerConfig (DBPath c) (DBFolder c) (DBPrefix c) (JobLabel c) (Debug c)
    (InputGlobs c) (Inputs c) (SyslogAddr c) (ServiceLabel c) (HashHexLen c)
    (CCCCEnabled c) (CCCCCodes c) (DeleteAfterSend c) t (DeadmanToken c)
    (ReplayFrom c) (FixedLabels c).

Definition withDeadman (token : string) (c : RunnerConfig) : RunnerConfig :=
  mkRunnerConfig (DBPath c) (DBFolder c) (DBPrefix c) (JobLabel c) (Debug c)
    (InputGlobs c) (Inputs c) (SyslogAddr c) (ServiceLabel c) (HashHexLen c)
    (CCCCEnabled c) (CCCCCodes c) (DeleteAfterSend c) (Timeout c) token
    (ReplayFrom c) (FixedLabels c).

Definition withReplayFrom (from : Time) (c : RunnerConfig) : RunnerConfig :=
  mkRunnerConfig (DBPath c) (DBFolder c) (DBPrefix c) (JobLabel c) (Debug c)
    (InputGlobs c) (Inputs c) (SyslogAddr c) (ServiceLabel c) (HashHexLen c)
    (CCCCEnabled c) (CCCCCodes c) (DeleteAfterSend c) (Timeout c) (DeadmanToken c)
    from (FixedLabels c).

(** The Runner that [NewRunner] makes for a configuration, with the world it
    leaves. *)
Definition started `{RT : Runtime} (c : RunnerConfig) (w : World) : Runner * World :=
  match NewRunner c w with
  | (w', Ok r) => (r, w')
  | (w', Err _) => (mkRunner c None EmptyString, w')
  end.

(** A cycle with a one-second budget whose only send takes two seconds:
    the Runner and the world it starts from, its body, and the whole cycle. *)
Definition lateStart : Runner * World :=
  @started sampleRuntime (withDeadman "spooler-run" (withTimeout Second sampleConfig))
           (sampleWorld [mkOutcome None (2 * Second)%Z]).

Definition lateBody : Runner * World * runStats * option string :=
  @runBody sampleRuntime lateStart.1 (Add (clock lateStart.2) Second) lateStart.2 zeroStats.

Definition lateCycle : Runner * World * option string :=
  @RunOnce sampleRuntime lateStart.1 lateStart.2.

(** A cycle that archives and sends the sample file, and then the same
    Runner with a replay start ten minutes back, as
    [TestRunner_ReplayFrom_AddsReplayLabel] sets it. *)
Definition firstCycle (outcomes : list SendOutcome) : Runner * World * option string :=
  let '(r, w) := @started sampleRuntime sampleConfig (sampleWorld outcomes) in
  @RunOnce sampleRuntime r w.

Definition replayStart : Runner * World :=
  let r := (firstCycle []).1.1 in
  (mkRunner (withReplayFrom (sampleNow - 600 * Second)%Z (cfg r)) (db r) (dbKey r),
   (firstCycle []).1.2).

(** The sample file under a path that [os.Remove] fails on: the first
    cycle archives and sends it, and it stays on disk. *)
Definition stuckWorld : World :=
  mkWorld (fs (sampleWorld [])) ∅ {[ "/in/general/fail.warn" ]} ∅ ∅ sampleNow [] []
          (mkOutcome None 0%Z) ∅ ∅ ∅.

Definition stuckCycle : Runner * World * option string :=
  let rw := @started sampleRuntime sampleConfig stuckWorld in
  @RunOnce sampleRuntime rw.1 rw.2.



(** [TestRunner_SendFailureDoesNotDelete_ThenResendDeletes]: a first cycle
    in which the two sends fail, then a second cycle of the same Runner. *)
Definition failedCycle : Runner * World * option string :=
  firstCycle [failing "mock syslog send failure"; failing "mock syslog send failure"].

Definition retryCycle : Runner * World * option string :=
  @RunOnce sampleRuntime failedCycle.1.1 failedCycle.1.2.





(** ** Notions the properties are stated with *)

Section TaggerNotions.

Variable ToUpper : string -> string.

(** The form of a configured code that is looked for and returned. *)
Definition foldedCode (c : string) : string := ToUpper (GoStr.TrimSpace c).

(** A code counts when its folded form is not empty and occurs in the
    upper-cased text. *)
Definition codeHits (upper c : string) : Prop :=
  foldedCode c <> EmptyString /\ GoStr.Contains upper (foldedCode c) = true.

End TaggerNotions.

(** The claim as the specification words it: the first code, in list order,
    whose folded form occurs in the folded text. *)
Definition tagAsSpecified (ToUpper : string -> string) (text : string)
    (codes : list string) : string :=
  match List.find (fun c => GoStr.Contains (ToUpper text) (ToUpper (GoStr.TrimSpace c)))
                  codes with
  | Some c => c
  | None => "none"
  end.

(** A key is emitted when the map holds it with a value that is not blank. *)
Definition present (kv : gmap string string) (k : string) : bool :=
  match kv !! k with
  | Some v => negb (blank v)
  | None => false
  end.

(** The text of one parameter: a space, the key, and the quoted value. *)
Definition sdParamOf (kv : gmap string string) (k : string) : string :=
  " " +:+ k +:+ "=" +:+ dquote +:+ escapeSDParam (default EmptyString (kv !! k)) +:+ dquote.

Fixpoint concatStrings (l : list string) : string :=
  match l with
  | [] => EmptyString
  | x :: rest => x +:+ concatStrings rest
  end.

(** The preferred list as the specification words it, with [tag] where the
    code has [cccc], and the encoder that follows from it. *)
Definition preferredOrderAsSpecified : list string :=
  ["job"; "service"; "env"; "site"; "cluster"; "filename"; "alert_type";
   "alert_level"; "hash"; "tag"; "replay"; "deadman"].

Definition encodeAsSpecified (sdID : string) (kv : gmap string string) : string :=
  let first := List.filter (present kv) preferredOrderAsSpecified in
  let rest :=
    sortStrings
      (List.filter (fun k => present kv k
                             && negb (bool_decide (k ∈ preferredOrderAsSpecified)))
                   (List.map fst (map_to_list kv))) in
  "[" +:+ (if String.eqb sdID EmptyString then "cndp" else sdID)
      +:+ concatStrings (List.map (sdParamOf kv) (first ++ rest)) +:+ "]".

(** What can differ between two worlds when only directories were made and
    empty databases created. *)
Definition grows (w w1 : World) : Prop :=
  calls w1 = calls w /\ clock w1 = clock w /\ script w1 = script w
  /\ fallback w1 = fallback w
  /\ unreadable w1 = unreadable w /\ undeletable w1 = undeletable w
  /\ unopenable w1 = unopenable w
  /\ (forall p, fs w1 !! p = fs w !! p \/ (fs w !! p = None /\ fs w1 !! p = Some Dir))
  /\ (forall p, stores w1 !! p = stores w !! p
                \/ (stores w !! p = None /\ stores w1 !! p = Some emptyDB)).

(** What can differ between two worlds when only sends were made. *)
Definition sendsOnly (w w' : World) : Prop :=
  fs w' = fs w /\ stores w' = stores w /\ unreadable w' = unreadable w
  /\ undeletable w' = undeletable w /\ unopenable w' = unopenable w
  /\ exists new, calls w' = calls w ++ new.

Section ReplayNotions.

Context `{RT : Runtime}.

(** The labels of a replayed event, and the call that resends it. *)
Definition replayLabels (c : RunnerConfig) (ev : SpoolEvent) : gmap string string :=
  <["replay" := "true"]> (eventLabels c (Filepath.Base (SourcePath ev)) ev).

Definition isReplayOf (c : RunnerConfig) (ev : SpoolEvent) (call : SyslogCall) : Prop :=
  appName call = "alert-spooler"
  /\ structuredData call = buildStructuredData "cndp" (replayLabels c ev)
  /\ message call = json_MarshalPayload (SourcePath ev) (EventIndex ev) (EventJSON ev)
                                        (FlatJSON ev).

(** The events of a database that a replay from [from] selects. *)
Definition toReplay (from : Time) (d : DB) : list SpoolEvent :=
  List.filter (fun e => (from <=? ArchivedAt e)%Z) (events d).


End ReplayNotions.

Section LedgerNotions.

Context `{RT : Runtime}.




(** Between two worlds: no send was made, no event row changed, and the file
    ledger has as many rows as before. *)
Definition ledgerKept (r : Runner) (w w' : World) : Prop :=
  calls w' = calls w
  /\ events (curDB r w') = events (curDB r w)
  /\ List.length (files (curDB r w')) = List.length (files (curDB r w)).

End LedgerNotions.

(** ** Notions for the delivery guarantee *)

(** A sender that fails every call with a non-empty error text, and one that
    fails none. *)
Definition failsWithText (o : SendOutcome) : bool :=
  match sendErr o with
  | Some e => negb (String.eqb e EmptyString)
  | None => false
  end.

Definition succeeds (o : SendOutcome) : bool :=
  match sendErr o with
  | Some _ => false
  | None => true
  end.

Definition senderDown (w : World) : bool :=
  List.forallb failsWithText (script w) && failsWithText (fallback w).

Definition senderUp (w : World) : bool :=
  List.forallb succeeds (script w) && succeeds (fallback w).

(** No input has an error directory. *)
Definition noErrorDirs (c : RunnerConfig) : bool :=
  List.forallb (fun i => blank (inErrorDir i)) (Inputs c).


(** What an event row is apart from its delivery state. *)
Definition undelivered (e : SpoolEvent) : SpoolEvent :=
  setSent false EmptyString None (setEvID 0 e).

Section DeliveryNotions.

Context `{RT : Runtime}.


(** What the ingestion of [path] does to the ledger and to the disk: nothing,
    or one file row and its event rows are added (the file then stays, or it
    is removed when every row was sent). *)
Definition appended (r : Runner) (path : string) (w w' : World) : Prop :=
  (curDB r w' = curDB r w /\ fs w' = fs w)
  \/ (exists rows pf',
        rows <> []
        /\ events (curDB r w') = events (curDB r w) ++ rows
        /\ files (curDB r w') = files (curDB r w) ++ [pf']
        /\ Path pf' = path
        /\ Forall (fun row => evOfFile path (SHA256 pf') row = true) rows
        /\ (exists c t, fs w !! path = Some (File c t))
        /\ (senderDown w = true ->
            Forall (fun row => SentSyslog row = false /\ SendError row <> EmptyString) rows)
        /\ (fs w' = fs w
            \/ (Forall (fun row => SentSyslog row = true) rows
                /\ fs w' = delete path (fs w)))).

(** Between two worlds of one cycle: the sender is as able as it was, and
    the paths that cannot be removed are the same. *)
Definition sameSender (w w' : World) : Prop :=
  (senderDown w = true -> senderDown w' = true)
  /\ (senderUp w = true -> senderUp w' = true)
  /\ undeletable w' = undeletable w.


End DeliveryNotions.




(** ** Notions for the structured-data values

    What [escapeSDParam] does to one byte; a reader of an escaped value, as
    RFC 5424 describes PARAM-VALUE: a backslash before a quote, a backslash
    or a closing bracket stands for that byte; and the test that a value
    can stand between the quotes of a parameter. *)

Definition isSDSpecial (c : ascii) : bool :=
  Ascii.eqb c (ascii_of_nat 92) || Ascii.eqb c (ascii_of_nat 34) || Ascii.eqb c "]".

Definition escapeByte (c : ascii) : string :=
  if isSDSpecial c then String (ascii_of_nat 92) (String c EmptyString)
  else if Ascii.eqb c (ascii_of_nat 10) || Ascii.eqb c (ascii_of_nat 13) then " "
  else String c EmptyString.

Fixpoint mapBytes (f : ascii -> string) (s : string) : string :=
  match s with
  | EmptyString => EmptyString
  | String c s' => f c +:+ mapBytes f s'
  end.

Fixpoint unescapeSD (s : string) : string :=
  match s with
  | EmptyString => EmptyString
  | String c rest =>
    if Ascii.eqb c (ascii_of_nat 92) then
      match rest with
      | String d rest' =>
        if isSDSpecial d then String d (unescapeSD rest') else String c (unescapeSD rest)
      | EmptyString => String c EmptyString
      end
    else String c (unescapeSD rest)
  end.

Fixpoint sdValueOK (s : string) : bool :=
  match s with
  | EmptyString => true
  | String c rest =>
    if Ascii.eqb c (ascii_of_nat 92) then
      match rest with
      | String d rest' => isSDSpecial d && sdValueOK rest'
      | EmptyString => false
      end
    else negb (isSDSpecial c) && negb (Ascii.eqb c (ascii_of_nat 10))
         && negb (Ascii.eqb c (ascii_of_nat 13)) && sdValueOK rest
  end.

(** Line breaks turned into spaces: what an escaped value reads back as. *)
Definition unbroken (v : string) : string :=
  mapBytes (fun c => if Ascii.eqb c (ascii_of_nat 10) || Ascii.eqb c (ascii_of_nat 13)
                     then " " else String c EmptyString) v.

(** ** Notions for the fingerprint *)

Definition isLowerHex (c : ascii) : bool :=
  GoStr.isDigit c || ((97 <=? GoStr.byteOf c) && (GoStr.byteOf c <=? 102))%N.

Fixpoint allBytes (p : ascii -> bool) (s : string) : bool :=
  match s with
  | EmptyString => true
  | String c s' => p c && allBytes p s'
  end.

(** ** Notions for the flattener *)

(** A decoded value that is no array and no object. *)
Definition isLeaf (v : json) : bool :=
  match v with
  | JArray _ | JObject _ => false
  | _ => true
  end.

(** An entry of a flattened map: a named key and a leaf. *)
Definition flatEntry (k : string) (v : json) : Prop := k <> EmptyString /\ isLeaf v = true.

(** ** Notions for the ledgers across a cycle *)

(** The columns of a file row that no update writes, and the key of the
    unique index. *)
Definition fileIdentity (f : ProcessedFile) : nat * string * string * Z * Z * Time :=
  (pfID f, Path f, SHA256 f, SizeBytes f, ModUnixNano f, ProcessedAt f).

Definition fileKey (f : ProcessedFile) : string * string := (Path f, SHA256 f).

(** A file row and what a cycle may make of it; an event row likewise. *)
Definition sameFile (f f2 : ProcessedFile) : Prop :=
  fileIdentity f2 = fileIdentity f
  /\ (AllSent f = true -> AllSent f2 = true)
  /\ (Deleted f = true -> Deleted f2 = true).

Definition sameEvent (e e2 : SpoolEvent) : Prop :=
  undelivered e2 = undelivered e
  /\ evID e2 = evID e
  /\ (SentSyslog e = true -> SentSyslog e2 = true).

(** The ledger has a file row for [q] with at least one event, all of whose
    events are marked sent. *)
Definition settledOn (d : DB) (q : string) : Prop :=
  exists pf, pf ∈ files d /\ Path pf = q
    /\ (exists row, row ∈ events d /\ evOfFile q (SHA256 pf) row = true)
    /\ (forall row, row ∈ events d -> evOfFile q (SHA256 pf) row = true ->
                    SentSyslog row = true).

(** A store in which no two file rows share (path, digest) and every
    event row belongs to a file row. *)
Definition ledgerOK (d : DB) : Prop :=
  NoDup (fileKey <$> files d)
  /\ (forall e, e ∈ events d ->
        exists f, f ∈ files d /\ evOfFile (Path f) (SHA256 f) e = true).

(** A step that acts on the files only: the databases, the sender and its
    log, the clock and what the system refuses are as they were. *)
Definition filesOnly (w w2 : World) : Prop :=
  stores w2 = stores w /\ calls w2 = calls w /\ clock w2 = clock w
  /\ script w2 = script w /\ fallback w2 = fallback w
  /\ unreadable w2 = unreadable w /\ undeletable w2 = undeletable w
  /\ unopenable w2 = unopenable w /\ unrenamable w2 = unrenamable w
  /\ uncreatable w2 = uncreatable w /\ unwritable w2 = unwritable w.

Section LedgerSteps.

Context `{RT : Runtime}.

(** From one world of a cycle to a later one: the rows that were there are
    there still, in place, changed at most in their delivery and deletion
    marks; the rows added come file row by file row, each under a new key,
    every new event row with its file row.  When [strict], no file came onto
    the disk, the new event rows were built from files that were on disk,
    and a path that left the disk is settled in the ledger. *)
Definition advances (strict : bool) (r : Runner) (w w2 : World) : Prop :=
  exists oldF newF oldE newE,
    files (curDB r w2) = oldF ++ newF
    /\ Forall2 sameFile (files (curDB r w)) oldF
    /\ events (curDB r w2) = oldE ++ newE
    /\ Forall2 sameEvent (events (curDB r w)) oldE
    /\ (forall row, row ∈ newE ->
          exists pf, pf ∈ newF /\ evOfFile (Path pf) (SHA256 pf) row = true)
    /\ (forall pf f, pf ∈ newF -> f ∈ files (curDB r w) -> fileKey f <> fileKey pf)
    /\ NoDup (fileKey <$> newF)
    /\ (strict = true ->
        (forall row, row ∈ newE -> exists c t, fs w !! SourcePath row = Some (File c t))
        /\ (forall q, fs w2 !! q = fs w !! q
                      \/ (fs w !! q <> None /\ fs w2 !! q = None
                          /\ settledOn (curDB r w2) q))).

End LedgerSteps.

(** ** Notions for the calls and counters of a cycle *)

Definition succeeded (c : SyslogCall) : bool :=
  match sendResult c with None => true | Some _ => false end.

Definition okCalls (l : list SyslogCall) : Z :=
  Z.of_nat (List.length (List.filter succeeded l)).

Definition errCalls (l : list SyslogCall) : Z :=
  Z.of_nat (List.length (List.filter (fun c => negb (succeeded c)) l)).

(** What every call of the Runner looks like: the application name, and a
    timeout that is positive and at most three seconds. *)
Definition callWellFormed (c : SyslogCall) : Prop :=
  appName c = "alert-spooler"
  /\ (0 < timeoutArgument c <= 3 * Second)%Z.

Section CallNotions.

Context `{RT : Runtime}.

(** Between two points of a cycle: the calls made since, and the counters
    that moved with them (the replay counters in a [replay], the sent
    counters otherwise); the file rows added since, and their counter. *)
Definition accounted (replay : bool) (r : Runner) (w w2 : World) (s s2 : runStats)
  : Prop :=
  exists new,
    calls w2 = calls w ++ new
    /\ Forall callWellFormed new
    /\ (if replay
        then (EventsReplayOK s2 = EventsReplayOK s + okCalls new
              /\ EventsReplayErr s2 = EventsReplayErr s + errCalls new
              /\ EventsSentOK s2 = EventsSentOK s /\ EventsSentErr s2 = EventsSentErr s)%Z
        else (EventsSentOK s2 = EventsSentOK s + okCalls new
              /\ EventsSentErr s2 = EventsSentErr s + errCalls new
              /\ EventsReplayOK s2 = EventsReplayOK s
              /\ EventsReplayErr s2 = EventsReplayErr s)%Z)
    /\ (Z.of_nat (List.length (files (curDB r w2))) - FilesIngested s2
        = Z.of_nat (List.length (files (curDB r w))) - FilesIngested s)%Z.

End CallNotions.

(** ** Notions for the events of a file *)

(** The values of the [alert_level] label. *)
Definition alertLevels : list string := ["critical"; "warning"; "unknown"].

(** A fresh event of the file [path] with digest [sha] and content [raw]. *)
Definition freshEventOf (path sha raw : string) (now : Time) (ev : SpoolEvent) : Prop :=
  SourcePath ev = path /\ FileDigestSHA256 ev = sha /\ RawContent ev = raw
  /\ IngestedAt ev = now /\ ArchivedAt ev = now
  /\ SentSyslog ev = false /\ SentAt ev = None
  /\ AlertLevel ev ∈ alertLevels.

(** ** Notions for the expansion of the inputs *)

Section ExpandNotions.

Context `{RT : Runtime}.

(** The matches of the inputs before position [k] whose pattern is not
    blank. *)
Definition matchedBefore (inputs : list InputSpec) (w : World) (k : nat) (m : string)
  : Prop :=
  exists j i ms, j < k /\ inputs !! j = Some i /\ blank (Glob i) = false
                 /\ expandGlobWithDoubleStar (Glob i) (fs w) = Ok ms /\ m ∈ ms.

End ExpandNotions.

(** ** Notions for the monthly stores *)

(** [p] holds of the [n] integers from [z] on. *)
Fixpoint allFrom (n : nat) (z : Z) (p : Z -> bool) : bool :=
  match n with
  | O => true
  | S n' => p z && allFrom n' (z + 1)%Z p
  end.

(** The month of [civil], as a function of the day of the 400-year era. *)
Definition monthOfEraDay (doe : Z) : Z :=
  let yoe := ((doe - doe / 1460 + doe / 36524 - doe / 146096) / 365)%Z in
  let doy := (doe - (365 * yoe + yoe / 4 - yoe / 100))%Z in
  let mp := ((5 * doy + 2) / 153)%Z in
  if (mp <? 10)%Z then (mp + 3)%Z else (mp - 9)%Z.

(** The name that [ensureDBForNow] gives the month of an instant. *)
Definition monthName (t : Time) : string := padZeros 4 (Year t) +:+ padZeros 2 (Month t).

(** [padZeros 4] of a year writes four digits that read back as the year,
    and [padZeros 2] of a month two. *)
Definition fourDigitsOK (y : Z) : bool :=
  match padZeros 4 y with
  | String y1 (String y2 (String y3 (String y4 EmptyString))) =>
    List.forallb GoStr.isDigit [y1; y2; y3; y4]
    && (digitVal y1 * 1000 + digitVal y2 * 100 + digitVal y3 * 10 + digitVal y4 =? y)%Z
  | _ => false
  end.

Definition twoDigitsOK (m : Z) : bool :=
  match padZeros 2 m with
  | String m1 (String m2 EmptyString) =>
    List.forallb GoStr.isDigit [m1; m2] && (digitVal m1 * 10 + digitVal m2 =? m)%Z
  | _ => false
  end.

(** ** syslog.go: the tokens of the header *)

Definition sanitizeSyslogToken (s : string) : string :=
  let s := GoStr.TrimSpace s in
  if String.eqb s EmptyString then "-"
  else GoStr.ReplaceAll s " " "_".

Definition notSpace (c : ascii) : bool := negb (Ascii.eqb c " ").

(** ** Notions for the normalized text *)

(** Tab, line feed, vertical tab, form feed, carriage return or space. *)
Definition isAsciiSpace (c : ascii) : bool :=
  ((9 <=? GoStr.byteOf c) && (GoStr.byteOf c <=? 13) || (GoStr.byteOf c =? 32))%N.

(** A word: not empty, and free of ASCII white space. *)
Definition isWord (s : string) : Prop :=
  s <> EmptyString /\ allBytes (fun c => negb (isAsciiSpace c)) s = true.
(* ===================================================================== *)
(** * Part II: properties                                                 *)
(* ===================================================================== *)

(** ** Sanity checks of the string primitives *)

Example TrimSpace_ex : GoStr.TrimSpace "  a b	 " = "a b".
Proof. reflexivity. Qed.
Example Fields_ex : GoStr.Fields " foo   bar baz " = ["foo"; "bar"; "baz"].
Proof. reflexivity. Qed.
Example Itoa_ex : GoStr.Itoa 120 = "120" /\ GoStr.ItoaZ 16 = "16".
Proof. split; reflexivity. Qed.

(** The ends of the two constant tables, and the FIPS 180-4 test vectors. *)
Example sha256_constants :
  List.hd 0%Z Sha256.K256 = 0x428a2f98%Z /\ List.last Sha256.K256 0%Z = 0xc67178f2%Z
  /\ List.hd 0%Z Sha256.H0 = 0x6a09e667%Z /\ List.last Sha256.H0 0%Z = 0x5be0cd19%Z.
Proof. vm_compute. auto. Qed.

Example sha256_empty :
  Sha256.hexSum256 "" = "e3b0c44298fc1c149afbf4c8996fb92427ae41e4649b934ca495991b7852b855".
Proof. vm_compute. reflexivity. Qed.
Example sha256_abc :
  Sha256.hexSum256 "abc" = "ba7816bf8f01cfea414140de5dae2223b00361a396177a9cb410ff61f20015ad".
Proof. vm_compute. reflexivity. Qed.
Example sha256_two_blocks :
  Sha256.hexSum256 "abcdbcdecdefdefgefghfghighijhijkijkljklmklmnlmnomnopnopq"
  = "248d6a61d20638b8e5c026930c3e6039a33ce45964ff2167f6ecedd419db06c1".
Proof. vm_compute. reflexivity. Qed.

(** ** normalize_test.go and cccc_test.go, replayed *)

Example TestNormalizeHash :
  NormalizeText "2025-06-01 15:30:00 foo error" = "foo error"
  /\ NormalizeText "2025-06-02 11:22:33 foo error" = "foo error"
  /\ HashNormalized "foo error" 24 = "1b767278859b0fa1fc3d6411".
Proof. vm_compute. auto. Qed.

Example TestExtractCCCC :
  ExtractCCCC GoStr.asciiToUpper "hello ZGGGZHHHZSSS world" ["ZBBB"; "ZGGG"] = "ZGGG"
  /\ ExtractCCCC GoStr.asciiToUpper "no match" ["ZBBB"; "ZGGG"] = "none".
Proof. vm_compute. auto. Qed.

(** ** flatten_test.go and structured_data_test.go, replayed *)

Example TestFlattenJSON :
  let input := JObject [("a", JObject [("b", jsonInt 1);
                                       ("c", JArray [JString "x"; JObject [("y", JBool true)]])])] in
  let flat := FlattenJSON input {| MaxDepth := 8; MaxKeys := 100 |} in
  flat !! "a.b" = Some (jsonInt 1)
  /\ flat !! "a.c[0]" = Some (JString "x")
  /\ flat !! "a.c[1].y" = Some (JBool true).
Proof. vm_compute. auto. Qed.

Example TestBuildStructuredData_DefaultSDIDWhenEmpty :
  GoStr.HasPrefix (buildStructuredData EmptyString {["job" := "mhdbs"]}) "[cndp " = true.
Proof. vm_compute. reflexivity. Qed.

Example TestBuildStructuredData_SkipsEmptyAndSortsExtraKeys :
  buildStructuredData "cndp"
    (list_to_map [("job", "mhdbs"); ("service", "alerts"); ("env", EmptyString);
                  ("filename", "f.warn"); ("alert_type", "general");
                  ("alert_level", "warning"); ("hash", "h"); ("cccc", "none");
                  ("zzz", "3"); ("aaa", "1")])
  = "[cndp job=" +:+ dquote +:+ "mhdbs" +:+ dquote
    +:+ " service=" +:+ dquote +:+ "alerts" +:+ dquote
    +:+ " filename=" +:+ dquote +:+ "f.warn" +:+ dquote
    +:+ " alert_type=" +:+ dquote +:+ "general" +:+ dquote
    +:+ " alert_level=" +:+ dquote +:+ "warning" +:+ dquote
    +:+ " hash=" +:+ dquote +:+ "h" +:+ dquote
    +:+ " cccc=" +:+ dquote +:+ "none" +:+ dquote
    +:+ " aaa=" +:+ dquote +:+ "1" +:+ dquote
    +:+ " zzz=" +:+ dquote +:+ "3" +:+ dquote +:+ "]".
Proof. vm_compute. reflexivity. Qed.

Example civil_ex :
  (* 2026-02-07 12:00:00 UTC *)
  GoTime.civil ((739653 * 86400 + 12 * 3600) * 1000000000)%Z = (2026, 2)%Z
  /\ GoTime.civil 0%Z = (1, 1)%Z
  /\ GoTime.civil (-1)%Z = (0, 12)%Z.
Proof. vm_compute. auto. Qed.

(** ** The tagger (cccc.go) *)

Section TaggerProps.

Variable ToUpper : string -> string.

Lemma ExtractCCCC_loop_first (upper : string) (codes : list string) :
  (exists i c, codes !! i = Some c /\ codeHits ToUpper upper c
     /\ (forall j c', j < i -> codes !! j = Some c' -> ~ codeHits ToUpper upper c')
     /\ ExtractCCCC_loop ToUpper upper codes = foldedCode ToUpper c)
  \/ ((forall c, c ∈ codes -> ~ codeHits ToUpper upper c)
      /\ ExtractCCCC_loop ToUpper upper codes = "none").
Proof.
  induction codes as [|c rest IH]; simpl.
  - right. split; [|reflexivity]. intros c Hc. inversion Hc.
  - fold (foldedCode ToUpper c).
    assert (Hmiss : ~ codeHits ToUpper upper c ->
      (exists i c0, (c :: rest) !! i = Some c0 /\ codeHits ToUpper upper c0
         /\ (forall j c', j < i -> (c :: rest) !! j = Some c' -> ~ codeHits ToUpper upper c')
         /\ ExtractCCCC_loop ToUpper upper rest = foldedCode ToUpper c0)
      \/ ((forall c0, c0 ∈ c :: rest -> ~ codeHits ToUpper upper c0)
          /\ ExtractCCCC_loop ToUpper upper rest = "none")).
    { intros Hno. destruct IH as [(i & c0 & Hi & Hhit & Hfirst & Heq)|[Hnone Heq]].
      - left. exists (S i), c0.
        split; [exact Hi|]. split; [exact Hhit|]. split; [|exact Heq].
        intros [|j] c' Hj Hc'; simpl in Hc'.
        + injection Hc' as <-. exact Hno.
        + apply (Hfirst j); [lia|exact Hc'].
      - right. split; [|exact Heq].
        intros c0 Hc0. apply elem_of_cons in Hc0 as [->|Hc0]; auto. }
    destruct (String.eqb (foldedCode ToUpper c) EmptyString) eqn:Hempty.
    + apply Hmiss. intros [Hne _]. apply String.eqb_eq in Hempty. contradiction.
    + destruct (GoStr.Contains upper (foldedCode ToUpper c)) eqn:Hin.
      * left. exists 0, c.
        split; [reflexivity|]. split; [|split; [|reflexivity]].
        -- split; [|exact Hin]. apply String.eqb_neq in Hempty. exact Hempty.
        -- intros j c' Hj. lia.
      * apply Hmiss. intros [_ Hc]. congruence.
Qed.

End TaggerProps.

(** C8, refuted as stated: a blank code is passed over although its folded
    form, the empty string, occurs in every text; and what is returned is the
    folded form [ZBBB], not the code as configured. *)
Lemma C8_blank_code_counterexample :
  let codes := [" "; "zbbb"] in
  let text := "heart beat missing zbbb" in
  tagAsSpecified GoStr.asciiToUpper text codes = " "
  /\ ExtractCCCC GoStr.asciiToUpper text codes = "ZBBB"
  /\ ExtractCCCC GoStr.asciiToUpper text codes <> tagAsSpecified GoStr.asciiToUpper text codes.
Proof. vm_compute. repeat split; discriminate. Qed.

Section TaggerInRunner.

Context `{RT : Runtime}.

(** C8, amended: with no codes the tag is [none]; otherwise it is the folded
    (trimmed, upper-cased) form of the first code, in list order, whose folded
    form is not empty and occurs in the upper-cased raw text, and [none] when
    there is no such code.  An event is tagged from the code list alone: the
    [CCCCEnabled] flag changes nothing, and the key text that is searched is
    the raw one, not the normalized one. *)
Theorem C8_tag_is_first_hit_and_flag_is_ignored
    (text : string) (codes : list string) (c : RunnerConfig) (flag : bool)
    (item : json) (raw sourcePath sourceType alertType fileSHA : string)
    (idx : Z) (now : Time) :
  ExtractCCCC strings_ToUpper text [] = "none"
  /\ ((exists i code, codes !! i = Some code
         /\ codeHits strings_ToUpper (strings_ToUpper text) code
         /\ (forall j c', j < i -> codes !! j = Some c'
               -> ~ codeHits strings_ToUpper (strings_ToUpper text) c')
         /\ ExtractCCCC strings_ToUpper text codes = foldedCode strings_ToUpper code)
      \/ ((forall code, code ∈ codes -> ~ codeHits strings_ToUpper (strings_ToUpper text) code)
          /\ ExtractCCCC strings_ToUpper text codes = "none"))
  /\ buildEvent (setCCCCEnabled flag c) item raw sourcePath sourceType alertType fileSHA idx now
     = buildEvent c item raw sourcePath sourceType alertType fileSHA idx now
  /\ (forall ev,
        buildEvent c item raw sourcePath sourceType alertType fileSHA idx now = Ok ev ->
        CCCC ev = match CCCCCodes c with
                  | [] => "none"
                  | _ => ExtractCCCC strings_ToUpper (extractKeyText item) (CCCCCodes c)
                  end).
Proof.
  split; [reflexivity|]. split.
  - destruct codes as [|c0 rest].
    + right. split; [|reflexivity]. intros code Hc. inversion Hc.
    + apply (ExtractCCCC_loop_first strings_ToUpper (strings_ToUpper text) (c0 :: rest)).
  - split; [reflexivity|].
    intros ev Hev. unfold buildEvent in Hev.
    destruct (json_Marshal item); [|discriminate].
    destruct (json_Marshal (JObject (map_to_list _))); [|discriminate].
    injection Hev as <-. reflexivity.
Qed.

End TaggerInRunner.

(** ** The normalizer and the fingerprint (normalize.go) *)

(** C5: the list applies the whole-second pattern (the first) before the
    sub-second pattern that extends it (the fifth).  On a sub-second time
    stamp the first pattern's match is a prefix of the fifth's; the fifth
    alone would remove the stamp in full, but the loop has already removed
    the prefix when the fifth runs, and the fraction stays behind. *)
Theorem C5_short_pattern_runs_first :
  let input := "2025-06-01 15:30:00.123 foo error" in
  let short := List.nth 0 timestampPatterns Eps in
  let long := List.nth 4 timestampPatterns Eps in
  matchLen short input = Some 19
  /\ matchLen long input = Some 23
  /\ ReplaceAllString long input EmptyString = " foo error"
  /\ ReplaceAllString long (ReplaceAllString short input EmptyString) EmptyString
     = ".123 foo error"
  /\ NormalizeText input = ".123 foo error"
  /\ NormalizeText "2025-06-01T15:30:00.123456 foo error" = ".123456 foo error".
Proof. vm_compute. repeat split; reflexivity. Qed.

(** C4: two texts that differ only in a sub-second time stamp get different
    fingerprints, because of the residue above; two texts that differ in
    their other content get different fingerprints too. *)
Theorem C4_subsecond_fingerprints_differ :
  let text1 := "2025-06-01 15:30:00.123 foo error" in
  let text2 := "2025-06-01 15:30:00.456 foo error" in
  HashNormalized (NormalizeText text1) 24 = "3f75711fb8155817f6e11b91"
  /\ HashNormalized (NormalizeText text2) 24 = "5ffa507a55847007b9dec583"
  /\ HashNormalized (NormalizeText text1) 24 <> HashNormalized (NormalizeText text2) 24
  /\ HashNormalized (NormalizeText "2026-02-07 12:00:00 heart beat missing ZBBB") 24
     = HashNormalized (NormalizeText "2026-02-07 12:00:01 heart beat missing ZBBB") 24
  /\ HashNormalized (NormalizeText "2026-02-07 12:00:00 heart beat missing ZBBB") 24
     <> HashNormalized (NormalizeText "2026-02-07 12:00:00 heart beat missing ZGGG") 24.
Proof. vm_compute. repeat split; discriminate. Qed.

(** ** The deadline helpers *)

Lemma remainingTimeout_is_min (now deadline : Time) (ceiling : Duration) :
  IsZero deadline = false -> (0 < Until now deadline)%Z -> (0 < ceiling)%Z ->
  remainingTimeout now deadline ceiling = Z.min ceiling (Until now deadline).
Proof.
  intros Hz Hrem Hc. unfold remainingTimeout. rewrite Hz.
  destruct (Until now deadline <=? 0)%Z eqn:H1; [apply Z.leb_le in H1; lia|].
  destruct (ceiling <=? 0)%Z eqn:H2; [apply Z.leb_le in H2; lia|]. cbn [orb].
  destruct (Until now deadline <? ceiling)%Z eqn:H3.
  - apply Z.ltb_lt in H3. lia.
  - apply Z.ltb_ge in H3. lia.
Qed.

Lemma remainingTimeout_past (now deadline : Time) (ceiling : Duration) :
  isDeadlineExceeded now deadline = true ->
  remainingTimeout now deadline ceiling = (1 * Millisecond)%Z.
Proof.
  unfold isDeadlineExceeded, remainingTimeout, After, Until, Sub.
  intros [Hz Ha]%andb_true_iff. apply negb_true_iff in Hz. rewrite Hz.
  apply Z.ltb_lt in Ha.
  assert (Hneg : (deadline - now < 0)%Z) by lia.
  destruct (deadline - now <? minDuration)%Z eqn:H1.
  - reflexivity.
  - assert (H2 : (maxDuration <? deadline - now)%Z = false).
    { apply Z.ltb_ge. unfold maxDuration. lia. }
    rewrite H2.
    assert (H3 : (deadline - now <=? 0)%Z = true) by (apply Z.leb_le; lia).
    rewrite H3. reflexivity.
Qed.

(** ** The flattener (flatten.go) *)

Section FlattenProps.

Variable opts : FlattenOptions.






End FlattenProps.




(** ** The structured-data encoder *)

Lemma append_assoc (a b c : string) : (a +:+ b) +:+ c = a +:+ (b +:+ c).
Proof.
  induction a as [|x a IH]; [reflexivity|].
  change (String x ((a +:+ b) +:+ c) = String x (a +:+ (b +:+ c))). f_equal. exact IH.
Qed.

Lemma append_empty_r (a : string) : a +:+ EmptyString = a.
Proof.
  induction a as [|x a IH]; [reflexivity|].
  change (String x (a +:+ EmptyString) = String x a). f_equal. exact IH.
Qed.

Lemma concatStrings_app (l1 l2 : list string) :
  concatStrings (l1 ++ l2) = concatStrings l1 +:+ concatStrings l2.
Proof.
  induction l1 as [|x l1 IH]; [reflexivity|].
  change (x +:+ concatStrings (l1 ++ l2) = (x +:+ concatStrings l1) +:+ concatStrings l2).
  rewrite IH, append_assoc. reflexivity.
Qed.

Lemma elem_of_List_filter {A} (f : A -> bool) (l : list A) (x : A) :
  x ∈ List.filter f l <-> f x = true /\ x ∈ l.
Proof. rewrite !list_elem_of_In, List.filter_In. tauto. Qed.

Lemma NoDup_List_filter {A} (f : A -> bool) (l : list A) :
  NoDup l -> NoDup (List.filter f l).
Proof.
  induction 1 as [|x l Hx Hl IH]; simpl; [constructor|].
  destruct (f x); [|exact IH]. constructor; [|exact IH].
  rewrite elem_of_List_filter. tauto.
Qed.

Section EncoderProps.

Variable kv : gmap string string.

Lemma writeParam_sdParamOf (b k v : string) :
  kv !! k = Some v -> writeParam b k v = b +:+ sdParamOf kv k.
Proof. intros H. unfold writeParam, sdParamOf. rewrite H. reflexivity. Qed.

(** The first loop writes the present keys of its list, in the list's order,
    and remembers exactly those. *)
Lemma sdPreferred_fold (keys : list string) (b : string) (seen : gset string) :
  List.fold_left
    (fun (st : string * gset string) k =>
       match kv !! k with
       | None => st
       | Some v => if blank v then st else (writeParam st.1 k v, {[k]} ∪ st.2)
       end) keys (b, seen)
  = (b +:+ concatStrings (List.map (sdParamOf kv) (List.filter (present kv) keys)),
     list_to_set (List.filter (present kv) keys) ∪ seen).
Proof.
  revert b seen. induction keys as [|k keys IH]; intros b seen.
  - cbn. rewrite append_empty_r. f_equal. set_solver.
  - cbn [List.fold_left List.filter].
    assert (Hp : present kv k
                 = match kv !! k with Some v => negb (blank v) | None => false end)
      by reflexivity.
    destruct (kv !! k) as [v|] eqn:Hk; [|rewrite Hp; apply IH].
    destruct (blank v); rewrite Hp; cbn [negb]; [apply IH|].
    rewrite IH. cbn [fst snd List.map concatStrings list_to_set].
    rewrite (writeParam_sdParamOf _ _ _ Hk), append_assoc.
    f_equal. set_solver.
Qed.

(** The second loop collects the keys it does not skip, in the order of its
    list. *)
Lemma sdExtraKeys_fold (seen : gset string) (l : list (string * string))
    (acc : list string) :
  Forall (fun p => kv !! p.1 = Some p.2) l ->
  List.fold_left
    (fun extraKeys (p : string * string) =>
       if decide (p.1 ∈ seen) then extraKeys
       else if blank p.2 then extraKeys
       else extraKeys ++ [p.1]) l acc
  = acc ++ List.filter (fun k => negb (bool_decide (k ∈ seen)) && present kv k)
                       (List.map fst l).
Proof.
  intros Hl. revert acc. induction Hl as [|[k v] l Hk _ IH]; intros acc.
  - cbn. rewrite app_nil_r. reflexivity.
  - cbn [fst snd] in Hk.
    assert (Hp : present kv k = negb (blank v)) by (unfold present; rewrite Hk; reflexivity).
    cbn [List.fold_left List.map List.filter fst snd]. rewrite IH, Hp.
    destruct (decide (k ∈ seen)) as [Hin|Hout].
    + rewrite (bool_decide_eq_true_2 _ Hin). reflexivity.
    + rewrite (bool_decide_eq_false_2 _ Hout).
      destruct (blank v); cbn [negb andb]; [reflexivity|].
      rewrite <- app_assoc. reflexivity.
Qed.

Lemma map_to_list_lookups :
  Forall (fun p : string * string => kv !! p.1 = Some p.2) (map_to_list kv).
Proof. apply Forall_forall. intros [k v] H. apply elem_of_map_to_list in H. exact H. Qed.

Lemma fold_writeParam (keys : list string) (b : string) :
  Forall (fun k => is_Some (kv !! k)) keys ->
  List.fold_left (fun b k => writeParam b k (default EmptyString (kv !! k))) keys b
  = b +:+ concatStrings (List.map (sdParamOf kv) keys).
Proof.
  intros Hkeys. revert b. induction Hkeys as [|k keys [v Hk] _ IH]; intros b.
  - cbn. rewrite append_empty_r. reflexivity.
  - cbn [List.fold_left List.map concatStrings]. rewrite IH, Hk.
    cbn [default]. rewrite (writeParam_sdParamOf _ _ _ Hk), append_assoc.
    reflexivity.
Qed.

Lemma present_is_Some (k : string) : present kv k = true -> is_Some (kv !! k).
Proof. unfold present. destruct (kv !! k); [eauto|discriminate]. Qed.

End EncoderProps.

(** C6, refuted as stated: [tag] is not a preferred key of the code, so it
    is written after [replay], among the extra keys. *)
Lemma C6_tag_key_counterexample :
  let kv : gmap string string := {[ "tag" := "ZBBB"; "replay" := "true" ]} in
  buildStructuredData EmptyString kv
    = "[cndp replay=" +:+ dquote +:+ "true" +:+ dquote
      +:+ " tag=" +:+ dquote +:+ "ZBBB" +:+ dquote +:+ "]"
  /\ encodeAsSpecified EmptyString kv
    = "[cndp tag=" +:+ dquote +:+ "ZBBB" +:+ dquote
      +:+ " replay=" +:+ dquote +:+ "true" +:+ dquote +:+ "]"
  /\ buildStructuredData EmptyString kv <> encodeAsSpecified EmptyString kv.
Proof. vm_compute. repeat split; discriminate. Qed.

(** The layout of the encoder's output. *)
Lemma buildStructuredData_layout (sdID : string) (kv : gmap string string) :
  exists extras : list string,
    buildStructuredData sdID kv
      = "[" +:+ (if String.eqb sdID EmptyString then "cndp" else sdID)
            +:+ concatStrings
                  (List.map (sdParamOf kv)
                            (List.filter (present kv) preferredOrder ++ extras))
            +:+ "]"
    /\ Sorted String.le extras
    /\ NoDup extras
    /\ (forall k, k ∈ extras <-> present kv k = true /\ k ∉ preferredOrder)
    /\ (forall k, k ∈ List.filter (present kv) preferredOrder ++ extras
                  <-> exists v, kv !! k = Some v /\ GoStr.TrimSpace v <> EmptyString).
Proof.
  set (seen := list_to_set (List.filter (present kv) preferredOrder) ∪ (∅ : gset string)).
  set (raw := List.filter (fun k => negb (bool_decide (k ∈ seen)) && present kv k)
                          (List.map fst (map_to_list kv))).
  assert (Hraw : forall k, k ∈ raw <-> present kv k = true /\ k ∉ preferredOrder).
  { intros k. unfold raw. rewrite elem_of_List_filter.
    rewrite andb_true_iff, negb_true_iff, bool_decide_eq_false.
    assert (Hseen : k ∈ seen <-> present kv k = true /\ k ∈ preferredOrder).
    { unfold seen. rewrite elem_of_union, elem_of_list_to_set, elem_of_List_filter.
      pose proof (not_elem_of_empty (C := gset string) k). tauto. }
    split.
    - intros [[Hns Hp] _]. split; [exact Hp|]. intros Hin. apply Hns, Hseen. auto.
    - intros [Hp Hnp]. split; [split; [|exact Hp]|].
      + intros Hin%Hseen. tauto.
      + destruct (present_is_Some _ _ Hp) as [v Hv].
        apply list_elem_of_fmap. exists (k, v). split; [reflexivity|].
        apply elem_of_map_to_list. exact Hv. }
  exists (sortStrings raw).
  assert (Hperm : sortStrings raw ≡ₚ raw) by apply merge_sort_Permutation.
  assert (Hext : forall k, k ∈ sortStrings raw <-> present kv k = true /\ k ∉ preferredOrder).
  { intros k. rewrite Hperm. apply Hraw. }
  split; [|split; [|split; [|split]]].
  - unfold buildStructuredData, sdPreferred, sdExtraKeys.
    rewrite sdPreferred_fold. cbn [fst snd].
    rewrite (sdExtraKeys_fold kv _ _ [] (map_to_list_lookups kv)). cbn [app].
    fold seen. fold raw.
    rewrite fold_writeParam.
    + rewrite List.map_app, concatStrings_app, !append_assoc. reflexivity.
    + apply Forall_forall. intros k Hk. apply Hext in Hk as [Hp _].
      apply present_is_Some. exact Hp.
  - apply Sorted_merge_sort. apply _.
  - rewrite Hperm. unfold raw. apply NoDup_List_filter. apply NoDup_fst_map_to_list.
  - exact Hext.
  - intros k. rewrite elem_of_app, elem_of_List_filter, Hext.
    unfold present, blank.
    destruct (kv !! k) as [v|] eqn:Hk.
    + destruct (String.eqb (GoStr.TrimSpace v) EmptyString) eqn:Hb; cbn.
      * apply String.eqb_eq in Hb. split; [intros [[? _]|[? _]]; discriminate|].
        intros (v' & [= <-] & Hne). contradiction.
      * apply String.eqb_neq in Hb. split; [eauto|]. intros _.
        destruct (decide (k ∈ preferredOrder)); [left|right]; auto.
    + split; [intros [[? _]|[? _]]; discriminate|]. intros (v' & ? & _). discriminate.
Qed.

(** C6, amended: the output is the opening bracket, the id ([cndp] for an
    empty id), one parameter per emitted key, and the closing bracket.  The
    emitted keys are first those of the fixed list job, service, env, site,
    cluster, filename, alert_type, alert_level, hash, cccc, replay, deadman,
    in that order, then all the other keys in ascending byte order; a key is
    emitted exactly when the map holds it with a value that is not empty or
    white space only. *)
Theorem C6_structured_data_layout (sdID : string) (kv : gmap string string) :
  exists extras : list string,
    buildStructuredData sdID kv
      = "[" +:+ (if String.eqb sdID EmptyString then "cndp" else sdID)
            +:+ concatStrings
                  (List.map (sdParamOf kv)
                            (List.filter (present kv) preferredOrder ++ extras))
            +:+ "]"
    /\ Sorted String.le extras
    /\ NoDup extras
    /\ (forall k, k ∈ extras <-> present kv k = true /\ k ∉ preferredOrder)
    /\ (forall k, k ∈ List.filter (present kv) preferredOrder ++ extras
                  <-> exists v, kv !! k = Some v /\ GoStr.TrimSpace v <> EmptyString).
Proof. apply buildStructuredData_layout. Qed.

(** ** The Runner: configuration and heartbeat *)

Section RunnerBasics.

Context `{RT : Runtime}.

(** [ensureDBForNow] changes nothing of the configuration but the prefix. *)
Lemma ensureDBForNow_cfg (r : Runner) (w : World) :
  cfg (ensureDBForNow r w).1.1 = cfg r
  \/ cfg (ensureDBForNow r w).1.1 = setDBPrefix "alerts_" (cfg r).
Proof.
  unfold ensureDBForNow.
  destruct (blank (DBFolder (cfg r))).
  - destruct (db r); [left; reflexivity|].
    destruct (OpenDB _ w) as [w' [e|]]; left; reflexivity.
  - destruct (match db r with Some _ => _ | None => false end); [left; reflexivity|].
    assert (Hclose : cfg (Close r) = cfg r) by (unfold Close; destruct (db r); reflexivity).
    destruct (blank (DBPrefix (cfg (Close r)))); cbn [cfg];
      destruct (os_MkdirAll _ w) as [w1 [e|]]; cbn [fst snd cfg];
      try (rewrite Hclose; auto; fail);
      destruct (OpenDB _ w1) as [w2 [e|]]; cbn [fst snd cfg]; rewrite Hclose; auto.
Qed.

Lemma ensureDBForNow_keeps (r : Runner) (w : World) :
  DeleteAfterSend (cfg (ensureDBForNow r w).1.1) = DeleteAfterSend (cfg r)
  /\ DeadmanToken (cfg (ensureDBForNow r w).1.1) = DeadmanToken (cfg r)
  /\ Timeout (cfg (ensureDBForNow r w).1.1) = Timeout (cfg r)
  /\ ReplayFrom (cfg (ensureDBForNow r w).1.1) = ReplayFrom (cfg r)
  /\ DBFolder (cfg (ensureDBForNow r w).1.1) = DBFolder (cfg r).
Proof. destruct (ensureDBForNow_cfg r w) as [-> | ->]; repeat split; reflexivity. Qed.

(** The Runner that [runBody] returns is the one [ensureDBForNow] returned. *)
Lemma runBody_runner (r : Runner) (deadline : Time) (w : World) (stats : runStats) :
  (runBody r deadline w stats).1.1.1 = (ensureDBForNow r w).1.1.
Proof.
  unfold runBody.
  destruct (ensureDBForNow r w) as [[r1 w1] [e|]]; [reflexivity|]. cbn [fst snd].
  destruct (negb (IsZero (ReplayFrom (cfg r1)))).
  { destruct (replayFrom r1 _ deadline w1 stats) as [[w2 s2] e2]. reflexivity. }
  destruct (expandGlobs _ w1) as [paths|e]; [|reflexivity].
  destruct (ingestAll r1 deadline _ w1 stats) as [[w2 s2] [|]]; [reflexivity|].
  destruct (expandInputs _ w2) as [items|e]; [|reflexivity].
  destruct (ingestAll r1 deadline items w2 s2) as [[w3 s3] [|]]; [reflexivity|].
  destruct (isDeadlineExceeded (clock w3) deadline); [reflexivity|].
  destruct (resendPending r1 deadline w3 s3) as [[w4 s4] [e|]]; [reflexivity|].
  destruct (isDeadlineExceeded (clock w4) deadline); [reflexivity|].
  destruct (finalizeFiles r1 w4 s4) as [w5 s5]. reflexivity.
Qed.

(** [RunOnce] keeps delete-after-send as it found it. *)
Lemma RunOnce_keeps_DeleteAfterSend (r : Runner) (w : World) :
  DeleteAfterSend (cfg (RunOnce r w).1.1) = DeleteAfterSend (cfg r).
Proof.
  unfold RunOnce.
  pose proof (runBody_runner r
    (if (0 <? Timeout (cfg r))%Z then Add (clock w) (Timeout (cfg r)) else 0%Z)
    w zeroStats) as Hr.
  destruct (runBody r _ w zeroStats) as [[[r1 w1] s1] e1]. cbn [fst snd] in *.
  subst r1. apply ensureDBForNow_keeps.
Qed.

(** C10: a Runner that [NewRunner] hands out has delete-after-send on,
    whatever the configuration said, and every later cycle leaves it on. *)
Theorem C10_delete_after_send_is_forced
    (c : RunnerConfig) (w w' : World) (r : Runner) :
  NewRunner c w = (w', Ok r) ->
  DeleteAfterSend (cfg r) = true
  /\ forall w1, DeleteAfterSend (cfg (RunOnce r w1).1.1) = true.
Proof.
  intros Hnew.
  assert (Hr : DeleteAfterSend (cfg r) = true).
  { unfold NewRunner in Hnew.
    destruct (blank (DBFolder c) && blank (DBPath c)); [discriminate|].
    destruct (blank (JobLabel c)); [discriminate|].
    destruct (match InputGlobs c, Inputs c with [], [] => true | _, _ => false end);
      [discriminate|].
    destruct (String.eqb (SyslogAddr c) EmptyString); [discriminate|].
    match type of Hnew with
    | context [ensureDBForNow ?r0 w] =>
      pose proof (ensureDBForNow_keeps r0 w) as [Hdel _];
      destruct (ensureDBForNow r0 w) as [[r1 w1] [e|]]; [discriminate|];
      injection Hnew as _ <-; cbn [fst snd] in Hdel; rewrite Hdel
    end.
    cbn [cfg].
    repeat match goal with
    | |- context [if ?b then _ else _] => destruct b eqn:?
    end; cbn in *; try reflexivity; try congruence;
    repeat match goal with
    | H : negb ?x = false |- _ => apply negb_false_iff in H
    end; congruence. }
  split; [exact Hr|]. intros w1. rewrite RunOnce_keeps_DeleteAfterSend. exact Hr.
Qed.

(** The heartbeat is the last thing a cycle does when a token is set. *)
Lemma RunOnce_heartbeat (r : Runner) (w : World) (r1 : Runner) (w1 : World)
    (stats : runStats) (runErr : option string) :
  let deadline := if (0 <? Timeout (cfg r))%Z then Add (clock w) (Timeout (cfg r)) else 0%Z in
  blank (DeadmanToken (cfg r)) = false ->
  runBody r deadline w zeroStats = (r1, w1, stats, runErr) ->
  exists hb,
    calls (RunOnce r w).1.2 = calls w1 ++ [hb]
    /\ appName hb = "alert-spooler"
    /\ structuredData hb = buildStructuredData "cndp" (deadmanLabels (cfg r1))
    /\ timeoutArgument hb = remainingTimeout (clock w1) deadline (3 * Second)%Z
    /\ (RunOnce r w).2 = runErr.
Proof.
  intros deadline Htoken Hbody.
  pose proof (runBody_runner r deadline w zeroStats) as Hr.
  unfold RunOnce. fold deadline. rewrite Hbody in *. cbn [fst snd] in *.
  assert (Htok1 : blank (DeadmanToken (cfg r1)) = false).
  { subst r1. destruct (ensureDBForNow_keeps r w) as (_ & -> & _). exact Htoken. }
  rewrite Htok1. unfold sendDeadman, SendRFC5424Timeout. cbn [fst snd calls].
  eexists. split; [reflexivity|]. repeat split; reflexivity.
Qed.

(** C7, amended: for a deadline that is set and not yet reached and a
    positive ceiling, the timeout of a send is the smaller of the ceiling and
    the time left to the deadline; and when a deadman token is configured,
    the heartbeat is the last send of the cycle whatever the cycle returned,
    with that same timeout rule, which is exactly one millisecond once the
    deadline has passed. *)
Theorem C7_timeout_is_min_and_late_heartbeat_gets_one_millisecond :
  (forall (now deadline : Time) (ceiling : Duration),
     IsZero deadline = false -> (0 < Until now deadline)%Z -> (0 < ceiling)%Z ->
     remainingTimeout now deadline ceiling = Z.min ceiling (Until now deadline))
  /\ (forall (r : Runner) (w : World) (r1 : Runner) (w1 : World)
             (stats : runStats) (runErr : option string),
        let deadline :=
          if (0 <? Timeout (cfg r))%Z then Add (clock w) (Timeout (cfg r)) else 0%Z in
        blank (DeadmanToken (cfg r)) = false ->
        runBody r deadline w zeroStats = (r1, w1, stats, runErr) ->
        exists hb,
          calls (RunOnce r w).1.2 = calls w1 ++ [hb]
          /\ structuredData hb = buildStructuredData "cndp" (deadmanLabels (cfg r1))
          /\ timeoutArgument hb = remainingTimeout (clock w1) deadline (3 * Second)%Z
          /\ (isDeadlineExceeded (clock w1) deadline = true ->
              timeoutArgument hb = (1 * Millisecond)%Z)
          /\ (RunOnce r w).2 = runErr).
Proof.
  split; [exact remainingTimeout_is_min|].
  intros r w r1 w1 stats runErr deadline Htoken Hbody.
  destruct (RunOnce_heartbeat r w r1 w1 stats runErr Htoken Hbody)
    as (hb & Hcalls & _ & Hsd & Hto & Herr).
  exists hb. split; [exact Hcalls|]. split; [exact Hsd|]. split; [exact Hto|].
  split; [|exact Herr].
  intros Hpast. rewrite Hto. apply remainingTimeout_past. exact Hpast.
Qed.

End RunnerBasics.

Lemma C10_delete_after_send_is_forced_witness :
  DeleteAfterSend sampleConfig = false
  /\ DeleteAfterSend (cfg (@started sampleRuntime sampleConfig (sampleWorld [])).1) = true.
Proof.
  split; [reflexivity|].
  refine (proj1 (@C10_delete_after_send_is_forced sampleRuntime sampleConfig
                   (sampleWorld []) (@started sampleRuntime sampleConfig (sampleWorld [])).2
                   (@started sampleRuntime sampleConfig (sampleWorld [])).1 _)).
  vm_compute. reflexivity.
Defined.

(** C7, refuted as stated: the heartbeat that follows a missed deadline is
    sent with a timeout of one millisecond, which is not below a
    millisecond. *)
Lemma C7_late_heartbeat_counterexample :
  lateCycle.2 = Some "timeout exceeded"
  /\ List.map timeoutArgument (calls lateCycle.1.2) = [Second; (1 * Millisecond)%Z]
  /\ ~ (1 * Millisecond < Millisecond)%Z.
Proof. vm_compute. split; [reflexivity|]. split; [reflexivity|]. discriminate. Qed.

Lemma C7_timeout_is_min_and_late_heartbeat_gets_one_millisecond_witness :
  remainingTimeout 10%Z 25%Z (3 * Second)%Z = 15%Z
  /\ exists hb, calls lateCycle.1.2 = calls lateBody.1.1.2 ++ [hb]
               /\ timeoutArgument hb = (1 * Millisecond)%Z.
Proof.
  destruct (@C7_timeout_is_min_and_late_heartbeat_gets_one_millisecond sampleRuntime)
    as [Hmin Hhb].
  split.
  - rewrite (Hmin 10%Z 25%Z (3 * Second)%Z); reflexivity.
  - destruct (Hhb lateStart.1 lateStart.2 lateBody.1.1.1 lateBody.1.1.2 lateBody.1.2
                  lateBody.2)
      as (hb & Hcalls & _ & _ & Hms & _); [reflexivity|vm_compute; reflexivity|].
    exists hb. split; [exact Hcalls|].
    apply Hms. vm_compute. reflexivity.
Defined.

(** ** Replay *)

Lemma grows_refl (w : World) : grows w w.
Proof. unfold grows. repeat split; auto. Qed.

Lemma grows_trans (w1 w2 w3 : World) : grows w1 w2 -> grows w2 w3 -> grows w1 w3.
Proof.
  intros (Hc & Hk & Hs & Hb & Hr & Hd & Ho & Hf & Hst)
         (Hc' & Hk' & Hs' & Hb' & Hr' & Hd' & Ho' & Hf' & Hst').
  unfold grows. repeat split; try congruence.
  - intros p. destruct (Hf p) as [H1|[H1 H1']], (Hf' p) as [H2|[H2 H2']]; try (left; congruence).
    + right. split; congruence.
    + right. split; congruence.
  - intros p. destruct (Hst p) as [H1|[H1 H1']], (Hst' p) as [H2|[H2 H2']]; try (left; congruence).
    + right. split; congruence.
    + right. split; congruence.
Qed.

Lemma os_MkdirAll_grows (dir : string) (w : World) : grows w (os_MkdirAll dir w).1.
Proof.
  unfold os_MkdirAll. destruct (fs w !! dir) as [[c t|]|] eqn:Hdir; try apply grows_refl.
  unfold grows. cbn. repeat split; auto.
  intros p. destruct (decide (p = dir)) as [->|Hne].
  - right. rewrite lookup_insert_eq. auto.
  - left. rewrite lookup_insert_ne by congruence. reflexivity.
Qed.

Lemma OpenDB_grows (path : string) (w : World) : grows w (OpenDB path w).1.
Proof.
  unfold OpenDB. destruct (decide (path ∈ unopenable w)); [apply grows_refl|].
  destruct (stores w !! path) eqn:Hp; [apply grows_refl|].
  unfold grows. cbn. repeat split; auto.
  intros p. destruct (decide (p = path)) as [->|Hne].
  - right. rewrite lookup_insert_eq. auto.
  - left. rewrite lookup_insert_ne by congruence. reflexivity.
Qed.

(** Three equations, and what is left. *)
Ltac split3 := split; [|split; [|split]]; [try reflexivity; try assumption ..|].

Section ReplayProps.

Context `{RT : Runtime}.

Lemma ensureDBForNow_grows (r : Runner) (w : World) : grows w (ensureDBForNow r w).1.2.
Proof.
  unfold ensureDBForNow.
  destruct (blank (DBFolder (cfg r))).
  - destruct (db r); [apply grows_refl|].
    pose proof (OpenDB_grows (DBPath (cfg r)) w) as H.
    destruct (OpenDB _ w) as [w1 [e|]]; exact H.
  - destruct (match db r with Some _ => _ | None => false end); [apply grows_refl|].
    match goal with |- context [os_MkdirAll ?d w] =>
      pose proof (os_MkdirAll_grows d w) as H1;
      destruct (os_MkdirAll d w) as [w1 [e|]]; [exact H1|] end.
    match goal with |- context [OpenDB ?p w1] =>
      pose proof (OpenDB_grows p w1) as H2;
      destruct (OpenDB p w1) as [w2 [e|]]; cbn [fst snd] in *;
      exact (grows_trans _ _ _ H1 H2) end.
Qed.

(** A send logs one call and touches neither files nor databases. *)
Lemma sendEvent_effect (labels : gmap string string) (ev : SpoolEvent)
    (deadline : Time) (w : World) :
  let w2 := (sendEvent labels ev deadline w).1 in
  fs w2 = fs w /\ stores w2 = stores w /\ unreadable w2 = unreadable w
  /\ undeletable w2 = undeletable w /\ unopenable w2 = unopenable w
  /\ calls w2 = calls w ++
       [mkCall "alert-spooler" (buildStructuredData "cndp" labels)
          (json_MarshalPayload (SourcePath ev) (EventIndex ev) (EventJSON ev) (FlatJSON ev))
          (remainingTimeout (clock w) deadline (3 * Second)%Z)
          (sendEvent labels ev deadline w).2].
Proof. cbn. repeat split; reflexivity. Qed.

(** The loop over the events of one database: what was sent answers, call
    by call, to a prefix of the events, and to all of them when the loop
    ends without error. *)
Lemma replayEvents_spec (r : Runner) (deadline : Time) (evs : list SpoolEvent) :
  forall (w : World) (stats : runStats),
    let res := replayEvents r deadline evs w stats in
    fs res.1.1 = fs w /\ stores res.1.1 = stores w
    /\ unopenable res.1.1 = unopenable w
    /\ exists done sent,
         calls res.1.1 = calls w ++ sent
         /\ Forall2 (isReplayOf (cfg r)) done sent
         /\ done `prefix_of` evs
         /\ (res.2 = None -> done = evs).
Proof.
  induction evs as [|ev rest IH]; intros w stats; cbn [replayEvents fst snd].
  - split3. exists [], []. rewrite app_nil_r.
    split; [reflexivity|]. split; [constructor|]. split; [reflexivity|reflexivity].
  - destruct (isDeadlineExceeded (clock w) deadline).
    { cbn [fst snd]. split3. exists [], []. rewrite app_nil_r.
      split; [reflexivity|]. split; [constructor|]. split; [apply prefix_nil|discriminate]. }
    match goal with |- context [sendEvent ?l ev deadline w] =>
      pose proof (sendEvent_effect l ev deadline w) as (Hfs & Hst & _ & _ & Hun & Hcalls);
      destruct (sendEvent l ev deadline w) as [w2 err] end.
    cbn [fst snd] in *.
    assert (Hstep : forall stats2,
      let res := replayEvents r deadline rest w2 stats2 in
      fs res.1.1 = fs w /\ stores res.1.1 = stores w /\ unopenable res.1.1 = unopenable w
      /\ exists done sent,
           calls res.1.1 = calls w ++ sent
           /\ Forall2 (isReplayOf (cfg r)) done sent
           /\ done `prefix_of` ev :: rest
           /\ (res.2 = None -> done = ev :: rest)).
    { intros stats2. destruct (IH w2 stats2) as (Hfs' & Hst' & Hun' & done & sent & Hc & Hall & Hpre & Hfull).
      cbn zeta. split; [congruence|]. split; [congruence|]. split; [congruence|].
      eexists (ev :: done), (_ :: sent). split; [|split; [|split]].
      - rewrite Hc, Hcalls, <- app_assoc. reflexivity.
      - constructor; [|exact Hall]. unfold isReplayOf. cbn. repeat split; reflexivity.
      - apply prefix_cons. exact Hpre.
      - intros Hnone. f_equal. apply Hfull. exact Hnone. }
    destruct err; apply Hstep.
Qed.

(** The loop over the databases. *)
Lemma replayDBs_spec (r : Runner) (from deadline : Time) (dbPaths : list string) :
  forall (w : World) (stats : runStats),
    let res := replayDBs r from deadline dbPaths w stats in
    let expected :=
      List.flat_map (fun p => toReplay from (default emptyDB (stores w !! p))) dbPaths in
    fs res.1.1 = fs w /\ stores res.1.1 = stores w
    /\ unopenable res.1.1 = unopenable w
    /\ exists done sent,
         calls res.1.1 = calls w ++ sent
         /\ Forall2 (isReplayOf (cfg r)) done sent
         /\ done `prefix_of` expected
         /\ (res.2 = None -> done = expected).
Proof.
  induction dbPaths as [|p rest IH]; intros w stats;
    cbn [replayDBs List.flat_map fst snd].
  - split3. exists [], []. rewrite app_nil_r.
    split; [reflexivity|]. split; [constructor|]. split; [reflexivity|reflexivity].
  - destruct (isDeadlineExceeded (clock w) deadline).
    { cbn. split3. exists [], []. rewrite app_nil_r.
      split; [reflexivity|]. split; [constructor|]. split; [apply prefix_nil|discriminate]. }
    destruct (decide (p ∈ unopenable w)).
    { cbn. split3. exists [], []. rewrite app_nil_r.
      split; [reflexivity|]. split; [constructor|]. split; [apply prefix_nil|discriminate]. }
    fold (toReplay from (default emptyDB (stores w !! p))).
    pose proof (replayEvents_spec r deadline
                  (toReplay from (default emptyDB (stores w !! p))) w stats)
      as (Hfs & Hst & Hun & done & sent & Hc & Hall & Hpre & Hfull).
    destruct (replayEvents r deadline _ w stats) as [[w2 stats2] [e|]]; cbn [fst snd] in *.
    + split3. exists done, sent.
      split; [exact Hc|]. split; [exact Hall|]. split; [|discriminate].
      apply prefix_app_r. exact Hpre.
    + specialize (Hfull eq_refl). subst done.
      destruct (IH w2 stats2) as (Hfs' & Hst' & Hun' & done' & sent' & Hc' & Hall' & Hpre' & Hfull').
      rewrite Hst in *.
      split; [congruence|]. split; [congruence|]. split; [congruence|].
      exists (toReplay from (default emptyDB (stores w !! p)) ++ done'), (sent ++ sent').
      split; [|split; [|split]].
      * rewrite Hc', Hc, <- app_assoc. reflexivity.
      * apply Forall2_app; assumption.
      * apply prefix_app. exact Hpre'.
      * intros Hnone. f_equal. apply Hfull'. exact Hnone.
Qed.


(** [replayFrom] as a whole. *)
Lemma replayFrom_spec (r : Runner) (from deadline : Time) (w : World) (stats : runStats) :
  let res := replayFrom r from deadline w stats in
  fs res.1.1 = fs w /\ stores res.1.1 = stores w
  /\ unopenable res.1.1 = unopenable w
  /\ exists done sent,
       calls res.1.1 = calls w ++ sent
       /\ Forall2 (isReplayOf (cfg r)) done sent
       /\ Forall (fun ev => (from <= ArchivedAt ev)%Z
                           /\ exists p d, stores w !! p = Some d /\ ev ∈ events d) done
       /\ (res.2 = None ->
           exists dbPaths,
             listMonthlyDBs (DBFolder (cfg r)) (DBPrefix (cfg r)) from (clock w) w = Ok dbPaths
             /\ done = List.flat_map
                         (fun p => toReplay from (default emptyDB (stores w !! p))) dbPaths).
Proof.
  unfold replayFrom.
  assert (Hnothing : forall e : string,
    fs w = fs w /\ stores w = stores w /\ unopenable w = unopenable w
    /\ exists done sent,
         calls w = calls w ++ sent
         /\ Forall2 (isReplayOf (cfg r)) done sent
         /\ Forall (fun ev => (from <= ArchivedAt ev)%Z
                             /\ exists p d, stores w !! p = Some d /\ ev ∈ events d) done
         /\ (Some e = None ->
             exists dbPaths,
               listMonthlyDBs (DBFolder (cfg r)) (DBPrefix (cfg r)) from (clock w) w = Ok dbPaths
               /\ done = List.flat_map
                           (fun p => toReplay from (default emptyDB (stores w !! p))) dbPaths)).
  { intros e. split3. exists [], []. rewrite app_nil_r.
    split; [reflexivity|]. split; [constructor|]. split; [constructor|discriminate]. }
  destruct (blank (DBFolder (cfg r))); [apply Hnothing|].
  destruct (blank (DBPrefix (cfg r))); [apply Hnothing|].
  destruct (listMonthlyDBs _ _ from (clock w) w) as [dbPaths|e] eqn:Hlist; [|apply Hnothing].
  destruct (replayDBs_spec r from deadline dbPaths w stats)
    as (Hfs & Hst & Hun & done & sent & Hc & Hall & Hpre & Hfull).
  cbn zeta. split3. exists done, sent.
  split; [exact Hc|]. split; [exact Hall|]. split.
  - destruct Hpre as [k Hk]. apply Forall_forall. intros ev Hev.
    assert (Hin : ev ∈ List.flat_map
                     (fun p => toReplay from (default emptyDB (stores w !! p))) dbPaths).
    { rewrite Hk. apply elem_of_app. left. exact Hev. }
    apply list_elem_of_In, List.in_flat_map in Hin as (p & _ & Hin).
    apply list_elem_of_In, elem_of_List_filter in Hin as [Hfrom Hin].
    split; [apply Z.leb_le; exact Hfrom|].
    destruct (stores w !! p) as [d|] eqn:Hp; cbn in Hin.
    + exists p, d. split; [exact Hp|exact Hin].
    + inversion Hin.
  - intros Hnone. exists dbPaths. split; [reflexivity|]. apply Hfull. exact Hnone.
Qed.


End ReplayProps.

Section ReplayCycle.

Context `{RT : Runtime}.


End ReplayCycle.


(** [TestRunner_ReplayFrom_AddsReplayLabel], replayed: one send in the first
    cycle, without the label; one more in the replay cycle, with it; and the
    ledgers are the same before and after the replay. *)
Example TestRunner_ReplayFrom_AddsReplayLabel :
  let after := (@RunOnce sampleRuntime replayStart.1 replayStart.2).1.2 in
  List.map (fun c => GoStr.Contains (structuredData c) "replay=") (calls replayStart.2)
    = [false]
  /\ List.map (fun c => GoStr.Contains (structuredData c)
                          ("replay=" +:+ dquote +:+ "true" +:+ dquote)) (calls after)
     = [false; true]
  /\ map_to_list (stores after) = map_to_list (stores replayStart.2)
  /\ map_to_list (fs after) = map_to_list (fs replayStart.2).
Proof. intros after. split; [|split; [|split]]; vm_compute; reflexivity. Qed.

(** ** Idempotent re-ingestion *)

Section Idempotence.

Context `{RT : Runtime}.

Lemma ledgerKept_refl (r : Runner) (w : World) : ledgerKept r w w.
Proof. unfold ledgerKept. auto. Qed.

Lemma ledgerKept_trans (r : Runner) (w1 w2 w3 : World) :
  ledgerKept r w1 w2 -> ledgerKept r w2 w3 -> ledgerKept r w1 w3.
Proof. unfold ledgerKept. intros (? & ? & ?) (? & ? & ?). repeat split; congruence. Qed.

Lemma curDB_putDB (r : Runner) (d : DB) (w : World) :
  curDB r (putDB r d w) = match db r with Some _ => d | None => emptyDB end.
Proof.
  unfold curDB, putDB. destruct (db r) as [p|]; [|reflexivity].
  cbn. rewrite lookup_insert_eq. reflexivity.
Qed.

(** A write to the file ledger that rewrites rows in place. *)
Lemma putDB_files_kept (r : Runner) (sel : ProcessedFile -> bool)
    (upd : ProcessedFile -> ProcessedFile) (w : World) :
  ledgerKept r w (putDB r (updateFilesWhere sel upd (curDB r w)) w).
Proof.
  unfold ledgerKept. rewrite curDB_putDB.
  split; [unfold putDB; destruct (db r); reflexivity|].
  destruct (db r) as [p|] eqn:Hdb.
  - cbn. rewrite length_map. auto.
  - unfold curDB. rewrite Hdb. auto.
Qed.

Lemma withFs_kept (r : Runner) (f : gmap string Node) (w : World) :
  ledgerKept r w (withFs f w).
Proof. unfold ledgerKept, curDB. cbn. auto. Qed.

Lemma os_Remove_kept (r : Runner) (path : string) (w : World) :
  ledgerKept r w (os_Remove path w).1.
Proof.
  unfold os_Remove. destruct (fs w !! path) as [n|]; [|apply ledgerKept_refl].
  destruct (decide (path ∈ undeletable w)); [apply ledgerKept_refl|].
  destruct n; [apply withFs_kept|].
  destruct (hasChildren path w); [apply ledgerKept_refl|apply withFs_kept].
Qed.

Lemma tryDeleteProcessedFile_kept (r : Runner) (path sha : string) (w : World) :
  ledgerKept r w (tryDeleteProcessedFile r path sha w).1.
Proof.
  unfold tryDeleteProcessedFile.
  pose proof (os_Remove_kept r path w) as H.
  destruct (os_Remove path w) as [w1 [e|]]; cbn [fst snd] in *;
    (eapply ledgerKept_trans; [exact H|apply putDB_files_kept]).
Qed.

Lemma finalizeOne_kept (r : Runner) (pf : ProcessedFile) (w : World) (stats : runStats) :
  ledgerKept r w (finalizeOne r pf w stats).1.
Proof.
  unfold finalizeOne.
  destruct (Nat.eqb _ 0); [apply ledgerKept_refl|].
  match goal with |- context [if ?c then putDB r ?d w else w] =>
    assert (H1 : ledgerKept r w (if c then putDB r d w else w))
      by (destruct c; [apply putDB_files_kept|apply ledgerKept_refl]);
    generalize dependent (if c then putDB r d w else w)
  end.
  intros w1 H1.
  destruct (DeleteAfterSend (cfg r) && _ && negb (Deleted pf)); [|exact H1].
  destruct (negb (exists_ (Path pf) w1)); cbn [fst].
  - eapply ledgerKept_trans; [exact H1|apply putDB_files_kept].
  - pose proof (tryDeleteProcessedFile_kept r (Path pf) (SHA256 pf) w1) as H2.
    destruct (tryDeleteProcessedFile r (Path pf) (SHA256 pf) w1) as [w2 [e|]];
      cbn [fst] in *; eapply ledgerKept_trans; eassumption.
Qed.









End Idempotence.


(** The second run of [TestRunner_SameHashIsOneToOne_AndTraverseSQLiteOnce],
    replayed on a file that stays on disk: the first cycle leaves one row in
    each ledger and one call, and so does the second. *)
Example TestRunner_second_run_is_idempotent :
  let r := stuckCycle.1.1 in
  let w := stuckCycle.1.2 in
  let w' := (@RunOnce sampleRuntime r w).1.2 in
  exists_ "/in/general/fail.warn" w = true
  /\ (List.length (files (curDB r w)), List.length (events (curDB r w)),
      List.length (calls w)) = (1, 1, 1)
  /\ (List.length (files (curDB r w')), List.length (events (curDB r w')),
      List.length (calls w')) = (1, 1, 1).
Proof. intros r w w'. split; [|split]; vm_compute; reflexivity. Qed.

(** ** Delivery: what a cycle does with the files it cannot or can send *)

Lemma assignIDs_lookup (evs : list SpoolEvent) :
  forall (next k : nat), assignIDs next evs !! k = setEvID (next + k) <$> evs !! k.
Proof.
  induction evs as [|e rest IH]; intros next k; [reflexivity|].
  destruct k as [|k].
  - cbn. rewrite Nat.add_0_r. reflexivity.
  - change (assignIDs (S next) rest !! k = setEvID (next + S k) <$> rest !! k).
    rewrite IH. replace (S next + k) with (next + S k) by lia. reflexivity.
Qed.

Lemma assignIDs_Forall (P : SpoolEvent -> Prop) (evs : list SpoolEvent) :
  (forall n e, P e -> P (setEvID n e)) ->
  forall next, Forall P evs -> Forall P (assignIDs next evs).
Proof.
  intros Hid. induction evs as [|e rest IH]; intros next Hall; cbn; [constructor|].
  apply Forall_cons in Hall as [He Hrest]. constructor; [apply Hid, He|apply IH, Hrest].
Qed.

Lemma assignIDs_nil (evs : list SpoolEvent) (next : nat) :
  assignIDs next evs = [] -> evs = [].
Proof. destruct evs; [reflexivity|discriminate]. Qed.

Lemma sameSender_refl (w : World) : sameSender w w.
Proof. unfold sameSender. auto. Qed.

Lemma sameSender_trans (w1 w2 w3 : World) :
  sameSender w1 w2 -> sameSender w2 w3 -> sameSender w1 w3.
Proof.
  unfold sameSender. intros (? & ? & ?) (? & ? & ?).
  split; [auto|]. split; [auto|congruence].
Qed.

Section Sender.

Context `{RT : Runtime}.

(** One send: a sender that is down answers with an error text, one that is
    up with none, and it is afterwards as able as before. *)
Lemma SendRFC5424Timeout_sender (app sd msg : string) (t : Duration) (w : World) :
  sameSender w (SendRFC5424Timeout app sd msg t w).1
  /\ (senderDown w = true ->
      exists e, (SendRFC5424Timeout app sd msg t w).2 = Some e /\ e <> EmptyString)
  /\ (senderUp w = true -> (SendRFC5424Timeout app sd msg t w).2 = None).
Proof.
  unfold sameSender, senderDown, senderUp, SendRFC5424Timeout.
  cbn [fst snd script fallback undeletable].
  assert (Hfail : forall o, failsWithText o = true ->
                            exists e, sendErr o = Some e /\ e <> EmptyString).
  { intros o. unfold failsWithText. destruct (sendErr o) as [e|]; [|discriminate].
    intros He%negb_true_iff%String.eqb_neq. eauto. }
  assert (Hok : forall o, succeeds o = true -> sendErr o = None).
  { intros o. unfold succeeds. destruct (sendErr o); [discriminate|reflexivity]. }
  destruct (script w) as [|o rest]; cbn [List.tl List.forallb List.hd].
  - split; [auto|]. split.
    + intros [_ H]%andb_true_iff. apply Hfail, H.
    + intros [_ H]%andb_true_iff. apply Hok, H.
  - split; [|split].
    + split; [|split; [|reflexivity]].
      * intros [[_ H1]%andb_true_iff H2]%andb_true_iff. rewrite H1, H2. reflexivity.
      * intros [[_ H1]%andb_true_iff H2]%andb_true_iff. rewrite H1, H2. reflexivity.
    + intros [[H _]%andb_true_iff _]%andb_true_iff. apply Hfail, H.
    + intros [[H _]%andb_true_iff _]%andb_true_iff. apply Hok, H.
Qed.

Lemma sendEvent_sender (labels : gmap string string) (ev : SpoolEvent)
    (deadline : Time) (w : World) :
  sameSender w (sendEvent labels ev deadline w).1
  /\ (senderDown w = true ->
      exists e, (sendEvent labels ev deadline w).2 = Some e /\ e <> EmptyString)
  /\ (senderUp w = true -> (sendEvent labels ev deadline w).2 = None).
Proof. apply SendRFC5424Timeout_sender. Qed.

(** The first loop of [archiveAndMarkFile]: the disk and the ledger are left
    alone, every event keeps its path and digest, and the flag returned
    says whether every event was sent. *)
Lemma archiveSends_spec (c : RunnerConfig) (path : string) (deadline : Time)
    (evs : list SpoolEvent) :
  forall (w : World) (stats : runStats),
    let res := archiveSends c path deadline evs w stats in
    sameSender w res.1.2
    /\ fs res.1.2 = fs w /\ stores res.1.2 = stores w
    /\ Forall2 (fun ev ev' => SourcePath ev' = SourcePath ev
                              /\ FileDigestSHA256 ev' = FileDigestSHA256 ev) evs res.1.1.1
    /\ (res.1.1.2 = true -> Forall (fun ev' => SentSyslog ev' = true) res.1.1.1)
    /\ (senderDown w = true ->
        Forall (fun ev' => SentSyslog ev' = false /\ SendError ev' <> EmptyString)
               res.1.1.1).
Proof.
  induction evs as [|ev rest IH]; intros w stats; cbn [archiveSends fst snd].
  - split; [apply sameSender_refl|]. split; [reflexivity|]. split; [reflexivity|].
    split; [constructor|]. split; intros _; constructor.
  - match goal with |- context [sendEvent ?l ev deadline w] =>
      destruct (sendEvent_sender l ev deadline w) as (Hsame & Hdn & Hup);
      pose proof (sendEvent_effect l ev deadline w) as (Hfs & Hst & _);
      destruct (sendEvent l ev deadline w) as [w2 err] end.
    cbn [fst snd] in *.
    assert (Hstep : forall stats2,
      let res := archiveSends c path deadline rest w2 stats2 in
      sameSender w res.1.2 /\ fs res.1.2 = fs w /\ stores res.1.2 = stores w
      /\ Forall2 (fun ev ev' => SourcePath ev' = SourcePath ev
                    /\ FileDigestSHA256 ev' = FileDigestSHA256 ev) rest res.1.1.1
      /\ (res.1.1.2 = true -> Forall (fun ev' => SentSyslog ev' = true) res.1.1.1)
      /\ (senderDown w = true ->
          Forall (fun ev' => SentSyslog ev' = false /\ SendError ev' <> EmptyString)
                 res.1.1.1)).
    { intros stats2. destruct (IH w2 stats2) as (Hs & Hf & Hs' & Hall & Hsent & Hdown).
      cbn zeta. split; [eapply sameSender_trans; eassumption|].
      split; [congruence|]. split; [congruence|]. split; [exact Hall|].
      split; [exact Hsent|]. intros Hd. apply Hdown. apply Hsame, Hd. }
    destruct err as [e|].
    + specialize (Hstep (incEventsSentErr
        (noteLag (clock w) (jsonAnyFromString (EventJSON ev)) (incEventsNew stats)))).
      cbn zeta in Hstep.
      destruct (archiveSends c path deadline rest w2 _) as [[[rest' allSent] w3] stats3].
      cbn [fst snd] in *. destruct Hstep as (Hs & Hf & Hs' & Hall & Hsent & Hdown).
      split; [exact Hs|]. split; [exact Hf|]. split; [exact Hs'|].
      split; [constructor; [cbn; auto|exact Hall]|].
      split; [discriminate|].
      intros Hd. constructor; [|apply Hdown, Hd].
      destruct (Hdn Hd) as (e' & [= <-] & Hne). cbn. auto.
    + specialize (Hstep (incEventsSentOK
        (noteLag (clock w) (jsonAnyFromString (EventJSON ev)) (incEventsNew stats)))).
      cbn zeta in Hstep.
      destruct (archiveSends c path deadline rest w2 _) as [[[rest' allSent] w3] stats3].
      cbn [fst snd] in *. destruct Hstep as (Hs & Hf & Hs' & Hall & Hsent & Hdown).
      split; [exact Hs|]. split; [exact Hf|]. split; [exact Hs'|].
      split; [constructor; [cbn; auto|exact Hall]|].
      split.
      * cbn [andb]. intros Ha. constructor; [reflexivity|apply Hsent, Ha].
      * intros Hd. destruct (Hdn Hd) as (e' & [=] & _).
Qed.

End Sender.

Section Ingestion.

Context `{RT : Runtime}.

Lemma sameSender_eq (w w' : World) :
  script w' = script w -> fallback w' = fallback w -> undeletable w' = undeletable w ->
  sameSender w w'.
Proof.
  unfold sameSender, senderDown, senderUp. intros -> -> ->. auto.
Qed.

Lemma curDB_stores (r : Runner) (w w' : World) :
  stores w' = stores w -> curDB r w' = curDB r w.
Proof. unfold curDB. intros ->. reflexivity. Qed.

Lemma putDB_frame (r : Runner) (d : DB) (w : World) :
  fs (putDB r d w) = fs w /\ script (putDB r d w) = script w
  /\ fallback (putDB r d w) = fallback w /\ undeletable (putDB r d w) = undeletable w
  /\ unreadable (putDB r d w) = unreadable w /\ clock (putDB r d w) = clock w.
Proof. unfold putDB. destruct (db r); cbn; auto 10. Qed.

Lemma putDB_sameSender (r : Runner) (d : DB) (w : World) : sameSender w (putDB r d w).
Proof. destruct (putDB_frame r d w) as (_ & ? & ? & ? & _). apply sameSender_eq; assumption. Qed.

Lemma update_fresh_key (path sha : string) (upd : ProcessedFile -> ProcessedFile)
    (rows : list ProcessedFile) :
  List.existsb (pfKeyIs path sha) rows = false ->
  List.map (fun f => if pfKeyIs path sha f then upd f else f) rows = rows.
Proof.
  induction rows as [|f rest IH]; [reflexivity|].
  cbn. intros [Hf Hrest]%orb_false_iff. rewrite Hf, IH by exact Hrest. reflexivity.
Qed.

(** [os.Remove] of a path: the path only, and only when it may go. *)
Lemma os_Remove_spec (path : string) (w : World) :
  let res := os_Remove path w in
  stores res.1 = stores w /\ script res.1 = script w /\ fallback res.1 = fallback w
  /\ undeletable res.1 = undeletable w
  /\ match res.2 with
     | Some _ => fs res.1 = fs w
     | None => fs res.1 = delete path (fs w)
     end
  /\ (forall c t, fs w !! path = Some (File c t) -> path ∉ undeletable w -> res.2 = None).
Proof.
  unfold os_Remove. destruct (fs w !! path) as [n|] eqn:Hn; cbn [fst snd].
  - destruct (decide (path ∈ undeletable w)) as [Hin|Hout]; cbn [fst snd].
    + repeat (split; [reflexivity|]). intros c t _ Hno. destruct (Hno Hin).
    + destruct n as [c t|].
      * cbn. repeat (split; [reflexivity|]). reflexivity.
      * destruct (hasChildren path w); cbn; repeat (split; [reflexivity|]); discriminate.
  - repeat (split; [reflexivity|]). discriminate.
Qed.

(** [archiveAndMarkFile] on a file that is not to be moved away. *)
Lemma archiveAndMarkFile_appended (r : Runner) (path sha : string) (size : Z)
    (modTime : Time) (evs : list SpoolEvent) (deadline : Time) (errorDir : string)
    (move : bool) (w : World) (stats : runStats) (dbPath content : string) (t : Time) :
  db r = Some dbPath ->
  move && negb (blank errorDir) = false ->
  fs w !! path = Some (File content t) ->
  Forall (fun ev => SourcePath ev = path /\ FileDigestSHA256 ev = sha) evs ->
  let w' := (archiveAndMarkFile r path sha size modTime evs deadline errorDir move
                                w stats).1.1 in
  appended r path w w' /\ sameSender w w'.
Proof.
  intros Hdb Hmove Hfile Hevs. unfold archiveAndMarkFile.
  pose proof (archiveSends_spec (cfg r) path deadline evs w stats)
    as (Hsame & Hfs & Hst & Hall & Hsent & Hdown).
  destruct (archiveSends (cfg r) path deadline evs w stats)
    as [[[evs' allSent] w2] stats2].
  cbn [fst snd] in *.
  rewrite (curDB_stores r w w2 Hst). rewrite Hmove.
  destruct (archiveTx evs' _ (curDB r w)) as [d|e] eqn:Htx; cbn [fst snd].
  2:{ split; [|exact Hsame]. left. split; [apply curDB_stores, Hst|exact Hfs]. }
  unfold archiveTx in Htx. destruct evs' as [|ev' evs'']; [discriminate|].
  set (rows := ev' :: evs'') in *.
  destruct (List.existsb _ (files (curDB r w))) eqn:Hfresh; [discriminate|].
  cbn [Path SHA256] in Hfresh.
  match type of Htx with Ok (mkDB (_ ++ [?f]) _) = _ => set (pf := f) in * end.
  set (d' := mkDB (files (curDB r w) ++ [pf])
                  (events (curDB r w) ++ assignIDs (S (List.length (events (curDB r w)))) rows)).
  assert (Hd : d = d') by (injection Htx as <-; reflexivity).
  rewrite Hd. clear Hd Htx d. rename d' into d.
  assert (Hrows : Forall (fun row => evOfFile path sha row = true)
                         (assignIDs (S (List.length (events (curDB r w)))) rows)).
  { apply assignIDs_Forall; [intros n e He; exact He|].
    clear -Hall Hevs. revert Hall. generalize rows. intros sent Hall.
    induction Hall as [|ev ev2 l l2 (Hp & Hd) _ IH]; [constructor|].
    apply Forall_cons in Hevs as [(Hp0 & Hd0) Hrest].
    constructor; [|apply IH, Hrest].
    unfold evOfFile. rewrite Hp, Hd, Hp0, Hd0, !String.eqb_refl. reflexivity. }
  assert (Hunsent : senderDown w = true ->
                    Forall (fun row => SentSyslog row = false /\ SendError row <> EmptyString)
                           (assignIDs (S (List.length (events (curDB r w)))) rows)).
  { intros Hd. apply assignIDs_Forall; [intros n e He; exact He|]. apply Hdown, Hd. }
  assert (Hne : assignIDs (S (List.length (events (curDB r w)))) rows <> [])
    by (intros H%assignIDs_nil; discriminate).
  assert (Hmap : forall upd,
            files (updateFilesWhere (pfKeyIs path sha) upd d)
            = files (curDB r w) ++ [upd pf]).
  { intros upd. cbn [updateFilesWhere files d]. rewrite map_app, update_fresh_key by exact Hfresh.
    cbn. unfold pfKeyIs at 1. cbn. rewrite !String.eqb_refl. reflexivity. }
  destruct (putDB_frame r d w2) as (Hpfs & Hpsc & Hpfb & Hpun & _).
  assert (Hin : exists content t, fs w !! path = Some (File content t)) by eauto.
  destruct (DeleteAfterSend (cfg r) && allSent) eqn:Hdel.
  - apply andb_true_iff in Hdel as [_ ->].
    unfold tryDeleteProcessedFile.
    pose proof (os_Remove_spec path (putDB r d w2)) as (Rst & Rsc & Rfb & Run & Rfs & _).
    assert (Hcur : curDB r (os_Remove path (putDB r d w2)).1 = d).
    { rewrite (curDB_stores r (putDB r d w2)) by exact Rst.
      rewrite curDB_putDB, Hdb. reflexivity. }
    destruct (os_Remove path (putDB r d w2)) as [w3 [e|]]; cbn [fst snd] in *.
    + rewrite Hcur.
      match goal with |- context [putDB r ?d3 w3] =>
        destruct (putDB_frame r d3 w3) as (Qfs & Qsc & Qfb & Qun & _) end.
      split.
      * right. eexists _, _. rewrite curDB_putDB, Hdb, Hmap.
        split; [exact Hne|]. split; [reflexivity|]. split; [reflexivity|].
        split; [reflexivity|]. split; [exact Hrows|]. split; [exact Hin|].
        split; [exact Hunsent|]. left. congruence.
      * eapply sameSender_trans; [exact Hsame|]. apply sameSender_eq; congruence.
    + rewrite Hcur.
      match goal with |- context [putDB r ?d3 w3] =>
        destruct (putDB_frame r d3 w3) as (Qfs & Qsc & Qfb & Qun & _) end.
      split.
      * right. eexists _, _. rewrite curDB_putDB, Hdb, Hmap.
        split; [exact Hne|]. split; [reflexivity|]. split; [reflexivity|].
        split; [reflexivity|]. split; [exact Hrows|]. split; [exact Hin|].
        split; [exact Hunsent|]. right. split; [|congruence].
        apply assignIDs_Forall; [intros n e He; exact He|]. apply Hsent. reflexivity.
      * eapply sameSender_trans; [exact Hsame|]. apply sameSender_eq; congruence.
  - cbn [fst snd]. split.
    + right. exists (assignIDs (S (List.length (events (curDB r w)))) rows), pf.
      rewrite curDB_putDB, Hdb.
      split; [exact Hne|]. split; [reflexivity|]. split; [reflexivity|].
      split; [reflexivity|]. split; [exact Hrows|]. split; [exact Hin|].
      split; [exact Hunsent|]. left. congruence.
    + eapply sameSender_trans; [exact Hsame|]. apply putDB_sameSender.
Qed.

End Ingestion.

Section IngestAll.

Context `{RT : Runtime}.

Lemma toEvents_source (c : RunnerConfig) (decoded : json)
    (raw path sourceType alertType sha : string) (now : Time) (evs : list SpoolEvent) :
  toEvents c decoded raw path sourceType alertType sha now = Ok evs ->
  Forall (fun ev => SourcePath ev = path /\ FileDigestSHA256 ev = sha) evs.
Proof.
  assert (Hone : forall item idx ev,
            buildEvent c item raw path sourceType alertType sha idx now = Ok ev ->
            SourcePath ev = path /\ FileDigestSHA256 ev = sha).
  { intros item idx ev. unfold buildEvent.
    destruct (json_Marshal item); [|discriminate].
    destruct (json_Marshal (JObject _)); [|discriminate].
    intros [= <-]. split; reflexivity. }
  assert (Hrange : forall items i,
            Forall (fun ev => SourcePath ev = path /\ FileDigestSHA256 ev = sha)
                   (toEvents_range c i items raw path sourceType alertType sha now)).
  { induction items as [|item rest IH]; intros i; cbn [toEvents_range]; constructor.
    - destruct (buildEvent c item raw path sourceType alertType sha i now) as [ev|e] eqn:Hb.
      + eapply Hone, Hb.
      + split; reflexivity.
    - apply IH. }
  unfold toEvents.
  destruct decoded;
    try (destruct (buildEvent _ _ _ _ _ _ _ _ _) as [ev|e] eqn:Hb; [|discriminate];
         intros [= <-]; constructor; [eapply Hone, Hb|constructor]).
  intros [= <-]. apply Hrange.
Qed.

(** [ingestFile] of an input that has no error directory. *)
Lemma ingestFile_appended (r : Runner) (path forced errorDir : string) (deadline : Time)
    (w : World) (stats : runStats) (dbPath : string) :
  db r = Some dbPath ->
  blank errorDir = true ->
  let w' := (ingestFile r path forced errorDir deadline w stats).1.1 in
  appended r path w w' /\ sameSender w w'.
Proof.
  intros Hdb Hblank.
  assert (Hskip : appended r path w w /\ sameSender w w)
    by (split; [left; split; reflexivity|apply sameSender_refl]).
  unfold ingestFile.
  destruct (fs w !! path) as [[content t|]|] eqn:Hfile; [|exact Hskip|exact Hskip].
  destruct (Z.of_nat (String.length content) <=? 0)%Z; [exact Hskip|].
  destruct (decide (path ∈ unreadable w)); [rewrite Hblank; exact Hskip|].
  destruct (isAlreadyProcessed r w path _); [exact Hskip|].
  destruct (json_Unmarshal content) as [decoded|e].
  - destruct (toEvents _ _ _ _ _ _ _ _) as [evs|e] eqn:Hev.
    + eapply archiveAndMarkFile_appended; [exact Hdb|reflexivity|exact Hfile|].
      eapply toEvents_source, Hev.
    + eapply archiveAndMarkFile_appended; [exact Hdb| |exact Hfile|].
      * rewrite Hblank. reflexivity.
      * constructor; [split; reflexivity|constructor].
  - eapply archiveAndMarkFile_appended; [exact Hdb| |exact Hfile|].
    + rewrite Hblank. reflexivity.
    + constructor; [split; reflexivity|constructor].
Qed.


Lemma addUnseen_Forall {A} (P : A -> Prop) (mk : string -> A) (ms : list string) :
  (forall m, P (mk m)) ->
  forall seen, Forall P (addUnseen mk ms seen).1.
Proof.
  intros Hmk. induction ms as [|m rest IH]; intros seen; cbn [addUnseen]; [constructor|].
  destruct (decide (m ∈ seen)); [apply IH|].
  specialize (IH ({[m]} ∪ seen)).
  destruct (addUnseen mk rest ({[m]} ∪ seen)) as [out seen']. cbn [fst] in *.
  constructor; [apply Hmk|exact IH].
Qed.

Lemma expandInputs_blank (inputs : list InputSpec) (w : World) :
  List.forallb (fun i => blank (inErrorDir i)) inputs = true ->
  forall seen items,
    expandInputs_from inputs seen w = Ok items ->
    Forall (fun it => blank (itErrorDir it) = true) items.
Proof.
  induction inputs as [|i rest IH]; intros Hall seen items; cbn [expandInputs_from].
  - intros [= <-]. constructor.
  - cbn [List.forallb] in Hall. apply andb_true_iff in Hall as [Hi Hrest].
    destruct (blank (Glob i)); [apply IH, Hrest|].
    destruct (expandGlobWithDoubleStar (Glob i) (fs w)) as [ms|e]; [|discriminate].
    pose proof (addUnseen_Forall (fun it => blank (itErrorDir it) = true)
                  (fun m => mkInputItem m (inAlertType i) (inErrorDir i)) ms
                  (fun _ => Hi) seen) as Hout.
    destruct (addUnseen _ ms seen) as [out seen'].
    destruct (expandInputs_from rest seen' w) as [more|e] eqn:Hmore; [|discriminate].
    intros [= <-]. apply Forall_app. split; [exact Hout|]. eapply IH; eassumption.
Qed.

Lemma legacy_blank (paths : list string) :
  Forall (fun it => blank (itErrorDir it) = true)
         (List.map (fun p => mkInputItem p EmptyString EmptyString) paths).
Proof. induction paths; cbn; constructor; [reflexivity|assumption]. Qed.

End IngestAll.



Section HeldBack.

Context `{RT : Runtime}.






End HeldBack.

Section CycleDown.

Context `{RT : Runtime}.

Lemma ensureDBForNow_opens (r : Runner) (w : World) :
  (ensureDBForNow r w).2 = None -> exists dbPath, db (ensureDBForNow r w).1.1 = Some dbPath.
Proof.
  unfold ensureDBForNow.
  destruct (blank (DBFolder (cfg r))).
  - destruct (db r) as [p|] eqn:Hdb; [cbn; rewrite Hdb; eauto|].
    destruct (OpenDB _ w) as [w' [e|]]; [discriminate|]. cbn. eauto.
  - destruct (match db r with Some _ => _ | None => false end) eqn:Hsame.
    + intros _. destruct (db r) as [p|] eqn:Hdb; [|discriminate]. cbn. rewrite Hdb. eauto.
    + destruct (os_MkdirAll _ w) as [w1 [e|]]; [discriminate|].
      destruct (OpenDB _ w1) as [w2 [e|]]; [discriminate|]. cbn. eauto.
Qed.

Lemma ensureDBForNow_inputs (r : Runner) (w : World) :
  Inputs (cfg (ensureDBForNow r w).1.1) = Inputs (cfg r).
Proof. destruct (ensureDBForNow_cfg r w) as [-> | ->]; reflexivity. Qed.




End CycleDown.

(** ** Delivery that succeeds: the rows are marked, the file is removed *)





Section CarriedOver.

Context `{RT : Runtime}.




End CarriedOver.

Section CycleUp.

Context `{RT : Runtime}.






End CycleUp.

Lemma undelivered_source (x x' : SpoolEvent) :
  undelivered x' = undelivered x ->
  SourcePath x' = SourcePath x /\ FileDigestSHA256 x' = FileDigestSHA256 x.
Proof.
  intros H. split.
  - apply (f_equal SourcePath) in H. destruct x, x'. exact H.
  - apply (f_equal FileDigestSHA256) in H. destruct x, x'. exact H.
Qed.

Section CycleDelivers.

Context `{RT : Runtime}.


End CycleDelivers.

Section Delivery.

Context `{RT : Runtime}.

(** [RunOnce] is its body and then, at most, one send. *)
Lemma RunOnce_body (r : Runner) (w : World) :
  let deadline := if (0 <? Timeout (cfg r))%Z then Add (clock w) (Timeout (cfg r)) else 0%Z in
  let body := runBody r deadline w zeroStats in
  (RunOnce r w).2 = body.2
  /\ fs (RunOnce r w).1.2 = fs body.1.1.2
  /\ stores (RunOnce r w).1.2 = stores body.1.1.2.
Proof.
  unfold RunOnce.
  destruct (runBody r _ w zeroStats) as [[[r1 w1] s1] e1]. cbn [fst snd].
  destruct (blank (DeadmanToken (cfg r1))); cbn; auto.
Qed.


End Delivery.



(** [TestRunner_SendFailureDoesNotDelete_ThenResendDeletes]: after the first
    run the file remains, two calls were made, and the one event row is
    unsent with an error text, its file row neither all sent nor deleted;
    after the second run the file is gone, three calls were made, and the
    rows are marked sent, with no error text, all sent and deleted. *)
Example TestRunner_SendFailureDoesNotDelete_ThenResendDeletes :
  let r := failedCycle.1.1 in
  let w := failedCycle.1.2 in
  let w' := retryCycle.1.2 in
  (failedCycle.2, exists_ "/in/general/fail.warn" w, List.length (calls w)) = (None, true, 2)
  /\ List.map (fun e => (SentSyslog e, SendError e)) (events (@curDB r w))
     = [(false, "mock syslog send failure")]
  /\ List.map (fun f => (AllSent f, Deleted f)) (files (@curDB r w)) = [(false, false)]
  /\ (retryCycle.2, exists_ "/in/general/fail.warn" w', List.length (calls w'))
     = (None, false, 3)
  /\ List.map (fun e => (SentSyslog e, SendError e)) (events (@curDB r w'))
     = [(true, EmptyString)]
  /\ List.map (fun f => (AllSent f, Deleted f)) (files (@curDB r w')) = [(true, true)].
Proof. intros r w w'. split; [|split; [|split; [|split; [|split]]]]; vm_compute; reflexivity. Qed.

(* ===================================================================== *)
(** * Part III: further properties of the code                             *)
(* ===================================================================== *)

(** ** The escaping of structured-data values *)

Lemma mapBytes_app (f : ascii -> string) (s t : string) :
  mapBytes f (s +:+ t) = mapBytes f s +:+ mapBytes f t.
Proof.
  induction s as [|c s IH]; [reflexivity|].
  change (f c +:+ mapBytes f (s +:+ t) = (f c +:+ mapBytes f s) +:+ mapBytes f t).
  rewrite IH, append_assoc. reflexivity.
Qed.

Lemma mapBytes_mapBytes (f g : ascii -> string) (s : string) :
  mapBytes g (mapBytes f s) = mapBytes (fun c => mapBytes g (f c)) s.
Proof.
  induction s as [|c s IH]; [reflexivity|].
  change (mapBytes g (f c +:+ mapBytes f s)
          = mapBytes g (f c) +:+ mapBytes (fun c => mapBytes g (f c)) s).
  rewrite mapBytes_app, IH. reflexivity.
Qed.

Lemma mapBytes_ext (f g : ascii -> string) (s : string) :
  (forall c, f c = g c) -> mapBytes f s = mapBytes g s.
Proof. intros H. induction s as [|c s IH]; cbn; [reflexivity|]. rewrite H, IH. reflexivity. Qed.

(** [strings.ReplaceAll] with a one-byte [old] works byte by byte. *)
Lemma ReplaceAll_one_byte (a : ascii) (new s : string) :
  GoStr.ReplaceAll s (String a EmptyString) new
  = mapBytes (fun c => if Ascii.eqb a c then new else String c EmptyString) s.
Proof.
  unfold GoStr.ReplaceAll. induction s as [|c s IH]; [reflexivity|].
  cbn [GoStr.replaceAll_go mapBytes]. unfold GoStr.HasPrefix. cbn [String.prefix String.length].
  destruct (ascii_dec a c) as [->|Hne].
  - rewrite Ascii.eqb_refl. destruct s; cbn [Nat.sub]; rewrite IH; reflexivity.
  - apply Ascii.eqb_neq in Hne. rewrite Hne.
    change (String c (GoStr.replaceAll_go (String a EmptyString) new 0 s)
            = String c (mapBytes (fun c0 => if Ascii.eqb a c0 then new else String c0 EmptyString) s)).
    rewrite IH. reflexivity.
Qed.

(** The five passes of [escapeSDParam] amount to one pass, byte by byte. *)
Lemma escapeSDParam_bytes (v : string) : escapeSDParam v = mapBytes escapeByte v.
Proof.
  unfold escapeSDParam, backslash, dquote, newline, carriageReturn.
  rewrite !ReplaceAll_one_byte, !mapBytes_mapBytes.
  apply mapBytes_ext. intros c.
  destruct c as [[] [] [] [] [] [] [] []]; vm_compute; reflexivity.
Qed.

(** An escaped value can stand between the quotes of a parameter: it has no
    line break, and every quote, backslash and closing bracket in it follows
    a backslash that escapes it. *)
Theorem escapeSDParam_is_safe (v : string) : sdValueOK (escapeSDParam v) = true.
Proof.
  rewrite escapeSDParam_bytes. induction v as [|c v IH]; [reflexivity|].
  cbn [mapBytes].
  destruct c as [[] [] [] [] [] [] [] []]; cbn; exact IH.
Qed.

Lemma append_cons (a : ascii) (s t : string) : String a s +:+ t = String a (s +:+ t).
Proof. reflexivity. Qed.

Lemma append_nil (t : string) : EmptyString +:+ t = t.
Proof. reflexivity. Qed.

Lemma unescapeSD_plain (c : ascii) (rest : string) :
  Ascii.eqb c (ascii_of_nat 92) = false ->
  unescapeSD (String c rest) = String c (unescapeSD rest).
Proof. intros H. cbn [unescapeSD]. rewrite H. reflexivity. Qed.

Lemma unescapeSD_escaped (d : ascii) (rest : string) :
  isSDSpecial d = true ->
  unescapeSD (String (ascii_of_nat 92) (String d rest)) = String d (unescapeSD rest).
Proof. intros H. cbn [unescapeSD]. rewrite Ascii.eqb_refl, H. reflexivity. Qed.

(** Reading an escaped value back gives the value, with its line breaks
    turned into spaces; so two values without line breaks that escape to the
    same text are the same value. *)
Theorem escapeSDParam_reads_back (v : string) :
  unescapeSD (escapeSDParam v) = unbroken v.
Proof.
  rewrite escapeSDParam_bytes. unfold unbroken. induction v as [|c v IH]; [reflexivity|].
  cbn [mapBytes]. unfold escapeByte at 1.
  destruct (isSDSpecial c) eqn:Hs.
  - rewrite !append_cons, append_nil, unescapeSD_escaped, IH by exact Hs.
    replace (Ascii.eqb c (ascii_of_nat 10) || Ascii.eqb c (ascii_of_nat 13)) with false;
      [reflexivity|].
    clear -Hs. destruct c as [[] [] [] [] [] [] [] []]; try discriminate; reflexivity.
  - destruct (Ascii.eqb c (ascii_of_nat 10) || Ascii.eqb c (ascii_of_nat 13)) eqn:Hnl.
    + rewrite !append_cons, !append_nil, unescapeSD_plain, IH by reflexivity. reflexivity.
    + rewrite !append_cons, !append_nil, unescapeSD_plain, IH; [reflexivity|].
      unfold isSDSpecial in Hs. apply orb_false_iff in Hs as [Hs _].
      apply orb_false_iff in Hs as [Hs _]. exact Hs.
Qed.

(** ** The fingerprint: its length and alphabet *)

Module Sha256Facts.

Import Sha256.
Local Open Scope Z_scope.

Lemma compress_length (h block : list Z) :
  List.length h = 8%nat -> List.length (compress h block) = 8%nat.
Proof.
  intros Hh. unfold compress. rewrite length_map, length_combine, Hh. reflexivity.
Qed.

Lemma fold_compress_length (blocks : list (list Z)) :
  forall h, List.length h = 8%nat ->
            List.length (List.fold_left compress blocks h) = 8%nat.
Proof.
  induction blocks as [|b rest IH]; intros h Hh; cbn [List.fold_left]; [exact Hh|].
  apply IH, compress_length, Hh.
Qed.

Lemma concat_bigEndian (h : list Z) :
  List.length (List.concat (List.map (bigEndian 4) h)) = (4 * List.length h)%nat
  /\ Forall (fun b => 0 <= b < 256) (List.concat (List.map (bigEndian 4) h)).
Proof.
  induction h as [|x h [IHl IHb]]; [split; [reflexivity|constructor]|].
  cbn [List.map List.concat]. split.
  - rewrite length_app, IHl. cbn. lia.
  - apply Forall_app. split; [|exact IHb].
    unfold bigEndian. cbn [seq List.rev List.app List.map].
    repeat constructor; apply Z.mod_pos_bound; lia.
Qed.

Lemma Sum256_bytes (s : string) :
  List.length (Sum256 s) = 32%nat /\ Forall (fun b => 0 <= b < 256) (Sum256 s).
Proof.
  unfold Sum256.
  destruct (concat_bigEndian
              (List.fold_left compress (blocksOf (List.length (pad (bytesOf s)))
                                                 (pad (bytesOf s))) H0)) as [Hl Hb].
  rewrite fold_compress_length in Hl by reflexivity. split; [exact Hl|exact Hb].
Qed.

Lemma hexDigit_lower (n : Z) : 0 <= n < 16 -> isLowerHex (hexDigit n) = true.
Proof.
  intros Hn. rewrite <- (Z2Nat.id n) by lia.
  assert (Hk : (Z.to_nat n < 16)%nat) by lia.
  revert Hk. generalize (Z.to_nat n). intros k Hk.
  do 16 (destruct k as [|k]; [reflexivity|]). lia.
Qed.

Lemma EncodeToString_hex (bytes : list Z) :
  Forall (fun b => 0 <= b < 256) bytes ->
  String.length (EncodeToString bytes) = (2 * List.length bytes)%nat
  /\ allBytes isLowerHex (EncodeToString bytes) = true.
Proof.
  induction 1 as [|b rest Hb _ [IHl IHh]]; [split; reflexivity|].
  cbn [EncodeToString String.length List.length allBytes]. split; [lia|].
  rewrite !hexDigit_lower, IHh; [reflexivity| |].
  - apply Z.mod_pos_bound. lia.
  - split; [apply Z.div_pos; lia|apply Z.div_lt_upper_bound; lia].
Qed.

Lemma hexSum256_hex (s : string) :
  String.length (hexSum256 s) = 64%nat /\ allBytes isLowerHex (hexSum256 s) = true.
Proof.
  destruct (Sum256_bytes s) as [Hl Hb].
  destruct (EncodeToString_hex _ Hb) as [Hl' Hh]. unfold hexSum256.
  rewrite Hl', Hl. split; [reflexivity|exact Hh].
Qed.

End Sha256Facts.

Lemma take_length_le (n : nat) (s : string) :
  n <= String.length s -> String.length (GoStr.take n s) = n.
Proof.
  revert s. induction n as [|n IH]; intros [|c s] Hn; cbn in *; try lia.
  rewrite IH by lia. reflexivity.
Qed.

Lemma take_allBytes (p : ascii -> bool) (n : nat) (s : string) :
  allBytes p s = true -> allBytes p (GoStr.take n s) = true.
Proof.
  revert s. induction n as [|n IH]; intros [|c s]; cbn; try reflexivity.
  intros [Hc Hs]%andb_true_iff. rewrite Hc, IH by exact Hs. reflexivity.
Qed.

Lemma take_prefix (n : nat) (s : string) : String.prefix (GoStr.take n s) s = true.
Proof.
  revert s. induction n as [|n IH]; intros [|c s]; cbn; try reflexivity.
  destruct (ascii_dec c c) as [_|Hne]; [apply IH|destruct (Hne eq_refl)].
Qed.

Lemma prefix_refl (s : string) : String.prefix s s = true.
Proof.
  induction s as [|c s IH]; [reflexivity|]. cbn.
  destruct (ascii_dec c c) as [_|Hne]; [exact IH|destruct (Hne eq_refl)].
Qed.

(** The fingerprint is made of lower-case hex digits and is the head of the
    full digest of 64 digits: [hexLen] digits of it when [hexLen] is between
    1 and 63, and all 64 otherwise. *)
Theorem HashNormalized_shape (normalized : string) (hexLen : Z) :
  String.length (HashNormalized normalized hexLen)
    = (if ((0 <? hexLen) && (hexLen <? 64))%Z then Z.to_nat hexLen else 64)
  /\ allBytes isLowerHex (HashNormalized normalized hexLen) = true
  /\ GoStr.HasPrefix (Sha256.hexSum256 normalized) (HashNormalized normalized hexLen) = true.
Proof.
  destruct (Sha256Facts.hexSum256_hex normalized) as [Hl Hh].
  unfold HashNormalized, GoStr.HasPrefix. rewrite Hl.
  destruct (hexLen <=? 0)%Z eqn:H0; cbn [orb].
  - apply Z.leb_le in H0.
    replace (0 <? hexLen)%Z with false by (symmetry; apply Z.ltb_ge; lia). cbn [andb].
    split; [exact Hl|]. split; [exact Hh|]. apply prefix_refl.
  - apply Z.leb_gt in H0.
    replace (0 <? hexLen)%Z with true by (symmetry; apply Z.ltb_lt; lia). cbn [andb].
    destruct (Z.of_nat 64 <=? hexLen)%Z eqn:H1.
    + apply Z.leb_le in H1.
      replace (hexLen <? 64)%Z with false by (symmetry; apply Z.ltb_ge; lia).
      split; [exact Hl|]. split; [exact Hh|]. apply prefix_refl.
    + apply Z.leb_gt in H1.
      replace (hexLen <? 64)%Z with true by (symmetry; apply Z.ltb_lt; lia).
      split; [apply take_length_le; lia|]. split; [apply take_allBytes, Hh|apply take_prefix].
Qed.

(** ** The flattener: what its output holds *)

Section FlattenEntries.

Variable opts : FlattenOptions.

Lemma flattenInto_entries (value : json) :
  forall (out : gmap string json) (prefix : string) (depth : Z),
    map_Forall flatEntry out ->
    map_Forall flatEntry (flattenInto opts out prefix value depth).
Proof.
  assert (Hput : forall (out : gmap string json) prefix v,
            isLeaf v = true -> map_Forall flatEntry out ->
            map_Forall flatEntry (if String.eqb prefix EmptyString then <["value" := v]> out
                                  else <[prefix := v]> out)).
  { intros out prefix v Hv Hout. destruct (String.eqb prefix EmptyString) eqn:Hp.
    - apply map_Forall_insert_2; [split; [discriminate|exact Hv]|exact Hout].
    - apply String.eqb_neq in Hp. apply map_Forall_insert_2; [split; assumption|exact Hout]. }
  assert (Hdeep : forall (out : gmap string json) prefix,
            map_Forall flatEntry out ->
            map_Forall flatEntry (if String.eqb prefix EmptyString then out
                                  else <[prefix := depthPlaceholder opts]> out)).
  { intros out prefix Hout. destruct (String.eqb prefix EmptyString) eqn:Hp; [exact Hout|].
    apply String.eqb_neq in Hp.
    apply map_Forall_insert_2; [split; [exact Hp|reflexivity]|exact Hout]. }
  induction value as [| b | f | s | vs IH | kvs IH] using json_nested_ind;
    intros out prefix depth Hout; simpl;
    destruct (capReached opts out) eqn:Hcap; try exact Hout;
    destruct (MaxDepth opts <? depth)%Z;
    try (apply Hdeep; exact Hout); try (apply Hput; [reflexivity|exact Hout]).
  - clear Hcap. generalize 0 as i. revert out Hout.
    induction IH as [|child rest Hchild _ IHrest]; intros out Hout i; [exact Hout|].
    match goal with |- context [flattenInto opts out ?k child ?d] =>
      specialize (Hchild out k d Hout);
      destruct (capReached opts (flattenInto opts out k child d)); [exact Hchild|];
      apply IHrest; exact Hchild
    end.
  - clear Hcap. revert out Hout.
    induction IH as [|[k child] rest Hchild _ IHrest]; intros out Hout; [exact Hout|].
    simpl in Hchild.
    match goal with |- context [flattenInto opts out ?k child ?d] =>
      specialize (Hchild out k d Hout);
      destruct (capReached opts (flattenInto opts out k child d)); [exact Hchild|];
      apply IHrest; exact Hchild
    end.
Qed.

End FlattenEntries.

(** Whatever the value and the bounds, no key of the flattened map is the
    empty string, and no value in it is an array or an object: a value is a
    scalar of the input or the depth placeholder. *)
Theorem FlattenJSON_holds_leaves_under_named_keys (value : json) (opts : FlattenOptions) :
  map_Forall flatEntry (FlattenJSON value opts).
Proof.
  apply flattenInto_entries. apply map_Forall_empty.
Qed.

Lemma flattenDefaults_positive (opts : FlattenOptions) :
  (0 < MaxDepth (flattenDefaults opts))%Z /\ (0 < MaxKeys (flattenDefaults opts))%Z.
Proof.
  unfold flattenDefaults. cbn [MaxDepth MaxKeys].
  destruct (MaxDepth opts <=? 0)%Z eqn:Hd; destruct (MaxKeys opts <=? 0)%Z eqn:Hk;
    try apply Z.leb_gt in Hd; try apply Z.leb_gt in Hk; lia.
Qed.

Lemma flattenInto_leaf (opts : FlattenOptions) (out : gmap string json) (k : string)
    (v : json) (depth : Z) :
  isLeaf v = true -> k <> EmptyString ->
  capReached opts out = false -> (depth <= MaxDepth opts)%Z ->
  flattenInto opts out k v depth = <[k := v]> out.
Proof.
  intros Hv Hk%String.eqb_neq Hcap Hd%Z.ltb_ge.
  destruct v; try discriminate; simpl; rewrite Hcap, Hd, Hk; reflexivity.
Qed.

Lemma flattenInto_flat_object (opts : FlattenOptions) (kvs : list (string * json)) :
  (0 < MaxDepth opts)%Z ->
  Forall (fun kv => flatEntry kv.1 kv.2) kvs ->
  NoDup kvs.*1 ->
  forall out : gmap string json,
    (forall kv, kv ∈ kvs -> out !! kv.1 = None) ->
    (Z.of_nat (size out + List.length kvs) <= MaxKeys opts)%Z ->
    flattenInto opts out EmptyString (JObject kvs) 0 = list_to_map kvs ∪ out.
Proof.
  intros Hdepth Hall. induction Hall as [|[k v] rest [Hk Hv] _ IH];
    intros Hnodup out Hfresh Hsize.
  - rewrite list_to_map_nil, (left_id_L ∅ (∪)).
    simpl. destruct (capReached opts out); [reflexivity|].
    destruct (MaxDepth opts <? 0)%Z; reflexivity.
  - cbn [fst snd] in *. apply NoDup_cons in Hnodup as [Hnotin Hnodup].
    assert (Hcap : capReached opts out = false).
    { unfold capReached. apply Z.leb_gt. cbn [List.length] in Hsize. lia. }
    assert (Hstep : flattenInto opts out EmptyString (JObject ((k, v) :: rest)) 0
                    = flattenInto opts (<[k := v]> out) EmptyString (JObject rest) 0).
    { simpl. rewrite Hcap.
      replace (MaxDepth opts <? 0)%Z with false by (symmetry; apply Z.ltb_ge; lia).
      change (0 + 1)%Z with 1%Z.
      rewrite (flattenInto_leaf opts out k v 1 Hv Hk Hcap) by lia.
      destruct (capReached opts (<[k := v]> out)); reflexivity. }
    rewrite Hstep, IH; [| exact Hnodup | |].
    + rewrite list_to_map_cons.
      rewrite <- insert_union_r, insert_union_l; [reflexivity|].
      apply not_elem_of_list_to_map_1. exact Hnotin.
    + intros kv Hin. rewrite lookup_insert_ne; [apply Hfresh; right; exact Hin|].
      intros Heq. apply Hnotin. apply list_elem_of_fmap. exists kv.
      split; [exact Heq|exact Hin].
    + pose proof (Hfresh (k, v) ltac:(left)) as Hnone. cbn [fst] in Hnone.
      rewrite map_size_insert, Hnone. cbn [List.length] in Hsize. cbn. lia.
Qed.

(** An object whose values are all scalars, under keys that are distinct and
    not empty, is its own flattening, as long as it has no more entries than
    the cap allows. *)
Theorem FlattenJSON_flat_object (kvs : list (string * json)) (opts : FlattenOptions) :
  Forall (fun kv => flatEntry kv.1 kv.2) kvs ->
  NoDup kvs.*1 ->
  (Z.of_nat (List.length kvs) <= MaxKeys (flattenDefaults opts))%Z ->
  FlattenJSON (JObject kvs) opts = list_to_map kvs.
Proof.
  intros Hall Hnodup Hsize. unfold FlattenJSON.
  destruct (flattenDefaults_positive opts) as [Hd _].
  rewrite (flattenInto_flat_object _ kvs Hd Hall Hnodup ∅).
  - apply (right_id_L ∅ (∪)).
  - intros kv _. apply lookup_empty.
  - rewrite map_size_empty. exact Hsize.
Qed.

Lemma FlattenJSON_flat_object_witness :
  FlattenJSON (JObject [("detail", JString "x"); ("level", JString "1")])
              {| MaxDepth := 0; MaxKeys := 0 |}
  = list_to_map [("detail", JString "x"); ("level", JString "1")].
Proof.
  apply FlattenJSON_flat_object.
  - repeat constructor; discriminate.
  - cbn. repeat constructor; rewrite ?elem_of_cons, ?elem_of_nil; intuition discriminate.
  - vm_compute. discriminate.
Defined.

(** A scalar at the root is stored under the key [value]. *)
Lemma FlattenJSON_scalar (v : json) (opts : FlattenOptions) :
  isLeaf v = true -> FlattenJSON v opts = {["value" := v]}.
Proof.
  intros Hv. unfold FlattenJSON.
  destruct (flattenDefaults_positive opts) as [Hd Hk].
  assert (Hcap : capReached (flattenDefaults opts) ∅ = false)
    by (unfold capReached; apply Z.leb_gt; rewrite map_size_empty; lia).
  revert Hd Hk Hcap. generalize (flattenDefaults opts). intros o Hd Hk Hcap.
  rewrite <- insert_empty.
  destruct v; try discriminate; simpl; rewrite Hcap;
    replace (MaxDepth o <? 0)%Z with false by (symmetry; apply Z.ltb_ge; lia);
    reflexivity.
Qed.

(** ** The ledgers across a cycle: rows stay, keys stay unique *)

Lemma sameFile_refl (f : ProcessedFile) : sameFile f f.
Proof. unfold sameFile. auto. Qed.

Lemma sameFile_trans (f g h : ProcessedFile) : sameFile f g -> sameFile g h -> sameFile f h.
Proof.
  unfold sameFile. intros (? & ? & ?) (? & ? & ?). split; [congruence|]. auto.
Qed.

Lemma sameEvent_refl (e : SpoolEvent) : sameEvent e e.
Proof. unfold sameEvent. auto. Qed.

Lemma sameEvent_trans (e f g : SpoolEvent) : sameEvent e f -> sameEvent f g -> sameEvent e g.
Proof.
  unfold sameEvent. intros (? & ? & ?) (? & ? & ?).
  split; [congruence|]. split; [congruence|]. auto.
Qed.

Lemma sameFile_key (f g : ProcessedFile) : sameFile f g -> fileKey g = fileKey f.
Proof. intros [H _]. unfold fileIdentity in H. unfold fileKey. congruence. Qed.

Lemma sameEvent_ofFile (e e2 : SpoolEvent) (path sha : string) :
  sameEvent e e2 -> evOfFile path sha e2 = evOfFile path sha e.
Proof.
  intros [H _]. destruct (undelivered_source e e2 H) as [Hp Hd].
  unfold evOfFile. rewrite Hp, Hd. reflexivity.
Qed.

Lemma Forall2_refl_on {A} (R : A -> A -> Prop) (l : list A) :
  (forall x, R x x) -> Forall2 R l l.
Proof. intros H. induction l; constructor; auto. Qed.

Lemma Forall2_trans_on {A} (R : A -> A -> Prop) (l1 l2 l3 : list A) :
  (forall x y z, R x y -> R y z -> R x z) ->
  Forall2 R l1 l2 -> Forall2 R l2 l3 -> Forall2 R l1 l3.
Proof.
  intros Ht H12. revert l3. induction H12 as [|x y l1 l2 Hxy _ IH]; intros l3 H23.
  - inversion H23. constructor.
  - inversion H23 as [|y' z l2' l3' Hyz Hrest]; subst. constructor; eauto.
Qed.

(** A row on one side of [Forall2] has its partner on the other. *)
Lemma Forall2_partner_r {A} (R : A -> A -> Prop) (l1 l2 : list A) (y : A) :
  Forall2 R l1 l2 -> y ∈ l2 -> exists x, x ∈ l1 /\ R x y.
Proof.
  intros H Hin. apply list_elem_of_lookup_1 in Hin as [i Hi].
  destruct (Forall2_lookup_r _ _ _ _ _ H Hi) as (x & Hx & Hxy).
  exists x. split; [eapply list_elem_of_lookup_2, Hx|exact Hxy].
Qed.

Lemma Forall2_partner_l {A} (R : A -> A -> Prop) (l1 l2 : list A) (x : A) :
  Forall2 R l1 l2 -> x ∈ l1 -> exists y, y ∈ l2 /\ R x y.
Proof.
  intros H Hin. apply list_elem_of_lookup_1 in Hin as [i Hi].
  destruct (Forall2_lookup_l _ _ _ _ _ H Hi) as (y & Hy & Hxy).
  exists y. split; [eapply list_elem_of_lookup_2, Hy|exact Hxy].
Qed.

Lemma Forall2_keys (l1 l2 : list ProcessedFile) :
  Forall2 sameFile l1 l2 -> fileKey <$> l2 = fileKey <$> l1.
Proof.
  induction 1 as [|f g l1 l2 Hfg _ IH]; [reflexivity|].
  cbn. rewrite (sameFile_key f g Hfg), IH. reflexivity.
Qed.

Section LedgerStepFacts.

Context `{RT : Runtime}.

(** Settledness passes from a store to a later one whose new event rows do
    not name the path. *)
Lemma settledOn_carried (d d2 : DB) (q : string) (oldF newF : list ProcessedFile)
    (oldE newE : list SpoolEvent) :
  files d2 = oldF ++ newF -> Forall2 sameFile (files d) oldF ->
  events d2 = oldE ++ newE -> Forall2 sameEvent (events d) oldE ->
  (forall row, row ∈ newE -> SourcePath row <> q) ->
  settledOn d q -> settledOn d2 q.
Proof.
  intros Hf HF He HE Hnew (pf & Hin & Hpath & (row & Hrow & Hof) & Hall).
  destruct (Forall2_partner_l _ _ _ pf HF Hin) as (pf2 & Hin2 & Hsame).
  pose proof (sameFile_key _ _ Hsame) as Hkey. unfold fileKey in Hkey.
  injection Hkey as Hp Hs.
  exists pf2. rewrite Hf, He.
  split; [apply elem_of_app; left; exact Hin2|]. split; [congruence|]. split.
  - destruct (Forall2_partner_l _ _ _ row HE Hrow) as (row2 & Hrow2 & Hsame2).
    exists row2. split; [apply elem_of_app; left; exact Hrow2|].
    rewrite (sameEvent_ofFile _ _ _ _ Hsame2), Hs. exact Hof.
  - intros row2 [Hrow2|Hrow2]%elem_of_app Hof2.
    + destruct (Forall2_partner_r _ _ _ row2 HE Hrow2) as (row1 & Hrow1 & Hsame2).
      destruct Hsame2 as (Hund & Hid & Hsent). apply Hsent.
      apply Hall; [exact Hrow1|].
      rewrite <- (sameEvent_ofFile row1 row2 q (SHA256 pf) (conj Hund (conj Hid Hsent))).
      rewrite <- Hs. exact Hof2.
    + exfalso. apply (Hnew row2 Hrow2).
      unfold evOfFile in Hof2. apply andb_true_iff in Hof2 as [Hq%String.eqb_eq _].
      exact Hq.
Qed.

Lemma advances_refl (strict : bool) (r : Runner) (w : World) : advances strict r w w.
Proof.
  exists (files (curDB r w)), [], (events (curDB r w)), [].
  rewrite !app_nil_r.
  split; [reflexivity|]. split; [apply Forall2_refl_on, sameFile_refl|].
  split; [reflexivity|]. split; [apply Forall2_refl_on, sameEvent_refl|].
  split; [intros row Hin; inversion Hin|]. split; [intros pf f Hin; inversion Hin|].
  split; [constructor|]. intros _. split; [intros row Hin; inversion Hin|]. auto.
Qed.

(** Two worlds with the same open store (and, when [strict], the same
    disk). *)
Lemma advances_same (strict : bool) (r : Runner) (w w2 : World) :
  curDB r w2 = curDB r w -> (strict = true -> fs w2 = fs w) -> advances strict r w w2.
Proof.
  intros Hd Hf. destruct (advances_refl strict r w)
    as (oldF & newF & oldE & newE & H1 & H2 & H3 & H4 & H5 & H6 & H7 & H8).
  exists oldF, newF, oldE, newE. rewrite Hd.
  repeat (split; [assumption|]). intros Hs. rewrite (Hf Hs). apply H8, Hs.
Qed.

Lemma advances_weaken (r : Runner) (w w2 : World) :
  advances true r w w2 -> advances false r w w2.
Proof.
  intros (oldF & newF & oldE & newE & H1 & H2 & H3 & H4 & H5 & H6 & H7 & _).
  exists oldF, newF, oldE, newE. repeat (split; [assumption|]). discriminate.
Qed.

Lemma advances_trans (strict : bool) (r : Runner) (w w2 w3 : World) :
  advances strict r w w2 -> advances strict r w2 w3 -> advances strict r w w3.
Proof.
  intros (oldF & newF & oldE & newE & Hf & HF & He & HE & Hrows & Hfresh & Hnodup & Hstrict)
         (oldF3 & newF3 & oldE3 & newE3 & Hf3 & HF3 & He3 & HE3 & Hrows3 & Hfresh3 & Hnodup3
          & Hstrict3).
  rewrite Hf in HF3. apply Forall2_app_inv_l in HF3 as (A & B & HA & HB & ->).
  rewrite He in HE3. apply Forall2_app_inv_l in HE3 as (C & D & HC & HD & ->).
  assert (HFA : Forall2 sameFile (files (curDB r w)) A)
    by (eapply Forall2_trans_on; [apply sameFile_trans|exact HF|exact HA]).
  assert (HEC : Forall2 sameEvent (events (curDB r w)) C)
    by (eapply Forall2_trans_on; [apply sameEvent_trans|exact HE|exact HC]).
  exists A, (B ++ newF3), C, (D ++ newE3).
  split; [rewrite Hf3, app_assoc; reflexivity|]. split; [exact HFA|].
  split; [rewrite He3, app_assoc; reflexivity|]. split; [exact HEC|].
  split; [|split; [|split]].
  - intros row [Hin|Hin]%elem_of_app.
    + destruct (Forall2_partner_r _ _ _ row HD Hin) as (row2 & Hin2 & Hsame).
      destruct (Hrows row2 Hin2) as (pf & Hpf & Hof).
      destruct (Forall2_partner_l _ _ _ pf HB Hpf) as (pf3 & Hpf3 & Hsame3).
      exists pf3. split; [apply elem_of_app; left; exact Hpf3|].
      pose proof (sameFile_key _ _ Hsame3) as Hkey. injection Hkey as -> ->.
      rewrite (sameEvent_ofFile _ _ _ _ Hsame). exact Hof.
    + destruct (Hrows3 row Hin) as (pf & Hpf & Hof).
      exists pf. split; [apply elem_of_app; right; exact Hpf|exact Hof].
  - intros pf f [Hin|Hin]%elem_of_app Hf0.
    + destruct (Forall2_partner_r _ _ _ pf HB Hin) as (pf2 & Hin2 & Hsame).
      rewrite (sameFile_key _ _ Hsame). apply Hfresh; assumption.
    + destruct (Forall2_partner_l _ _ _ f HF Hf0) as (f2 & Hf2 & Hsame).
      rewrite <- (sameFile_key _ _ Hsame). apply Hfresh3; [exact Hin|].
      rewrite Hf. apply elem_of_app. left. exact Hf2.
  - rewrite fmap_app. apply NoDup_app. split; [|split; [|exact Hnodup3]].
    + rewrite (Forall2_keys _ _ HB). exact Hnodup.
    + intros k Hk Hk3.
      apply list_elem_of_fmap in Hk as (pf & -> & Hpf).
      apply list_elem_of_fmap in Hk3 as (pf3 & Hkey & Hpf3).
      destruct (Forall2_partner_r _ _ _ pf HB Hpf) as (pf2 & Hpf2 & Hsame).
      apply (Hfresh3 pf3 pf2 Hpf3); [rewrite Hf; apply elem_of_app; right; exact Hpf2|].
      rewrite <- (sameFile_key _ _ Hsame). exact Hkey.
  - intros Hs. destruct (Hstrict Hs) as [Hsrc Hdisk].
    destruct (Hstrict3 Hs) as [Hsrc3 Hdisk3].
    assert (Hback : forall q c t, fs w2 !! q = Some (File c t) -> fs w !! q = Some (File c t)).
    { intros q c t Hq. destruct (Hdisk q) as [Heq|(_ & Hnone & _)]; congruence. }
    split.
    + intros row [Hin|Hin]%elem_of_app.
      * destruct (Forall2_partner_r _ _ _ row HD Hin) as (row2 & Hin2 & Hsame).
        destruct (Hsrc row2 Hin2) as (c & t & Hfile). exists c, t.
        destruct Hsame as (Hund & _). destruct (undelivered_source _ _ Hund) as [-> _].
        exact Hfile.
      * destruct (Hsrc3 row Hin) as (c & t & Hfile). exists c, t. eapply Hback, Hfile.
    + intros q. destruct (Hdisk3 q) as [Heq3|(Hsome & Hnone & Hset)].
      * destruct (Hdisk q) as [Heq|(Hsome & Hnone & Hset)]; [left; congruence|].
        right. split; [exact Hsome|]. split; [congruence|].
        eapply (settledOn_carried (curDB r w2) (curDB r w3) q
                  (A ++ B) newF3 (C ++ D) newE3); try eassumption.
        -- rewrite Hf. apply Forall2_app; assumption.
        -- rewrite He. apply Forall2_app; assumption.
        -- intros row Hin Hq. destruct (Hsrc3 row Hin) as (c & t & Hfile).
           rewrite Hq in Hfile. congruence.
      * right. split; [|split; [exact Hnone|exact Hset]].
        destruct (Hdisk q) as [Heq|(_ & Hnone2 & _)]; congruence.
Qed.

(** A well-formed store stays well-formed. *)
Lemma ledgerOK_advances (strict : bool) (r : Runner) (w w2 : World) :
  ledgerOK (curDB r w) -> advances strict r w w2 -> ledgerOK (curDB r w2).
Proof.
  intros [Hnodup Hhas]
         (oldF & newF & oldE & newE & Hf & HF & He & HE & Hrows & Hfresh & Hnew & _).
  unfold ledgerOK. rewrite Hf, He. split.
  - rewrite fmap_app. apply NoDup_app. split; [|split; [|exact Hnew]].
    + rewrite (Forall2_keys _ _ HF). exact Hnodup.
    + intros k Hk Hk2.
      apply list_elem_of_fmap in Hk as (f2 & -> & Hf2).
      apply list_elem_of_fmap in Hk2 as (pf & Hkey & Hpf).
      destruct (Forall2_partner_r _ _ _ f2 HF Hf2) as (f & Hf0 & Hsame).
      apply (Hfresh pf f Hpf Hf0). rewrite <- (sameFile_key _ _ Hsame). exact Hkey.
  - intros e [Hin|Hin]%elem_of_app.
    + destruct (Forall2_partner_r _ _ _ e HE Hin) as (e0 & Hin0 & Hsame).
      destruct (Hhas e0 Hin0) as (f & Hf0 & Hof).
      destruct (Forall2_partner_l _ _ _ f HF Hf0) as (f2 & Hf2 & Hsame2).
      exists f2. split; [apply elem_of_app; left; exact Hf2|].
      pose proof (sameFile_key _ _ Hsame2) as Hkey. injection Hkey as -> ->.
      rewrite (sameEvent_ofFile _ _ _ _ Hsame). exact Hof.
    + destruct (Hrows e Hin) as (pf & Hpf & Hof).
      exists pf. split; [apply elem_of_app; right; exact Hpf|exact Hof].
Qed.

End LedgerStepFacts.

Section LedgerIngest.

Context `{RT : Runtime}.

Lemma filesOnly_refl (w : World) : filesOnly w w.
Proof. unfold filesOnly. auto 12. Qed.

Lemma filesOnly_trans (w1 w2 w3 : World) :
  filesOnly w1 w2 -> filesOnly w2 w3 -> filesOnly w1 w3.
Proof. unfold filesOnly. intros H1 H2. intuition congruence. Qed.

Lemma withFs_filesOnly (f : gmap string Node) (w : World) : filesOnly w (withFs f w).
Proof. unfold filesOnly. cbn. auto 12. Qed.

Lemma os_MkdirAll_filesOnly (dir : string) (w : World) : filesOnly w (os_MkdirAll dir w).1.
Proof.
  unfold os_MkdirAll.
  destruct (fs w !! dir) as [[]|]; first [apply filesOnly_refl|apply withFs_filesOnly].
Qed.

Lemma os_Rename_filesOnly (src dst : string) (w : World) :
  filesOnly w (os_Rename src dst w).1.
Proof.
  unfold os_Rename.
  destruct (fs w !! dst) as [[]|]; try apply filesOnly_refl;
    (destruct (fs w !! src) as [[]|]; [| |apply filesOnly_refl];
     destruct (decide (src ∈ unrenamable w));
     first [apply filesOnly_refl|apply withFs_filesOnly]).
Qed.

Lemma os_Create_filesOnly (path : string) (w : World) : filesOnly w (os_Create path w).1.
Proof.
  unfold os_Create.
  destruct (fs w !! path) as [[]|]; try apply filesOnly_refl;
    destruct (decide (path ∈ uncreatable w));
    first [apply filesOnly_refl|apply withFs_filesOnly].
Qed.

Lemma io_Copy_filesOnly (dst src : string) (w : World) : filesOnly w (io_Copy dst src w).1.
Proof.
  unfold io_Copy. destruct (fs w !! src) as [[]|]; try apply filesOnly_refl.
  destruct (unwritable w !! dst); apply withFs_filesOnly.
Qed.

Lemma os_Remove_filesOnly (path : string) (w : World) : filesOnly w (os_Remove path w).1.
Proof.
  unfold os_Remove. destruct (fs w !! path) as [[]|]; [| |apply filesOnly_refl];
    destruct (decide (path ∈ undeletable w)); try apply filesOnly_refl;
    [apply withFs_filesOnly|].
  destruct (hasChildren path w); [apply filesOnly_refl|apply withFs_filesOnly].
Qed.

(** [MoveFileToDir], whichever way it ends, acts on the files only. *)
Lemma MoveFileToDir_filesOnly (src dstDir : string) (w : World) :
  filesOnly w (MoveFileToDir src dstDir w).1.
Proof.
  unfold MoveFileToDir. destruct (blank dstDir); [apply filesOnly_refl|].
  pose proof (os_MkdirAll_filesOnly dstDir w) as H1.
  destruct (os_MkdirAll dstDir w) as [w1 [e|]]; cbn [fst snd] in *; [exact H1|].
  cbv zeta.
  match goal with |- context [os_Rename src ?d w1] => generalize d end. intros dst.
  pose proof (os_Rename_filesOnly src dst w1) as H2.
  destruct (os_Rename src dst w1) as [w2 [e|]]; cbn [fst snd] in *;
    [|exact (filesOnly_trans _ _ _ H1 H2)].
  pose proof (filesOnly_trans _ _ _ H1 H2) as H12.
  destruct (os_Open src w2); [exact H12|].
  pose proof (os_Create_filesOnly dst w2) as H3.
  destruct (os_Create dst w2) as [w3 [e'|]]; cbn [fst snd] in *;
    [exact (filesOnly_trans _ _ _ H12 H3)|].
  pose proof (filesOnly_trans _ _ _ H12 H3) as H13.
  pose proof (io_Copy_filesOnly dst src w3) as H4.
  destruct (io_Copy dst src w3) as [w4 [e'|]]; cbn [fst snd] in *.
  - exact (filesOnly_trans _ _ _ (filesOnly_trans _ _ _ H13 H4) (os_Remove_filesOnly dst w4)).
  - pose proof (os_Remove_filesOnly src w4) as H5.
    destruct (os_Remove src w4) as [w5 [e'|]]; cbn [fst snd] in *;
      exact (filesOnly_trans _ _ _ (filesOnly_trans _ _ _ H13 H4) H5).
Qed.

Lemma os_MkdirAll_stores (dir : string) (w : World) :
  stores (os_MkdirAll dir w).1 = stores w.
Proof. apply os_MkdirAll_filesOnly. Qed.

Lemma os_Rename_stores (src dst : string) (w : World) :
  stores (os_Rename src dst w).1 = stores w.
Proof. apply os_Rename_filesOnly. Qed.

(** [MoveFileToDir] does not touch the stores. *)
Lemma MoveFileToDir_stores (src dstDir : string) (w : World) :
  stores (MoveFileToDir src dstDir w).1 = stores w.
Proof. apply MoveFileToDir_filesOnly. Qed.

Lemma putDB_stores_curDB (r : Runner) (d : DB) (w w2 : World) (dbPath : string) :
  db r = Some dbPath -> stores w2 = stores (putDB r d w) -> curDB r w2 = d.
Proof.
  intros Hdb Hst. rewrite (curDB_stores r _ _ Hst), curDB_putDB, Hdb. reflexivity.
Qed.

(** What [archiveAndMarkFile] does to the open store, whichever way it
    ends: nothing, or one file row under a key that was not there, with the
    event rows of that key. *)
Lemma archiveAndMarkFile_ledger (r : Runner) (path sha : string) (size : Z)
    (modTime : Time) (evs : list SpoolEvent) (deadline : Time) (errorDir : string)
    (move : bool) (w : World) (stats : runStats) (dbPath : string) :
  db r = Some dbPath ->
  Forall (fun ev => SourcePath ev = path /\ FileDigestSHA256 ev = sha) evs ->
  let w' := (archiveAndMarkFile r path sha size modTime evs deadline errorDir move
                                w stats).1.1 in
  (curDB r w' = curDB r w
   /\ (evs = [] \/ List.existsb (pfKeyIs path sha) (files (curDB r w)) = true))
  \/ (List.existsb (pfKeyIs path sha) (files (curDB r w)) = false
      /\ exists rows pf',
           rows <> []
           /\ files (curDB r w') = files (curDB r w) ++ [pf']
           /\ events (curDB r w') = events (curDB r w) ++ rows
           /\ Path pf' = path /\ SHA256 pf' = sha
           /\ Forall (fun row => evOfFile path sha row = true) rows).
Proof.
  intros Hdb Hevs. unfold archiveAndMarkFile.
  pose proof (archiveSends_spec (cfg r) path deadline evs w stats)
    as (_ & _ & Hst & Hall & _).
  destruct (archiveSends (cfg r) path deadline evs w stats)
    as [[[evs' allSent] w2] stats2].
  cbn [fst snd] in *.
  rewrite (curDB_stores r w w2 Hst).
  destruct (archiveTx evs' _ (curDB r w)) as [d|e] eqn:Htx; cbn [fst snd].
  2:{ left. split.
      - destruct (move && negb (blank errorDir)).
        + rewrite (curDB_stores r w2) by apply MoveFileToDir_stores. apply curDB_stores, Hst.
        + apply curDB_stores, Hst.
      - unfold archiveTx in Htx. destruct evs' as [|ev' evs''].
        + left. inversion Hall. reflexivity.
        + right. cbn [Path SHA256] in Htx.
          destruct (List.existsb _ (files (curDB r w))); [reflexivity|discriminate]. }
  right. unfold archiveTx in Htx. destruct evs' as [|ev' evs'']; [discriminate|].
  set (sent := ev' :: evs'') in *.
  destruct (List.existsb _ (files (curDB r w))) eqn:Hfresh; [discriminate|].
  cbn [Path SHA256] in Hfresh. split; [reflexivity|].
  match type of Htx with Ok (mkDB (_ ++ [?f]) _) = _ => set (pf := f) in * end.
  set (rows := assignIDs (S (List.length (events (curDB r w)))) sent) in *.
  injection Htx as <-.
  assert (Hrows : Forall (fun row => evOfFile path sha row = true) rows).
  { apply assignIDs_Forall; [intros n e He; exact He|].
    clear -Hall Hevs. revert Hall. generalize sent. intros l Hall.
    induction Hall as [|ev ev2 l0 l2 (Hp & Hd) _ IH]; [constructor|].
    apply Forall_cons in Hevs as [(Hp0 & Hd0) Hrest].
    constructor; [|apply IH, Hrest].
    unfold evOfFile. rewrite Hp, Hd, Hp0, Hd0, !String.eqb_refl. reflexivity. }
  assert (Hne : rows <> []) by (intros H%assignIDs_nil; discriminate).
  set (d := mkDB (files (curDB r w) ++ [pf]) (events (curDB r w) ++ rows)).
  assert (Hend : forall (upd : ProcessedFile -> ProcessedFile) (wx : World),
            Path (upd pf) = path -> SHA256 (upd pf) = sha ->
            curDB r wx = d ->
            exists rows0 pf',
              rows0 <> []
              /\ files (curDB r (putDB r (updateFilesWhere (pfKeyIs path sha) upd (curDB r wx)) wx))
                 = files (curDB r w) ++ [pf']
              /\ events (curDB r (putDB r (updateFilesWhere (pfKeyIs path sha) upd (curDB r wx)) wx))
                 = events (curDB r w) ++ rows0
              /\ Path pf' = path /\ SHA256 pf' = sha
              /\ Forall (fun row => evOfFile path sha row = true) rows0).
  { intros upd wx Hp Hs Hcur. exists rows, (upd pf).
    rewrite curDB_putDB, Hdb, Hcur. cbn [updateFilesWhere files events d].
    rewrite map_app, update_fresh_key by exact Hfresh. cbn [List.map].
    unfold pfKeyIs at 1. cbn [Path SHA256 pf setPfID]. rewrite !String.eqb_refl.
    cbn [andb]. auto 10. }
  assert (Hput : curDB r (putDB r d w2) = d) by (rewrite curDB_putDB, Hdb; reflexivity).
  destruct (move && negb (blank errorDir)).
  - pose proof (MoveFileToDir_stores path errorDir (putDB r d w2)) as Hmv.
    destruct (MoveFileToDir path errorDir (putDB r d w2)) as [w3 [dst|mvErr]];
      cbn [fst snd] in *;
      (apply Hend; [reflexivity|reflexivity|eapply putDB_stores_curDB; eassumption]).
  - destruct (DeleteAfterSend (cfg r) && allSent).
    + unfold tryDeleteProcessedFile.
      pose proof (os_Remove_spec path (putDB r d w2)) as (Rst & _).
      destruct (os_Remove path (putDB r d w2)) as [w3 [e|]]; cbn [fst snd] in *;
        (apply Hend; [reflexivity|reflexivity|eapply putDB_stores_curDB; eassumption]).
    + cbn [fst snd]. exists rows, pf. rewrite Hput. auto 10.
Qed.

(** The same for [ingestFile]. *)
Lemma ingestFile_ledger (r : Runner) (path forced errorDir : string) (deadline : Time)
    (w : World) (stats : runStats) (dbPath : string) :
  db r = Some dbPath ->
  let w' := (ingestFile r path forced errorDir deadline w stats).1.1 in
  curDB r w' = curDB r w
  \/ exists sha rows pf',
       List.existsb (pfKeyIs path sha) (files (curDB r w)) = false
       /\ rows <> []
       /\ files (curDB r w') = files (curDB r w) ++ [pf']
       /\ events (curDB r w') = events (curDB r w) ++ rows
       /\ Path pf' = path /\ SHA256 pf' = sha
       /\ Forall (fun row => evOfFile path sha row = true) rows.
Proof.
  intros Hdb. unfold ingestFile.
  destruct (fs w !! path) as [[content t|]|] eqn:Hfile; [|left; reflexivity|left; reflexivity].
  destruct (Z.of_nat (String.length content) <=? 0)%Z; [left; reflexivity|].
  destruct (decide (path ∈ unreadable w)).
  { left. destruct (negb (blank errorDir)); [|reflexivity].
    apply curDB_stores, MoveFileToDir_stores. }
  destruct (isAlreadyProcessed r w path _); [left; reflexivity|].
  assert (Hone : forall e now st at_,
            Forall (fun ev => SourcePath ev = path
                              /\ FileDigestSHA256 ev = Sha256.hexSum256 content)
                   [newErrorEvent now path st at_ (Sha256.hexSum256 content) content e])
    by (intros; constructor; [split; reflexivity|constructor]).
  destruct (json_Unmarshal content) as [decoded|e].
  - destruct (toEvents _ _ _ _ _ _ _ _) as [evs|e] eqn:Hev.
    + match goal with |- context [archiveAndMarkFile r path ?sha ?sz ?mt evs ?dl ?ed ?mv w stats] =>
        destruct (archiveAndMarkFile_ledger r path sha sz mt evs dl ed mv w stats dbPath Hdb
                    (toEvents_source _ _ _ _ _ _ _ _ _ Hev)) as [[H _]|(Hf & rows & pf' & H)] end;
        [left; exact H|right; exists (Sha256.hexSum256 content), rows, pf'; tauto].
    + match goal with |- context [archiveAndMarkFile r path ?sha ?sz ?mt ?l ?dl ?ed ?mv w stats] =>
        destruct (archiveAndMarkFile_ledger r path sha sz mt l dl ed mv w stats dbPath Hdb
                    (Hone _ _ _ _)) as [[H _]|(Hf & rows & pf' & H)] end;
        [left; exact H|right; exists (Sha256.hexSum256 content), rows, pf'; tauto].
  - match goal with |- context [archiveAndMarkFile r path ?sha ?sz ?mt ?l ?dl ?ed ?mv w stats] =>
      destruct (archiveAndMarkFile_ledger r path sha sz mt l dl ed mv w stats dbPath Hdb
                  (Hone _ _ _ _)) as [[H _]|(Hf & rows & pf' & H)] end;
      [left; exact H|right; exists (Sha256.hexSum256 content), rows, pf'; tauto].
Qed.

End LedgerIngest.

Section LedgerSteps2.

Context `{RT : Runtime}.

(** The ingestion of one file; when [strict], of an input without an error
    directory into a well-formed store. *)
Lemma ingestFile_advances (strict : bool) (r : Runner) (path forced errorDir : string)
    (deadline : Time) (w : World) (stats : runStats) (dbPath : string) :
  db r = Some dbPath ->
  (strict = true -> blank errorDir = true /\ ledgerOK (curDB r w)) ->
  advances strict r w (ingestFile r path forced errorDir deadline w stats).1.1.
Proof.
  intros Hdb Hstrict.
  destruct (ingestFile_ledger r path forced errorDir deadline w stats dbPath Hdb)
    as [Hsame|(sha & rows & pf' & Hfresh & Hne & Hf & He & Hp & Hs & Hrows)].
  - apply advances_same; [exact Hsame|]. intros Htrue.
    destruct (Hstrict Htrue) as [Hblank _].
    destruct (ingestFile_appended r path forced errorDir deadline w stats dbPath Hdb Hblank)
      as [[[_ Hfs]|(rows2 & pf2 & _ & _ & Hf2 & _)] _]; [exact Hfs|].
    rewrite Hsame in Hf2. apply (f_equal List.length) in Hf2.
    rewrite length_app in Hf2. cbn in Hf2. lia.
  - exists (files (curDB r w)), [pf'], (events (curDB r w)), rows.
    split; [exact Hf|]. split; [apply Forall2_refl_on, sameFile_refl|].
    split; [exact He|]. split; [apply Forall2_refl_on, sameEvent_refl|].
    split; [|split; [|split]].
    + intros row Hin. exists pf'. split; [apply list_elem_of_here|].
      rewrite Hp, Hs. rewrite Forall_forall in Hrows. auto.
    + intros pf f ->%list_elem_of_singleton Hin Hkey.
      unfold fileKey in Hkey. injection Hkey as Hkp Hks.
      assert (Hhit : List.existsb (pfKeyIs path sha) (files (curDB r w)) = true).
      { apply List.existsb_exists. exists f. split; [apply list_elem_of_In, Hin|].
        unfold pfKeyIs. rewrite Hkp, Hks, Hp, Hs, !String.eqb_refl. reflexivity. }
      congruence.
    + cbn. apply NoDup_singleton.
    + intros Htrue. destruct (Hstrict Htrue) as [Hblank [_ Hhas]].
      destruct (ingestFile_appended r path forced errorDir deadline w stats dbPath Hdb Hblank)
        as [[[Hd _]|(rows2 & pf2 & _ & He2 & _ & _ & _ & Hfile & _ & Hdisk)] _].
      { rewrite Hd in Hf. apply (f_equal List.length) in Hf.
        rewrite length_app in Hf. cbn in Hf. lia. }
      rewrite He in He2. apply app_inv_head in He2. subst rows2.
      assert (Hsrc : forall row, row ∈ rows -> SourcePath row = path).
      { intros row Hin. rewrite Forall_forall in Hrows. specialize (Hrows row Hin).
        unfold evOfFile in Hrows. apply andb_true_iff in Hrows as [Hq%String.eqb_eq _].
        exact Hq. }
      split; [intros row Hin; rewrite (Hsrc row Hin); exact Hfile|].
      intros q. destruct Hdisk as [Hfs|[Hsent Hfs]]; [left; rewrite Hfs; reflexivity|].
      destruct (decide (path = q)) as [<-|Hneq];
        [|left; rewrite Hfs, lookup_delete_ne by exact Hneq; reflexivity].
      right. destruct Hfile as (c & t & Hfile).
      split; [congruence|]. split; [rewrite Hfs; apply lookup_delete_eq|].
      exists pf'. rewrite Hf, He.
      split; [apply elem_of_app; right; apply list_elem_of_here|]. split; [exact Hp|].
      split.
      * destruct rows as [|row rest]; [destruct (Hne eq_refl)|].
        exists row. split; [apply elem_of_app; right; apply list_elem_of_here|].
        rewrite Hs. apply Forall_cons in Hrows as [Hrow _]. exact Hrow.
      * intros row [Hin|Hin]%elem_of_app Hof.
        -- exfalso. destruct (Hhas row Hin) as (f & Hfin & Hof').
           assert (Hhit : List.existsb (pfKeyIs path sha) (files (curDB r w)) = true).
           { apply List.existsb_exists. exists f. split; [apply list_elem_of_In, Hfin|].
             unfold evOfFile in Hof, Hof'. unfold pfKeyIs.
             apply andb_true_iff in Hof as [H1%String.eqb_eq H2%String.eqb_eq].
             apply andb_true_iff in Hof' as [H3%String.eqb_eq H4%String.eqb_eq].
             rewrite <- H3, <- H4, H1, H2, Hs, !String.eqb_refl. reflexivity. }
           congruence.
        -- rewrite Forall_forall in Hsent. apply Hsent, Hin.
Qed.

Lemma ingestAll_advances (strict : bool) (r : Runner) (deadline : Time) (dbPath : string)
    (items : list inputItem) :
  db r = Some dbPath ->
  (strict = true -> Forall (fun it => blank (itErrorDir it) = true) items) ->
  forall (w : World) (stats : runStats),
    (strict = true -> ledgerOK (curDB r w)) ->
    advances strict r w (ingestAll r deadline items w stats).1.1.
Proof.
  intros Hdb. induction items as [|it rest IH]; intros Hblank w stats Hok;
    cbn [ingestAll fst snd]; [apply advances_refl|].
  destruct (isDeadlineExceeded (clock w) deadline); [apply advances_refl|].
  pose proof (ingestFile_advances strict r (itPath it) (itAlertType it) (itErrorDir it)
                deadline w stats dbPath Hdb) as Hstep.
  destruct (ingestFile r (itPath it) (itAlertType it) (itErrorDir it) deadline w stats)
    as [[w2 stats2] err].
  cbn [fst snd] in *.
  assert (H2 : advances strict r w w2).
  { apply Hstep. intros Hs. split; [|apply Hok, Hs].
    specialize (Hblank Hs). apply Forall_cons in Hblank as [Hb _]. exact Hb. }
  eapply advances_trans; [exact H2|]. apply IH.
  - intros Hs. specialize (Hblank Hs). apply Forall_cons in Hblank as [_ Hb]. exact Hb.
  - intros Hs. eapply ledgerOK_advances; [apply Hok, Hs|exact H2].
Qed.

End LedgerSteps2.

Lemma Forall2_map_on {A} (R : A -> A -> Prop) (g : A -> A) (l : list A) :
  (forall x, R x (g x)) -> Forall2 R l (List.map g l).
Proof. intros H. induction l; cbn; constructor; auto. Qed.

Lemma sameEvent_setSendError (e : SpoolEvent) (err : string) :
  sameEvent e (setSendError err e).
Proof. unfold sameEvent. destruct e. cbn. auto. Qed.

Lemma sameEvent_setSent (e : SpoolEvent) (at_ : option Time) :
  sameEvent e (setSent true EmptyString at_ e).
Proof. unfold sameEvent. destruct e. cbn. auto. Qed.

Lemma sameFile_setAllSent (f : ProcessedFile) (err : string) : sameFile f (setAllSent err f).
Proof. unfold sameFile. destruct f. cbn. auto. Qed.

Lemma sameFile_setDeleted (f : ProcessedFile) (at_ : Time) (err : string) :
  sameFile f (setDeleted at_ err f).
Proof. unfold sameFile. destruct f. cbn. auto. Qed.

Lemma sameFile_setLastError (f : ProcessedFile) (err : string) :
  sameFile f (setLastError err f).
Proof. unfold sameFile. destruct f. cbn. auto. Qed.

Lemma filter_all_sent (l : list SpoolEvent) :
  Nat.eqb (List.length (List.filter SentSyslog l)) (List.length l) = true ->
  forall row, row ∈ l -> SentSyslog row = true.
Proof.
  intros Hlen%Nat.eqb_eq%List.filter_length_forallb row Hin.
  rewrite List.forallb_forall in Hlen. apply Hlen, list_elem_of_In, Hin.
Qed.

Section LedgerSteps3.

Context `{RT : Runtime}.

(** A write that rewrites event rows in place. *)
Lemma advances_update_events (strict : bool) (r : Runner) (w w2 : World)
    (g : SpoolEvent -> SpoolEvent) :
  (forall e, sameEvent e (g e)) ->
  files (curDB r w2) = files (curDB r w) ->
  events (curDB r w2) = List.map g (events (curDB r w)) ->
  fs w2 = fs w ->
  advances strict r w w2.
Proof.
  intros Hg Hf He Hfs.
  exists (files (curDB r w)), [], (List.map g (events (curDB r w))), [].
  rewrite !app_nil_r.
  split; [exact Hf|]. split; [apply Forall2_refl_on, sameFile_refl|].
  split; [exact He|]. split; [apply Forall2_map_on, Hg|].
  split; [intros row Hin; inversion Hin|]. split; [intros pf f Hin; inversion Hin|].
  split; [constructor|]. intros _. split; [intros row Hin; inversion Hin|].
  intros q. left. rewrite Hfs. reflexivity.
Qed.

(** A write that rewrites file rows in place, with at most one path taken
    from the disk. *)
Lemma advances_update_files (strict : bool) (r : Runner) (w w2 : World)
    (g : ProcessedFile -> ProcessedFile) :
  (forall f, sameFile f (g f)) ->
  files (curDB r w2) = List.map g (files (curDB r w)) ->
  events (curDB r w2) = events (curDB r w) ->
  (forall q, fs w2 !! q = fs w !! q
             \/ (fs w !! q <> None /\ fs w2 !! q = None /\ settledOn (curDB r w2) q)) ->
  advances strict r w w2.
Proof.
  intros Hg Hf He Hfs.
  exists (List.map g (files (curDB r w))), [], (events (curDB r w)), [].
  rewrite !app_nil_r.
  split; [exact Hf|]. split; [apply Forall2_map_on, Hg|].
  split; [exact He|]. split; [apply Forall2_refl_on, sameEvent_refl|].
  split; [intros row Hin; inversion Hin|]. split; [intros pf f Hin; inversion Hin|].
  split; [constructor|]. intros _. split; [intros row Hin; inversion Hin|exact Hfs].
Qed.

Lemma resendLoop_advances (strict : bool) (r : Runner) (deadline : Time) (dbPath : string)
    (pending : list SpoolEvent) :
  db r = Some dbPath ->
  forall (w : World) (stats : runStats),
    advances strict r w (resendLoop r deadline pending w stats).1.1.
Proof.
  intros Hdb. induction pending as [|ev rest IH]; intros w stats;
    cbn [resendLoop fst snd]; [apply advances_refl|].
  destruct (isDeadlineExceeded (clock w) deadline); [apply advances_refl|].
  match goal with |- context [sendEvent ?l ev deadline w] =>
    pose proof (sendEvent_effect l ev deadline w) as (Sfs & Sst & _);
    destruct (sendEvent l ev deadline w) as [w2 err] end.
  cbn [fst snd] in *. rewrite (curDB_stores r w w2 Sst).
  destruct err as [e|].
  - eapply advances_trans; [|apply IH].
    match goal with |- advances _ _ _ (putDB r ?d w2) =>
      destruct (putDB_frame r d w2) as (Pfs & _) end.
    eapply (advances_update_events strict r w _
              (fun x => if Nat.eqb (evID x) (evID ev) then setSendError e x else x)).
    + intros x. destruct (Nat.eqb (evID x) (evID ev));
        [apply sameEvent_setSendError|apply sameEvent_refl].
    + rewrite curDB_putDB, Hdb. reflexivity.
    + rewrite curDB_putDB, Hdb. reflexivity.
    + congruence.
  - eapply advances_trans; [|apply IH].
    match goal with |- advances _ _ _ (putDB r ?d w2) =>
      destruct (putDB_frame r d w2) as (Pfs & _) end.
    eapply (advances_update_events strict r w _
              (fun x => if Nat.eqb (evID x) (evID ev)
                        then setSent true EmptyString (Some (clock w2)) x else x)).
    + intros x. destruct (Nat.eqb (evID x) (evID ev));
        [apply sameEvent_setSent|apply sameEvent_refl].
    + rewrite curDB_putDB, Hdb. reflexivity.
    + rewrite curDB_putDB, Hdb. reflexivity.
    + congruence.
Qed.

(** One step of [finalizeFiles], at a row taken from the file ledger. *)
Lemma finalizeOne_advances (strict : bool) (r : Runner) (pf : ProcessedFile) (w : World)
    (stats : runStats) (dbPath : string) :
  db r = Some dbPath ->
  (exists f, f ∈ files (curDB r w) /\ fileKey f = fileKey pf) ->
  advances strict r w (finalizeOne r pf w stats).1.
Proof.
  intros Hdb (f0 & Hf0 & Hkey0). unfold finalizeOne.
  set (ofFile := List.filter (evOfFile (Path pf) (SHA256 pf)) (events (curDB r w))).
  destruct (Nat.eqb (List.length ofFile) 0) eqn:Hzero; [apply advances_refl|].
  set (allSent := Nat.eqb (List.length (List.filter SentSyslog ofFile)) (List.length ofFile)).
  (* the all-sent mark *)
  set (g1 := fun f : ProcessedFile =>
               if allSent && negb (AllSent pf)
               then (if Nat.eqb (pfID f) (pfID pf) then setAllSent EmptyString f else f)
               else f).
  assert (Hg1 : forall f, sameFile f (g1 f)).
  { intros f. unfold g1. destruct (allSent && negb (AllSent pf)); [|apply sameFile_refl].
    destruct (Nat.eqb (pfID f) (pfID pf)); [apply sameFile_setAllSent|apply sameFile_refl]. }
  match goal with |- context [if ?c then putDB r ?d w else w] =>
    assert (H1 : fs (if c then putDB r d w else w) = fs w
                 /\ undeletable (if c then putDB r d w else w) = undeletable w
                 /\ files (curDB r (if c then putDB r d w else w))
                    = List.map g1 (files (curDB r w))
                 /\ events (curDB r (if c then putDB r d w else w)) = events (curDB r w));
    [|generalize dependent (if c then putDB r d w else w)]
  end.
  { unfold g1. destruct (allSent && negb (AllSent pf)).
    - rewrite curDB_putDB, Hdb. split; [apply putDB_frame|].
      split; [apply putDB_frame|]. split; reflexivity.
    - split; [reflexivity|]. split; [reflexivity|]. split; [|reflexivity].
      symmetry. apply List.map_id. }
  intros w1 (F1 & U1 & Hfiles1 & Hev1).
  assert (Hkeep : forall q, fs w1 !! q = fs w !! q
                            \/ (fs w !! q <> None /\ fs w1 !! q = None
                                /\ settledOn (curDB r w1) q))
    by (intros q; left; rewrite F1; reflexivity).
  pose proof (advances_update_files strict r w w1 g1 Hg1 Hfiles1 Hev1 Hkeep) as Hstep1.
  destruct (DeleteAfterSend (cfg r) && allSent && negb (Deleted pf)) eqn:Hcond;
    [|exact Hstep1].
  apply andb_true_iff in Hcond as [[_ Hall]%andb_true_iff _].
  eapply advances_trans; [exact Hstep1|].
  destruct (negb (exists_ (Path pf) w1)); cbn [fst].
  - match goal with |- advances _ _ _ (putDB r ?d w1) =>
      destruct (putDB_frame r d w1) as (Pfs & _) end.
    eapply (advances_update_files strict r w1 _
              (fun f => if Nat.eqb (pfID f) (pfID pf)
                        then setDeleted (clock w1) "file missing" f else f)).
    + intros f. destruct (Nat.eqb (pfID f) (pfID pf));
        [apply sameFile_setDeleted|apply sameFile_refl].
    + rewrite curDB_putDB, Hdb. reflexivity.
    + rewrite curDB_putDB, Hdb. reflexivity.
    + intros q. left. rewrite Pfs. reflexivity.
  - unfold tryDeleteProcessedFile.
    pose proof (os_Remove_spec (Path pf) w1) as (Rst & _ & _ & _ & Rfs & _).
    destruct (os_Remove (Path pf) w1) as [w2 [e|]] eqn:Hrm; cbn [fst snd] in *.
    + match goal with |- advances _ _ _ (putDB r ?d w2) =>
        destruct (putDB_frame r d w2) as (Pfs & _) end.
      eapply (advances_update_files strict r w1 _
                (fun f => if pfKeyIs (Path pf) (SHA256 pf) f
                          then setLastError ("delete failed: " +:+ e) f else f)).
      * intros f. destruct (pfKeyIs _ _ _); [apply sameFile_setLastError|apply sameFile_refl].
      * rewrite curDB_putDB, Hdb, (curDB_stores r w1 w2 Rst). reflexivity.
      * rewrite curDB_putDB, Hdb, (curDB_stores r w1 w2 Rst). reflexivity.
      * intros q. left. rewrite Pfs, Rfs. reflexivity.
    + match goal with |- advances _ _ _ (putDB r ?d w2) =>
        destruct (putDB_frame r d w2) as (Pfs & _);
        pose proof (curDB_putDB r d w2) as Pcur;
        generalize dependent (putDB r d w2) end.
      intros w3 Pfs Pcur. rewrite Hdb, (curDB_stores r w1 w2 Rst) in Pcur.
      eapply (advances_update_files strict r w1 w3
                (fun f => if pfKeyIs (Path pf) (SHA256 pf) f
                          then setDeleted (clock w2) EmptyString f else f)).
      * intros f. destruct (pfKeyIs _ _ _); [apply sameFile_setDeleted|apply sameFile_refl].
      * rewrite Pcur. reflexivity.
      * rewrite Pcur. reflexivity.
      * intros q. destruct (decide (Path pf = q)) as [<-|Hneq];
          [|left; rewrite Pfs, Rfs, lookup_delete_ne by exact Hneq; reflexivity].
        right.
        assert (Hthere : fs w1 !! Path pf <> None).
        { unfold os_Remove in Hrm. destruct (fs w1 !! Path pf); [discriminate|].
          discriminate. }
        split; [exact Hthere|]. split; [rewrite Pfs, Rfs; apply lookup_delete_eq|].
        (* the ledger row of the key, as the store has it now *)
        assert (Hrow : exists f3, f3 ∈ files (curDB r w3) /\ fileKey f3 = fileKey pf).
        { rewrite Pcur. cbn [updateFilesWhere files]. rewrite Hfiles1.
          eexists. split.
          - apply list_elem_of_In, List.in_map, List.in_map, list_elem_of_In, Hf0.
          - rewrite <- Hkey0.
            match goal with |- fileKey (if ?c then _ else _) = _ => destruct c end;
              [rewrite (sameFile_key _ _ (sameFile_setDeleted _ _ _))|];
              apply sameFile_key, Hg1. }
        destruct Hrow as (f3 & Hin3 & Hkey3). unfold fileKey in Hkey3.
        injection Hkey3 as Hp3 Hs3.
        assert (Hevents : events (curDB r w3) = events (curDB r w))
          by (rewrite Pcur; cbn [updateFilesWhere events]; exact Hev1).
        exists f3. split; [exact Hin3|]. split; [exact Hp3|]. rewrite Hevents, Hs3.
        split.
        -- destruct ofFile as [|row rest] eqn:Hof; [discriminate|].
           exists row.
           assert (Hin : List.In row ofFile) by (rewrite Hof; left; reflexivity).
           unfold ofFile in Hin. apply List.filter_In in Hin as [Hin Hkey].
           split; [apply list_elem_of_In, Hin|exact Hkey].
        -- intros row Hin Hkey. apply (filter_all_sent ofFile Hall).
           apply list_elem_of_In, List.filter_In. split; [apply list_elem_of_In, Hin|exact Hkey].
Qed.

Lemma finalizeLoop_advances (strict : bool) (r : Runner) (dbPath : string)
    (pfs : list ProcessedFile) :
  db r = Some dbPath ->
  forall (w : World) (stats : runStats),
    Forall (fun pf => exists f, f ∈ files (curDB r w) /\ fileKey f = fileKey pf) pfs ->
    advances strict r w (finalizeLoop r pfs w stats).1.
Proof.
  intros Hdb. induction pfs as [|pf rest IH]; intros w stats Hall;
    cbn [finalizeLoop]; [apply advances_refl|].
  apply Forall_cons in Hall as [Hpf Hrest].
  pose proof (finalizeOne_advances strict r pf w stats dbPath Hdb Hpf) as H1.
  destruct (finalizeOne r pf w stats) as [w1 stats1]. cbn [fst] in *.
  eapply advances_trans; [exact H1|]. apply IH.
  destruct H1 as (oldF & newF & _ & _ & Hf & HF & _).
  eapply Forall_impl; [exact Hrest|]. cbn beta.
  intros pf0 (f & Hin & Hkey).
  destruct (Forall2_partner_l _ _ _ f HF Hin) as (f2 & Hin2 & Hsame).
  exists f2. split; [rewrite Hf; apply elem_of_app; left; exact Hin2|].
  rewrite (sameFile_key _ _ Hsame). exact Hkey.
Qed.

Lemma finalizeFiles_advances (strict : bool) (r : Runner) (dbPath : string) (w : World)
    (stats : runStats) :
  db r = Some dbPath -> advances strict r w (finalizeFiles r w stats).1.
Proof.
  intros Hdb. apply (finalizeLoop_advances strict r dbPath _ Hdb).
  apply Forall_forall. intros pf Hin%list_elem_of_In%List.filter_In.
  exists pf. split; [apply list_elem_of_In, Hin|reflexivity].
Qed.

End LedgerSteps3.

Section LedgerCycle.

Context `{RT : Runtime}.

(** The body of a cycle, from the world [ensureDBForNow] leaves. *)
Lemma runBody_advances (strict : bool) (r : Runner) (deadline : Time) (w : World)
    (stats : runStats) :
  let r1 := (ensureDBForNow r w).1.1 in
  let w1 := (ensureDBForNow r w).1.2 in
  (strict = true -> noErrorDirs (cfg r) = true /\ ledgerOK (curDB r1 w1)) ->
  advances strict r1 w1 (runBody r deadline w stats).1.1.2.
Proof.
  intros r1 w1 Hstrict.
  pose proof (ensureDBForNow_inputs r w) as Hinputs.
  pose proof (ensureDBForNow_opens r w) as Hopen.
  unfold runBody. fold r1 in Hinputs, Hopen. subst r1 w1.
  destruct (ensureDBForNow r w) as [[r1 w1] [err|]]; cbn [fst snd] in *;
    [apply advances_refl|].
  destruct (Hopen eq_refl) as [dbPath Hdb].
  destruct (negb (IsZero (ReplayFrom (cfg r1)))).
  { pose proof (replayFrom_spec r1 (ReplayFrom (cfg r1)) deadline w1 stats) as (Hfs & Hst & _).
    destruct (replayFrom r1 (ReplayFrom (cfg r1)) deadline w1 stats) as [[w2 s2] e2].
    cbn [fst snd] in *. apply advances_same; [apply curDB_stores, Hst|intros _; exact Hfs]. }
  destruct (expandGlobs (InputGlobs (cfg r1)) w1) as [paths|err]; [|apply advances_refl].
  pose proof (ingestAll_advances strict r1 deadline dbPath _ Hdb
                (fun _ => legacy_blank paths) w1 stats (fun Hs => proj2 (Hstrict Hs))) as H2.
  destruct (ingestAll r1 deadline _ w1 stats) as [[w2 s2] late]. cbn [fst snd] in H2.
  destruct late; [exact H2|].
  destruct (expandInputs (Inputs (cfg r1)) w2) as [items|err] eqn:Hitems; [|exact H2].
  assert (Hok2 : strict = true -> ledgerOK (curDB r1 w2)).
  { intros Hs. eapply ledgerOK_advances; [apply (proj2 (Hstrict Hs))|exact H2]. }
  assert (Hblank : strict = true -> Forall (fun it => blank (itErrorDir it) = true) items).
  { intros Hs. eapply expandInputs_blank; [|exact Hitems].
    rewrite Hinputs. exact (proj1 (Hstrict Hs)). }
  pose proof (ingestAll_advances strict r1 deadline dbPath items Hdb Hblank w2 s2 Hok2) as H3.
  destruct (ingestAll r1 deadline items w2 s2) as [[w3 s3] late]. cbn [fst snd] in H3.
  assert (H13 : advances strict r1 w1 w3) by (eapply advances_trans; eassumption).
  destruct late; [exact H13|].
  destruct (isDeadlineExceeded (clock w3) deadline); [exact H13|].
  pose proof (resendLoop_advances strict r1 deadline dbPath
                (List.filter (fun e => negb (SentSyslog e)) (events (curDB r1 w3)))
                Hdb w3 s3) as H4.
  fold (resendPending r1 deadline w3 s3) in H4.
  destruct (resendPending r1 deadline w3 s3) as [[w4 s4] err]. cbn [fst snd] in H4.
  assert (H14 : advances strict r1 w1 w4) by (eapply advances_trans; eassumption).
  destruct err as [e|]; [exact H14|].
  destruct (isDeadlineExceeded (clock w4) deadline); [exact H14|].
  pose proof (finalizeFiles_advances strict r1 dbPath w4 s4 Hdb) as H5.
  destruct (finalizeFiles r1 w4 s4) as [w5 s5]. cbn [fst snd] in *.
  eapply advances_trans; eassumption.
Qed.

(** A whole cycle. *)
Lemma RunOnce_advances (strict : bool) (r : Runner) (w : World) :
  let r1 := (ensureDBForNow r w).1.1 in
  let w1 := (ensureDBForNow r w).1.2 in
  (strict = true -> noErrorDirs (cfg r) = true /\ ledgerOK (curDB r1 w1)) ->
  advances strict r1 w1 (RunOnce r w).1.2.
Proof.
  intros r1 w1 Hstrict.
  destruct (RunOnce_body r w) as (_ & Hfs & Hst).
  set (deadline := if (0 <? Timeout (cfg r))%Z then Add (clock w) (Timeout (cfg r)) else 0%Z)
    in *.
  eapply advances_trans; [apply (runBody_advances strict r deadline w zeroStats Hstrict)|].
  apply advances_same; [apply curDB_stores, Hst|intros _; exact Hfs].
Qed.

(** A store that is well-formed, as an empty one is, is well-formed after a
    cycle: no two file rows share (path, digest), and every event row has
    the file row it came with. *)
Theorem RunOnce_keeps_the_ledger_well_formed (r : Runner) (w : World) :
  let r1 := (ensureDBForNow r w).1.1 in
  let w1 := (ensureDBForNow r w).1.2 in
  ledgerOK emptyDB
  /\ (ledgerOK (curDB r1 w1) -> ledgerOK (curDB r1 (RunOnce r w).1.2)).
Proof.
  intros r1 w1. split.
  - split; [constructor|]. intros e Hin. inversion Hin.
  - intros Hok. eapply ledgerOK_advances; [exact Hok|].
    apply (RunOnce_advances false r w). discriminate.
Qed.

(** A cycle drops no row of either ledger and reorders none: the rows that
    were there come first, each with its identity columns unchanged and its
    sent, all-sent and deleted marks at most raised; new rows follow. *)
Theorem RunOnce_only_appends_and_marks (r : Runner) (w : World) :
  let r1 := (ensureDBForNow r w).1.1 in
  let w1 := (ensureDBForNow r w).1.2 in
  let w' := (RunOnce r w).1.2 in
  exists oldF newF oldE newE,
    files (curDB r1 w') = oldF ++ newF
    /\ Forall2 sameFile (files (curDB r1 w1)) oldF
    /\ events (curDB r1 w') = oldE ++ newE
    /\ Forall2 sameEvent (events (curDB r1 w1)) oldE.
Proof.
  intros r1 w1 w'.
  destruct (RunOnce_advances false r w ltac:(discriminate))
    as (oldF & newF & oldE & newE & H1 & H2 & H3 & H4 & _).
  exists oldF, newF, oldE, newE. auto.
Qed.


End LedgerCycle.

Lemma RunOnce_keeps_the_ledger_well_formed_witness :
  ledgerOK (curDB (firstCycle []).1.1 (firstCycle []).1.2).
Proof.
  pose proof (proj2 (@RunOnce_keeps_the_ledger_well_formed sampleRuntime
                       (@started sampleRuntime sampleConfig (sampleWorld [])).1
                       (@started sampleRuntime sampleConfig (sampleWorld [])).2)) as H.
  cbv zeta in H.
  assert (Hempty : ledgerOK
            (@curDB
               (@ensureDBForNow sampleRuntime
                  (@started sampleRuntime sampleConfig (sampleWorld [])).1
                  (@started sampleRuntime sampleConfig (sampleWorld [])).2).1.1
               (@ensureDBForNow sampleRuntime
                  (@started sampleRuntime sampleConfig (sampleWorld [])).1
                  (@started sampleRuntime sampleConfig (sampleWorld [])).2).1.2)).
  { split; [vm_compute; constructor|]. intros e Hin. vm_compute in Hin. inversion Hin. }
  specialize (H Hempty).
  assert (Hsame : curDB (firstCycle []).1.1 (firstCycle []).1.2
                  = @curDB
                      (@ensureDBForNow sampleRuntime
                         (@started sampleRuntime sampleConfig (sampleWorld [])).1
                         (@started sampleRuntime sampleConfig (sampleWorld [])).2).1.1
                      (@RunOnce sampleRuntime
                         (@started sampleRuntime sampleConfig (sampleWorld [])).1
                         (@started sampleRuntime sampleConfig (sampleWorld [])).2).1.2)
    by (vm_compute; reflexivity).
  rewrite Hsame. exact H.
Defined.


(** ** Ingesting a file again *)

Section IngestAgain.

Context `{RT : Runtime}.

(** What the ingestion of a file leaves behind: nothing at all, or the key
    of the file in the ledger and the file as it was or gone. *)
Lemma ingestFile_leaves (r : Runner) (path forced errorDir : string) (deadline : Time)
    (w : World) (stats : runStats) (dbPath : string) :
  db r = Some dbPath -> blank errorDir = true ->
  let res := ingestFile r path forced errorDir deadline w stats in
  res.1 = (w, stats)
  \/ exists content t,
       fs w !! path = Some (File content t)
       /\ isAlreadyProcessed r res.1.1 path (Sha256.hexSum256 content) = true
       /\ (fs res.1.1 !! path = fs w !! path \/ fs res.1.1 !! path = None).
Proof.
  intros Hdb Hblank. unfold ingestFile.
  destruct (fs w !! path) as [[content t|]|] eqn:Hfile; [|left; reflexivity|left; reflexivity].
  destruct (Z.of_nat (String.length content) <=? 0)%Z; [left; reflexivity|].
  destruct (decide (path ∈ unreadable w)); [rewrite Hblank; left; reflexivity|].
  destruct (isAlreadyProcessed r w path _) eqn:Hdone; [left; reflexivity|].
  assert (Harchived : forall evs move,
            evs <> [] ->
            move && negb (blank errorDir) = false ->
            Forall (fun ev => SourcePath ev = path
                              /\ FileDigestSHA256 ev = Sha256.hexSum256 content) evs ->
            let res := archiveAndMarkFile r path (Sha256.hexSum256 content)
                         (Z.of_nat (String.length content)) t evs deadline
                         (if move then errorDir else EmptyString) move w stats in
            exists content0 t0,
              Some (File content t) = Some (File content0 t0)
              /\ isAlreadyProcessed r res.1.1 path (Sha256.hexSum256 content0) = true
              /\ (fs res.1.1 !! path = Some (File content t) \/ fs res.1.1 !! path = None)).
  { intros evs move Hne Hmove Hevs. cbn zeta. exists content, t. split; [reflexivity|].
    assert (Hmove' : move && negb (blank (if move then errorDir else EmptyString)) = false)
      by (destruct move; [exact Hmove|reflexivity]).
    destruct (archiveAndMarkFile_ledger r path _ (Z.of_nat (String.length content)) t evs
                deadline (if move then errorDir else EmptyString) move w stats dbPath Hdb Hevs)
      as [[_ [Hnil|Hhit]]|(_ & rows & pf' & _ & Hf & _ & Hp & Hs & _)].
    - contradiction.
    - unfold isAlreadyProcessed in Hdone. congruence.
    - destruct (archiveAndMarkFile_appended r path _ (Z.of_nat (String.length content)) t evs
                  deadline (if move then errorDir else EmptyString) move w stats dbPath
                  content t Hdb Hmove' Hfile Hevs)
        as [[[_ Hfs]|(rows2 & pf2 & _ & _ & _ & _ & _ & _ & _ & Hdisk)] _].
      + split; [|left; rewrite Hfs; exact Hfile].
        unfold isAlreadyProcessed. rewrite Hf, List.existsb_app. cbn.
        unfold pfKeyIs. rewrite Hp, Hs, !String.eqb_refl. cbn. apply orb_true_r.
      + split.
        * unfold isAlreadyProcessed. rewrite Hf, List.existsb_app. cbn.
          unfold pfKeyIs. rewrite Hp, Hs, !String.eqb_refl. cbn. apply orb_true_r.
        * destruct Hdisk as [Hfs|[_ Hfs]]; rewrite Hfs;
            [left; exact Hfile|right; apply lookup_delete_eq]. }
  destruct (json_Unmarshal content) as [decoded|e].
  - destruct (toEvents _ _ _ _ _ _ _ _) as [evs|e] eqn:Hev.
    + destruct evs as [|ev evs']; [left; reflexivity|].
      right. apply (Harchived (ev :: evs') false); [discriminate|reflexivity|].
      eapply toEvents_source, Hev.
    + right. apply (Harchived [_] true); [discriminate|rewrite Hblank; reflexivity|].
      constructor; [split; reflexivity|constructor].
  - right. apply (Harchived [_] true); [discriminate|rewrite Hblank; reflexivity|].
    constructor; [split; reflexivity|constructor].
Qed.

(** Ingesting a file again, from the world and the counters the first
    ingestion left, changes neither: no row is added, no call is made, no
    file is touched. *)
Theorem ingestFile_again_changes_nothing (r : Runner) (path forced errorDir : string)
    (deadline : Time) (w : World) (stats : runStats) (dbPath : string) :
  db r = Some dbPath -> blank errorDir = true ->
  let res := ingestFile r path forced errorDir deadline w stats in
  (ingestFile r path forced errorDir deadline res.1.1 res.1.2).1 = res.1.
Proof.
  intros Hdb Hblank res.
  destruct (ingestFile_leaves r path forced errorDir deadline w stats dbPath Hdb Hblank)
    as [Hsame|(content & t & Hfile & Hdone & Hdisk)]; fold res in Hsame || fold res in Hdone, Hdisk.
  - rewrite Hsame. cbn [fst snd]. exact Hsame.
  - destruct res as [[w1 stats1] err1]. cbn [fst snd] in *.
    unfold ingestFile.
    destruct Hdisk as [Hfs|Hfs]; rewrite Hfs; [|reflexivity]. rewrite Hfile.
    destruct (Z.of_nat (String.length content) <=? 0)%Z; [reflexivity|].
    destruct (decide (path ∈ unreadable w1)); [rewrite Hblank; reflexivity|].
    rewrite Hdone. reflexivity.
Qed.

End IngestAgain.

Lemma ingestFile_again_changes_nothing_witness :
  let r := (@started sampleRuntime sampleConfig (sampleWorld [failing "down"])).1 in
  let w := (@started sampleRuntime sampleConfig (sampleWorld [failing "down"])).2 in
  let res := @ingestFile sampleRuntime r "/in/general/fail.warn" "general" EmptyString 0%Z
                         w zeroStats in
  (@ingestFile sampleRuntime r "/in/general/fail.warn" "general" EmptyString 0%Z
               res.1.1 res.1.2).1 = res.1.
Proof.
  intros r w.
  apply (@ingestFile_again_changes_nothing sampleRuntime r "/in/general/fail.warn" "general"
           EmptyString 0%Z w zeroStats "/db/spooler_202602.db").
  - vm_compute. reflexivity.
  - reflexivity.
Defined.

(** ** The calls of a cycle and the counters of its heartbeat *)

Lemma remainingTimeout_bounds (now deadline : Time) :
  (0 < remainingTimeout now deadline (3 * Second) <= 3 * Second)%Z.
Proof.
  unfold remainingTimeout, Second, Millisecond.
  destruct (IsZero deadline); [lia|].
  destruct (Until now deadline <=? 0)%Z eqn:H1; [lia|]. apply Z.leb_gt in H1.
  cbn [orb Z.leb]. change (3 * (1000 * 1000000) <=? 0)%Z with false. cbn [orb].
  destruct (Until now deadline <? 3 * (1000 * 1000000))%Z eqn:H2.
  - apply Z.ltb_lt in H2. lia.
  - lia.
Qed.

Lemma okCalls_app (l k : list SyslogCall) : okCalls (l ++ k) = (okCalls l + okCalls k)%Z.
Proof. unfold okCalls. rewrite List.filter_app, length_app. lia. Qed.

Lemma errCalls_app (l k : list SyslogCall) : errCalls (l ++ k) = (errCalls l + errCalls k)%Z.
Proof. unfold errCalls. rewrite List.filter_app, length_app. lia. Qed.

Section Accounting.

Context `{RT : Runtime}.

Lemma accounted_refl (replay : bool) (r : Runner) (w : World) (s : runStats) :
  accounted replay r w w s s.
Proof.
  exists []. rewrite app_nil_r. split; [reflexivity|]. split; [constructor|].
  unfold okCalls, errCalls. cbn. destruct replay; lia.
Qed.

Lemma accounted_trans (replay : bool) (r : Runner) (w1 w2 w3 : World)
    (s1 s2 s3 : runStats) :
  accounted replay r w1 w2 s1 s2 -> accounted replay r w2 w3 s2 s3 ->
  accounted replay r w1 w3 s1 s3.
Proof.
  intros (n1 & Hc1 & Hw1 & Hn1 & Hf1) (n2 & Hc2 & Hw2 & Hn2 & Hf2).
  exists (n1 ++ n2). rewrite Hc2, Hc1, app_assoc, okCalls_app, errCalls_app.
  split; [reflexivity|]. split; [apply Forall_app; auto|].
  destruct replay; lia.
Qed.

(** Steps that make no call and add no file row. *)
Lemma accounted_quiet (replay : bool) (r : Runner) (w w2 : World) (s s2 : runStats) :
  calls w2 = calls w ->
  List.length (files (curDB r w2)) = List.length (files (curDB r w)) ->
  EventsSentOK s2 = EventsSentOK s -> EventsSentErr s2 = EventsSentErr s ->
  EventsReplayOK s2 = EventsReplayOK s -> EventsReplayErr s2 = EventsReplayErr s ->
  FilesIngested s2 = FilesIngested s ->
  accounted replay r w w2 s s2.
Proof.
  intros Hc Hf H1 H2 H3 H4 H5. exists []. rewrite app_nil_r.
  split; [exact Hc|]. split; [constructor|].
  unfold okCalls, errCalls. cbn. destruct replay; lia.
Qed.

(** One send, with the counter its caller moves. *)
Lemma sendEvent_accounted (replay : bool) (r : Runner) (labels : gmap string string)
    (ev : SpoolEvent) (deadline : Time) (w : World) (s s2 : runStats) :
  FilesIngested s2 = FilesIngested s ->
  (let hit := match (sendEvent labels ev deadline w).2 with
              | None => (1, 0)%Z | Some _ => (0, 1)%Z end in
   if replay
   then (EventsReplayOK s2 = EventsReplayOK s + hit.1
         /\ EventsReplayErr s2 = EventsReplayErr s + hit.2
         /\ EventsSentOK s2 = EventsSentOK s /\ EventsSentErr s2 = EventsSentErr s)%Z
   else (EventsSentOK s2 = EventsSentOK s + hit.1
         /\ EventsSentErr s2 = EventsSentErr s + hit.2
         /\ EventsReplayOK s2 = EventsReplayOK s
         /\ EventsReplayErr s2 = EventsReplayErr s)%Z) ->
  accounted replay r w (sendEvent labels ev deadline w).1 s s2.
Proof.
  intros Hfi Hcount.
  pose proof (sendEvent_effect labels ev deadline w) as (_ & Hst & _ & _ & _ & Hcalls).
  eexists. split; [exact Hcalls|]. split.
  - constructor; [|constructor]. split; [reflexivity|]. apply remainingTimeout_bounds.
  - rewrite (curDB_stores r _ _ Hst). unfold okCalls, errCalls, succeeded.
    cbn [List.filter sendResult].
    destruct ((sendEvent labels ev deadline w).2); destruct replay;
      cbn [negb List.length fst snd] in *; lia.
Qed.

End Accounting.

Lemma noteLag_counters `{RT : Runtime} (now : Time) (item : json) (s : runStats) :
  FilesIngested (noteLag now item s) = FilesIngested s
  /\ EventsNew (noteLag now item s) = EventsNew s
  /\ EventsSentOK (noteLag now item s) = EventsSentOK s
  /\ EventsSentErr (noteLag now item s) = EventsSentErr s
  /\ EventsReplayOK (noteLag now item s) = EventsReplayOK s
  /\ EventsReplayErr (noteLag now item s) = EventsReplayErr s
  /\ FilesDeleted (noteLag now item s) = FilesDeleted s.
Proof. unfold noteLag. destruct (computeLag now item); cbn; auto 10. Qed.

Section Accounting2.

Context `{RT : Runtime}.

Lemma putDB_calls (r : Runner) (d : DB) (w : World) : calls (putDB r d w) = calls w.
Proof. unfold putDB. destruct (db r); reflexivity. Qed.

Lemma os_MkdirAll_calls (dir : string) (w : World) : calls (os_MkdirAll dir w).1 = calls w.
Proof. unfold os_MkdirAll. destruct (fs w !! dir) as [[]|]; reflexivity. Qed.

Lemma os_Rename_calls (src dst : string) (w : World) : calls (os_Rename src dst w).1 = calls w.
Proof. apply os_Rename_filesOnly. Qed.

Lemma MoveFileToDir_calls (src dstDir : string) (w : World) :
  calls (MoveFileToDir src dstDir w).1 = calls w.
Proof. apply MoveFileToDir_filesOnly. Qed.

Lemma os_Remove_calls (path : string) (w : World) : calls (os_Remove path w).1 = calls w.
Proof.
  unfold os_Remove. destruct (fs w !! path) as [[]|]; [| |reflexivity];
    destruct (decide (path ∈ undeletable w)); try reflexivity.
  destruct (hasChildren path w); reflexivity.
Qed.

Lemma archiveSends_accounted (r : Runner) (c : RunnerConfig) (path : string)
    (deadline : Time) (evs : list SpoolEvent) :
  forall (w : World) (stats : runStats),
    let res := archiveSends c path deadline evs w stats in
    accounted false r w res.1.2 stats res.2.
Proof.
  induction evs as [|ev rest IH]; intros w stats; cbn [archiveSends fst snd];
    [apply accounted_refl|].
  set (stats1 := noteLag (clock w) (jsonAnyFromString (EventJSON ev)) (incEventsNew stats)).
  destruct (noteLag_counters (clock w) (jsonAnyFromString (EventJSON ev)) (incEventsNew stats))
    as (N1 & N2 & N3 & N4 & N5 & N6 & N7). fold stats1 in N1, N2, N3, N4, N5, N6, N7.
  cbn in N1, N3, N4, N5, N6.
  match goal with |- context [sendEvent ?l ev deadline w] =>
    pose proof (sendEvent_accounted false r l ev deadline w stats) as Hsend;
    destruct (sendEvent l ev deadline w) as [w2 err] end.
  cbn [fst snd] in *.
  destruct err as [e|].
  - specialize (Hsend (incEventsSentErr stats1) ltac:(cbn; lia) ltac:(cbn; lia)).
    specialize (IH w2 (incEventsSentErr stats1)).
    destruct (archiveSends c path deadline rest w2 (incEventsSentErr stats1))
      as [[[rest' allSent] w3] stats3].
    cbn [fst snd] in *. eapply accounted_trans; eassumption.
  - specialize (Hsend (incEventsSentOK stats1) ltac:(cbn; lia) ltac:(cbn; lia)).
    specialize (IH w2 (incEventsSentOK stats1)).
    destruct (archiveSends c path deadline rest w2 (incEventsSentOK stats1))
      as [[[rest' allSent] w3] stats3].
    cbn [fst snd] in *. eapply accounted_trans; eassumption.
Qed.

(** After the sends, [archiveAndMarkFile] makes no call; it counts the file
    as ingested exactly when it adds the file row. *)
Lemma archiveAndMarkFile_accounted (r : Runner) (path sha : string) (size : Z)
    (modTime : Time) (evs : list SpoolEvent) (deadline : Time) (errorDir : string)
    (move : bool) (w : World) (stats : runStats) (dbPath : string) :
  db r = Some dbPath ->
  let res := archiveAndMarkFile r path sha size modTime evs deadline errorDir move w stats in
  accounted false r w res.1.1 stats res.1.2.
Proof.
  intros Hdb. unfold archiveAndMarkFile.
  pose proof (archiveSends_accounted r (cfg r) path deadline evs w stats) as Hsends.
  destruct (archiveSends (cfg r) path deadline evs w stats)
    as [[[evs' allSent] w2] stats2].
  cbn [fst snd] in *.
  eapply accounted_trans; [exact Hsends|]. clear Hsends.
  destruct (archiveTx evs' _ (curDB r w2)) as [d|e] eqn:Htx; cbn [fst snd].
  2:{ apply accounted_quiet; try reflexivity.
      - destruct (move && negb (blank errorDir)); [apply MoveFileToDir_calls|reflexivity].
      - destruct (move && negb (blank errorDir)); [|reflexivity].
        rewrite (curDB_stores r w2) by apply MoveFileToDir_stores. reflexivity. }
  assert (Hlen : List.length (files d) = S (List.length (files (curDB r w2)))).
  { unfold archiveTx in Htx. destruct evs'; [discriminate|].
    destruct (List.existsb _ _); [discriminate|]. injection Htx as <-.
    cbn [files]. rewrite length_app. cbn. lia. }
  assert (Hend : forall (sel : ProcessedFile -> bool) (upd : ProcessedFile -> ProcessedFile)
                        (wx : World) (sx : runStats),
            curDB r wx = d -> calls wx = calls w2 ->
            EventsSentOK sx = EventsSentOK stats2 -> EventsSentErr sx = EventsSentErr stats2 ->
            EventsReplayOK sx = EventsReplayOK stats2 ->
            EventsReplayErr sx = EventsReplayErr stats2 ->
            FilesIngested sx = (FilesIngested stats2 + 1)%Z ->
            accounted false r w2 (putDB r (updateFilesWhere sel upd (curDB r wx)) wx) stats2 sx).
  { intros sel upd wx sx Hcur Hcalls H1 H2 H3 H4 H5. exists []. rewrite app_nil_r.
    rewrite putDB_calls, curDB_putDB, Hdb, Hcur. cbn [updateFilesWhere files].
    rewrite length_map, Hlen.
    split; [exact Hcalls|]. split; [constructor|]. unfold okCalls, errCalls. cbn. lia. }
  assert (Hput : curDB r (putDB r d w2) = d) by (rewrite curDB_putDB, Hdb; reflexivity).
  destruct (move && negb (blank errorDir)).
  - pose proof (MoveFileToDir_stores path errorDir (putDB r d w2)) as Hmv.
    pose proof (MoveFileToDir_calls path errorDir (putDB r d w2)) as Hmc.
    rewrite putDB_calls in Hmc.
    destruct (MoveFileToDir path errorDir (putDB r d w2)) as [w3 [dst|mvErr]];
      cbn [fst snd] in *;
      (apply Hend; [eapply putDB_stores_curDB; eassumption|exact Hmc|reflexivity..]).
  - destruct (DeleteAfterSend (cfg r) && allSent).
    + unfold tryDeleteProcessedFile.
      pose proof (os_Remove_spec path (putDB r d w2)) as (Rst & _).
      pose proof (os_Remove_calls path (putDB r d w2)) as Rc. rewrite putDB_calls in Rc.
      destruct (os_Remove path (putDB r d w2)) as [w3 [e|]]; cbn [fst snd] in *;
        (apply Hend; [eapply putDB_stores_curDB; eassumption|exact Rc|reflexivity..]).
    + cbn [fst snd]. exists []. rewrite app_nil_r, putDB_calls, Hput, Hlen.
      split; [reflexivity|]. split; [constructor|]. unfold okCalls, errCalls. cbn. lia.
Qed.

Lemma ingestFile_accounted (r : Runner) (path forced errorDir : string) (deadline : Time)
    (w : World) (stats : runStats) (dbPath : string) :
  db r = Some dbPath ->
  let res := ingestFile r path forced errorDir deadline w stats in
  accounted false r w res.1.1 stats res.1.2.
Proof.
  intros Hdb. unfold ingestFile.
  destruct (fs w !! path) as [[content t|]|]; try apply accounted_refl.
  destruct (Z.of_nat (String.length content) <=? 0)%Z; [apply accounted_refl|].
  destruct (decide (path ∈ unreadable w)).
  { cbn [fst snd]. apply accounted_quiet; try reflexivity.
    - destruct (negb (blank errorDir)); [apply MoveFileToDir_calls|reflexivity].
    - destruct (negb (blank errorDir)); [|reflexivity].
      rewrite (curDB_stores r w) by apply MoveFileToDir_stores. reflexivity. }
  destruct (isAlreadyProcessed r w path _); [apply accounted_refl|].
  destruct (json_Unmarshal content) as [decoded|e];
    [destruct (toEvents _ _ _ _ _ _ _ _) as [evs|e]|];
    apply (archiveAndMarkFile_accounted r path _ _ _ _ deadline _ _ w stats dbPath Hdb).
Qed.

Lemma ingestAll_accounted (r : Runner) (deadline : Time) (dbPath : string)
    (items : list inputItem) :
  db r = Some dbPath ->
  forall (w : World) (stats : runStats),
    let res := ingestAll r deadline items w stats in
    accounted false r w res.1.1 stats res.1.2.
Proof.
  intros Hdb. induction items as [|it rest IH]; intros w stats; cbn [ingestAll fst snd];
    [apply accounted_refl|].
  destruct (isDeadlineExceeded (clock w) deadline); [apply accounted_refl|].
  pose proof (ingestFile_accounted r (itPath it) (itAlertType it) (itErrorDir it)
                deadline w stats dbPath Hdb) as H1.
  destruct (ingestFile r (itPath it) (itAlertType it) (itErrorDir it) deadline w stats)
    as [[w2 stats2] err].
  cbn [fst snd] in *. eapply accounted_trans; [exact H1|apply IH].
Qed.

End Accounting2.

Section Accounting3.

Context `{RT : Runtime}.

Lemma resendLoop_accounted (r : Runner) (deadline : Time) (dbPath : string)
    (pending : list SpoolEvent) :
  db r = Some dbPath ->
  forall (w : World) (stats : runStats),
    let res := resendLoop r deadline pending w stats in
    accounted false r w res.1.1 stats res.1.2.
Proof.
  intros Hdb. induction pending as [|ev rest IH]; intros w stats;
    cbn [resendLoop fst snd]; [apply accounted_refl|].
  destruct (isDeadlineExceeded (clock w) deadline); [apply accounted_refl|].
  set (stats1 := noteLag (clock w) (jsonAnyFromString (EventJSON ev)) stats).
  destruct (noteLag_counters (clock w) (jsonAnyFromString (EventJSON ev)) stats)
    as (N1 & N2 & N3 & N4 & N5 & N6 & N7). fold stats1 in N1, N2, N3, N4, N5, N6, N7.
  match goal with |- context [sendEvent ?l ev deadline w] =>
    pose proof (sendEvent_accounted false r l ev deadline w stats) as Hsend;
    destruct (sendEvent l ev deadline w) as [w2 err] end.
  cbn [fst snd] in *.
  assert (Hput : forall d s2, accounted false r w w2 stats s2 ->
                   List.length (files d) = List.length (files (curDB r w2)) ->
                   accounted false r w (putDB r d w2) stats s2).
  { intros d s2 (new & Hc & Hw & Hn & Hf) Hlen. exists new.
    rewrite putDB_calls, curDB_putDB, Hdb, Hlen. auto. }
  destruct err as [e|].
  - eapply accounted_trans; [|apply IH].
    apply Hput; [apply Hsend; cbn; lia|reflexivity].
  - eapply accounted_trans; [|apply IH].
    apply Hput; [apply Hsend; cbn; lia|reflexivity].
Qed.

Lemma finalizeOne_accounted (r : Runner) (pf : ProcessedFile) (w : World)
    (stats : runStats) :
  let res := finalizeOne r pf w stats in
  accounted false r w res.1 stats res.2.
Proof.
  pose proof (finalizeOne_kept r pf w stats) as (Hcalls & _ & Hlen).
  cbn zeta. apply accounted_quiet; try assumption;
    unfold finalizeOne;
    destruct (Nat.eqb _ 0); try reflexivity;
    destruct (DeleteAfterSend (cfg r) && _ && negb (Deleted pf)); try reflexivity;
    destruct (negb (exists_ (Path pf) _)); try reflexivity;
    destruct (tryDeleteProcessedFile r (Path pf) (SHA256 pf) _) as [w2 [e|]]; reflexivity.
Qed.

Lemma finalizeLoop_accounted (r : Runner) (pfs : list ProcessedFile) :
  forall (w : World) (stats : runStats),
    let res := finalizeLoop r pfs w stats in
    accounted false r w res.1 stats res.2.
Proof.
  induction pfs as [|pf rest IH]; intros w stats; cbn [finalizeLoop];
    [apply accounted_refl|].
  pose proof (finalizeOne_accounted r pf w stats) as H1.
  destruct (finalizeOne r pf w stats) as [w1 stats1]. cbn [fst snd] in *.
  eapply accounted_trans; [exact H1|apply IH].
Qed.

Lemma replayEvents_accounted (r : Runner) (deadline : Time) (evs : list SpoolEvent) :
  forall (w : World) (stats : runStats),
    let res := replayEvents r deadline evs w stats in
    accounted true r w res.1.1 stats res.1.2.
Proof.
  induction evs as [|ev rest IH]; intros w stats; cbn [replayEvents fst snd];
    [apply accounted_refl|].
  destruct (isDeadlineExceeded (clock w) deadline); [apply accounted_refl|].
  set (stats1 := noteLag (clock w) (jsonAnyFromString (EventJSON ev)) stats).
  destruct (noteLag_counters (clock w) (jsonAnyFromString (EventJSON ev)) stats)
    as (N1 & N2 & N3 & N4 & N5 & N6 & N7). fold stats1 in N1, N2, N3, N4, N5, N6, N7.
  match goal with |- context [sendEvent ?l ev deadline w] =>
    pose proof (sendEvent_accounted true r l ev deadline w stats) as Hsend;
    destruct (sendEvent l ev deadline w) as [w2 err] end.
  cbn [fst snd] in *.
  destruct err as [e|]; (eapply accounted_trans; [|apply IH]); apply Hsend; cbn; lia.
Qed.

Lemma replayDBs_accounted (r : Runner) (from deadline : Time) (dbPaths : list string) :
  forall (w : World) (stats : runStats),
    let res := replayDBs r from deadline dbPaths w stats in
    accounted true r w res.1.1 stats res.1.2.
Proof.
  induction dbPaths as [|p rest IH]; intros w stats; cbn [replayDBs fst snd];
    [apply accounted_refl|].
  destruct (isDeadlineExceeded (clock w) deadline); [apply accounted_refl|].
  destruct (decide (p ∈ unopenable w)); [apply accounted_refl|].
  match goal with |- context [replayEvents r deadline ?evs w stats] =>
    pose proof (replayEvents_accounted r deadline evs w stats) as H1;
    destruct (replayEvents r deadline evs w stats) as [[w2 stats2] [e|]] end;
    cbn [fst snd] in *; [exact H1|].
  eapply accounted_trans; [exact H1|apply IH].
Qed.

Lemma replayFrom_accounted (r : Runner) (from deadline : Time) (w : World)
    (stats : runStats) :
  let res := replayFrom r from deadline w stats in
  accounted true r w res.1.1 stats res.1.2.
Proof.
  unfold replayFrom.
  destruct (blank (DBFolder (cfg r))); [apply accounted_refl|].
  destruct (blank (DBPrefix (cfg r))); [apply accounted_refl|].
  destruct (listMonthlyDBs _ _ from (clock w) w); [|apply accounted_refl].
  apply replayDBs_accounted.
Qed.

(** The body of a cycle, from the world [ensureDBForNow] leaves. *)
Lemma runBody_accounted (r : Runner) (deadline : Time) (w : World) (stats : runStats) :
  let r1 := (ensureDBForNow r w).1.1 in
  let w1 := (ensureDBForNow r w).1.2 in
  let res := runBody r deadline w stats in
  accounted (negb (IsZero (ReplayFrom (cfg r)))) r1 w1 res.1.1.2 stats res.1.2.
Proof.
  pose proof (ensureDBForNow_opens r w) as Hopen.
  destruct (ensureDBForNow_keeps r w) as (_ & _ & _ & Hfrom & _).
  unfold runBody.
  destruct (ensureDBForNow r w) as [[r1 w1] [err|]]; cbn [fst snd] in *;
    [apply accounted_refl|].
  destruct (Hopen eq_refl) as [dbPath Hdb]. rewrite Hfrom.
  destruct (negb (IsZero (ReplayFrom (cfg r)))).
  { pose proof (replayFrom_accounted r1 (ReplayFrom (cfg r)) deadline w1 stats) as H.
    destruct (replayFrom r1 (ReplayFrom (cfg r)) deadline w1 stats) as [[w2 s2] e2].
    exact H. }
  destruct (expandGlobs (InputGlobs (cfg r1)) w1) as [paths|err]; [|apply accounted_refl].
  pose proof (ingestAll_accounted r1 deadline dbPath
                (List.map (fun p => mkInputItem p EmptyString EmptyString) paths)
                Hdb w1 stats) as H2.
  destruct (ingestAll r1 deadline _ w1 stats) as [[w2 s2] late]. cbn [fst snd] in H2.
  destruct late; [exact H2|].
  destruct (expandInputs (Inputs (cfg r1)) w2) as [items|err]; [|exact H2].
  pose proof (ingestAll_accounted r1 deadline dbPath items Hdb w2 s2) as H3.
  destruct (ingestAll r1 deadline items w2 s2) as [[w3 s3] late]. cbn [fst snd] in H3.
  assert (H13 : accounted false r1 w1 w3 stats s3) by (eapply accounted_trans; eassumption).
  destruct late; [exact H13|].
  destruct (isDeadlineExceeded (clock w3) deadline); [exact H13|].
  pose proof (resendLoop_accounted r1 deadline dbPath
                (List.filter (fun e => negb (SentSyslog e)) (events (curDB r1 w3)))
                Hdb w3 s3) as H4.
  fold (resendPending r1 deadline w3 s3) in H4.
  destruct (resendPending r1 deadline w3 s3) as [[w4 s4] err]. cbn [fst snd] in H4.
  assert (H14 : accounted false r1 w1 w4 stats s4) by (eapply accounted_trans; eassumption).
  destruct err as [e|]; [exact H14|].
  destruct (isDeadlineExceeded (clock w4) deadline); [exact H14|].
  pose proof (finalizeLoop_accounted r1
                (List.filter (fun f => negb (AllSent f) || negb (Deleted f))
                             (files (curDB r1 w4))) w4 s4) as H5.
  fold (finalizeFiles r1 w4 s4) in H5.
  destruct (finalizeFiles r1 w4 s4) as [w5 s5]. cbn [fst snd] in *.
  eapply accounted_trans; eassumption.
Qed.

End Accounting3.

Section Accounting4.

Context `{RT : Runtime}.


(** Every call a cycle makes, the heartbeat included, goes out under the
    application name [alert-spooler] with a timeout that is positive and at
    most three seconds. *)
Theorem RunOnce_calls_are_bounded (r : Runner) (w : World) :
  exists new, calls (RunOnce r w).1.2 = calls w ++ new /\ Forall callWellFormed new.
Proof.
  unfold RunOnce.
  set (deadline := if (0 <? Timeout (cfg r))%Z then Add (clock w) (Timeout (cfg r)) else 0%Z).
  destruct (runBody_accounted r deadline w zeroStats) as (new & Hc & Hw & _).
  destruct (ensureDBForNow_grows r w) as (Hc1 & _). rewrite Hc1 in Hc.
  destruct (runBody r deadline w zeroStats) as [[[r2 w2] s2] e2]. cbn [fst snd] in *.
  destruct (blank (DeadmanToken (cfg r2))); cbn [fst snd].
  - exists new. auto.
  - eexists (new ++ [_]). unfold sendDeadman, SendRFC5424Timeout. cbn [fst calls].
    rewrite Hc, app_assoc. split; [reflexivity|].
    apply Forall_app. split; [exact Hw|]. constructor; [|constructor].
    split; [reflexivity|]. apply remainingTimeout_bounds.
Qed.

End Accounting4.

(** ** Building the events of a file *)

Section ToEvents.

Context `{RT : Runtime}.

Lemma toEvents_range_lookup (c : RunnerConfig) (raw path st at_ sha : string) (now : Time)
    (items : list json) :
  forall (i : Z) (k : nat),
    toEvents_range c i items raw path st at_ sha now !! k
    = (fun item =>
         match buildEvent c item raw path st at_ sha (i + Z.of_nat k)%Z now with
         | Ok ev => ev
         | Err e => newErrorEvent now path st at_ sha raw e
         end) <$> items !! k.
Proof.
  induction items as [|item rest IH]; intros i k; [reflexivity|].
  destruct k as [|k]; cbn [toEvents_range].
  - cbn. rewrite Z.add_0_r. reflexivity.
  - cbn [lookup list_lookup]. rewrite IH.
    replace (i + 1 + Z.of_nat k)%Z with (i + Z.of_nat (S k))%Z by lia. reflexivity.
Qed.

Lemma toEvents_range_length (c : RunnerConfig) (raw path st at_ sha : string) (now : Time)
    (items : list json) :
  forall i, List.length (toEvents_range c i items raw path st at_ sha now)
            = List.length items.
Proof. induction items as [|item rest IH]; intros i; cbn; [|rewrite IH]; reflexivity. Qed.

(** A file that holds an array never fails as a whole: it yields one event
    per element, in order.  Element [k] yields the event built from it with
    index [k]; when that build fails, an error event that carries the raw
    file stands in its place. *)
Theorem toEvents_array_yields_one_event_per_element (c : RunnerConfig) (items : list json)
    (raw path st at_ sha : string) (now : Time) :
  exists evs,
    toEvents c (JArray items) raw path st at_ sha now = Ok evs
    /\ List.length evs = List.length items
    /\ forall k, evs !! k
                 = (fun item =>
                      match buildEvent c item raw path st at_ sha (Z.of_nat k) now with
                      | Ok ev => ev
                      | Err e => newErrorEvent now path st at_ sha raw e
                      end) <$> items !! k.
Proof.
  eexists. split; [reflexivity|]. split; [apply toEvents_range_length|].
  intros k. rewrite toEvents_range_lookup. reflexivity.
Qed.

End ToEvents.

Section EventFields.

Context `{RT : Runtime}.

(** The level is always one of the three values of the label. *)
Lemma NormalizeAlertLevel_range (v : string) : NormalizeAlertLevel v ∈ alertLevels.
Proof.
  unfold NormalizeAlertLevel, alertLevels. cbv zeta.
  destruct (List.existsb _ _); [set_solver|]. destruct (List.existsb _ _); set_solver.
Qed.

Lemma ExtractAlertLevel_range (item : json) (sourcePath : string) :
  ExtractAlertLevel item sourcePath ∈ alertLevels.
Proof.
  assert (Hext : levelOfExt sourcePath ∈ alertLevels).
  { unfold levelOfExt, alertLevels. cbv zeta.
    destruct (String.eqb _ ".warn"); [set_solver|]. destruct (String.eqb _ ".alarm"); set_solver. }
  unfold ExtractAlertLevel. destruct item; try exact Hext.
  destruct (firstLevelKey _ _); [apply NormalizeAlertLevel_range|exact Hext].
Qed.

Lemma buildEvent_fresh (c : RunnerConfig) (item : json)
    (raw path st at_ sha : string) (idx : Z) (now : Time) (ev : SpoolEvent) :
  buildEvent c item raw path st at_ sha idx now = Ok ev ->
  freshEventOf path sha raw now ev /\ EventIndex ev = idx /\ SendError ev = EmptyString.
Proof.
  unfold buildEvent.
  destruct (json_Marshal item); [|discriminate].
  destruct (json_Marshal (JObject _)); [|discriminate].
  intros [= <-]. unfold freshEventOf. cbn. repeat split. apply ExtractAlertLevel_range.
Qed.

Lemma newErrorEvent_fresh (now : Time) (path st at_ sha raw e : string) :
  freshEventOf path sha raw now (newErrorEvent now path st at_ sha raw e).
Proof. unfold freshEventOf, alertLevels. cbn. repeat split. set_solver. Qed.

Lemma toEvents_range_fresh (c : RunnerConfig) (raw path st at_ sha : string) (now : Time)
    (items : list json) :
  forall i, Forall (freshEventOf path sha raw now)
                   (toEvents_range c i items raw path st at_ sha now).
Proof.
  induction items as [|item rest IH]; intros i; cbn [toEvents_range]; constructor.
  - destruct (buildEvent c item raw path st at_ sha i now) as [ev|e] eqn:Hb.
    + apply (buildEvent_fresh _ _ _ _ _ _ _ _ _ _ Hb).
    + apply newErrorEvent_fresh.
  - apply IH.
Qed.

(** Whatever a file decodes to, the events built from it belong to it: each
    names the file's path and digest and carries its raw content, is stamped
    with the time of the build, starts unsent, and has one of the three
    alert levels - the error events that stand in for elements that could
    not be built included. *)
Theorem toEvents_events_belong_to_the_file (c : RunnerConfig) (decoded : json)
    (raw path st at_ sha : string) (now : Time) (evs : list SpoolEvent) :
  toEvents c decoded raw path st at_ sha now = Ok evs ->
  Forall (freshEventOf path sha raw now) evs
  /\ ((forall items, decoded <> JArray items) ->
      exists ev, evs = [ev] /\ EventIndex ev = 0%Z /\ SendError ev = EmptyString).
Proof.
  assert (Hone : forall v,
            match buildEvent c v raw path st at_ sha 0%Z now with
            | Err e => Err e
            | Ok ev => Ok [ev]
            end = Ok evs ->
            Forall (freshEventOf path sha raw now) evs
            /\ exists ev, evs = [ev] /\ EventIndex ev = 0%Z /\ SendError ev = EmptyString).
  { intros v. destruct (buildEvent c v raw path st at_ sha 0%Z now) as [ev|e] eqn:Hb;
      [|discriminate].
    intros [= <-]. destruct (buildEvent_fresh _ _ _ _ _ _ _ _ _ _ Hb) as (Hf & Hi & He).
    split; [constructor; [exact Hf|constructor]|]. eauto. }
  unfold toEvents.
  destruct decoded; try (intros H; destruct (Hone _ H) as [Hf Hex]; split; [exact Hf|];
                         intros _; exact Hex).
  intros [= <-]. split; [apply toEvents_range_fresh|].
  intros Hne. exfalso. exact (Hne _ eq_refl).
Qed.

End EventFields.

Lemma toEvents_events_belong_to_the_file_witness :
  exists evs,
    @toEvents sampleRuntime sampleConfig (JObject [("detail", JString "{x}")])
      "{x}" "/in/general/fail.warn" "warn" "general" "00" sampleNow = Ok evs
    /\ Forall (freshEventOf "/in/general/fail.warn" "00" "{x}" sampleNow) evs.
Proof.
  destruct (@toEvents sampleRuntime sampleConfig (JObject [("detail", JString "{x}")])
              "{x}" "/in/general/fail.warn" "warn" "general" "00" sampleNow) as [evs|e] eqn:H.
  - exists evs. split; [reflexivity|].
    apply (@toEvents_events_belong_to_the_file sampleRuntime _ _ _ _ _ _ _ _ _ H).
  - vm_compute in H. discriminate H.
Defined.

(** ** Expanding the input patterns *)

Lemma addUnseen_spec {A} (mk : string -> A) (ms : list string) :
  forall (seen : gset string),
    exists kept,
      (addUnseen mk ms seen).1 = mk <$> kept
      /\ NoDup kept
      /\ (forall m, m ∈ kept <-> m ∈ ms /\ m ∉ seen)
      /\ (addUnseen mk ms seen).2 = list_to_set ms ∪ seen.
Proof.
  induction ms as [|m rest IH]; intros seen; cbn [addUnseen].
  - exists []. split; [reflexivity|]. split; [constructor|]. split; [|set_solver].
    intros m. split; [intros H; inversion H|intros [H _]; inversion H].
  - destruct (decide (m ∈ seen)) as [Hin|Hout].
    + destruct (IH seen) as (kept & Hout & Hnd & Hk & Hs).
      exists kept. split; [exact Hout|]. split; [exact Hnd|]. split; [|set_solver].
      intros x. rewrite Hk, elem_of_cons. split; [tauto|].
      intros [[->|H] Hx]; [contradiction|tauto].
    + destruct (IH ({[m]} ∪ seen)) as (kept & Hout' & Hnd & Hk & Hs).
      destruct (addUnseen mk rest ({[m]} ∪ seen)) as [out seen'] eqn:Hrest.
      cbn [fst snd] in *. exists (m :: kept).
      split; [rewrite Hout'; reflexivity|]. split.
      * constructor; [|exact Hnd]. intros Hm. apply Hk in Hm as [_ Hm]. set_solver.
      * split; [|set_solver]. intros x. rewrite !elem_of_cons, Hk. split.
        -- intros [->|[Hx Hnot]]; [tauto|]. split; [tauto|set_solver].
        -- intros [[->|Hx] Hnot]; [tauto|].
           destruct (decide (x = m)) as [->|Hne]; [tauto|]. right. split; [exact Hx|set_solver].
Qed.

Section Expand.

Context `{RT : Runtime}.

Lemma expandInputs_from_spec (inputs : list InputSpec) (w : World) :
  forall (seen : gset string) (items : list inputItem),
    expandInputs_from inputs seen w = Ok items ->
    NoDup (itPath <$> items)
    /\ (forall it, it ∈ items -> itPath it ∉ seen)
    /\ (forall k i ms m,
          inputs !! k = Some i -> blank (Glob i) = false ->
          expandGlobWithDoubleStar (Glob i) (fs w) = Ok ms -> m ∈ ms -> m ∉ seen ->
          ~ matchedBefore inputs w k m ->
          mkInputItem m (inAlertType i) (inErrorDir i) ∈ items)
    /\ (forall it, it ∈ items ->
          exists k i ms,
            inputs !! k = Some i /\ blank (Glob i) = false
            /\ expandGlobWithDoubleStar (Glob i) (fs w) = Ok ms /\ itPath it ∈ ms
            /\ ~ matchedBefore inputs w k (itPath it)
            /\ it = mkInputItem (itPath it) (inAlertType i) (inErrorDir i)).
Proof.
  induction inputs as [|i0 rest IH]; intros seen items; cbn [expandInputs_from].
  - intros [= <-]. split; [constructor|]. split; [intros it H; inversion H|].
    split; [intros k i ms m H; inversion H|intros it H; inversion H].
  - destruct (blank (Glob i0)) eqn:Hblank.
    + intros Hrest. destruct (IH seen items Hrest) as (Hnd & Hseen & Hfirst & Hsound).
      split; [exact Hnd|]. split; [exact Hseen|]. split.
      * intros [|k] i ms m Hk Hnb Hms Hm Hnot Hbefore.
        { injection Hk as <-. congruence. }
        apply (Hfirst k i ms m Hk Hnb Hms Hm Hnot).
        intros (j & i' & ms' & Hlt & Hj & Hnb' & Hms' & Hm').
        apply Hbefore. exists (S j), i', ms'. split; [lia|]. auto.
      * intros it Hit. destruct (Hsound it Hit) as (k & i & ms & Hk & Hnb & Hms & Hm & Hb & Heq).
        exists (S k), i, ms. split; [exact Hk|]. split; [exact Hnb|]. split; [exact Hms|].
        split; [exact Hm|]. split; [|exact Heq].
        intros (j & i' & ms' & Hlt & Hj & Hnb' & Hms' & Hm').
        destruct j as [|j]; [injection Hj as <-; congruence|].
        apply Hb. exists j, i', ms'. split; [lia|]. auto.
    + destruct (expandGlobWithDoubleStar (Glob i0) (fs w)) as [ms0|e] eqn:Hms0; [|discriminate].
      destruct (addUnseen_spec (fun m => mkInputItem m (inAlertType i0) (inErrorDir i0))
                  ms0 seen) as (kept & Hout & Hnd0 & Hkept & Hseen').
      destruct (addUnseen _ ms0 seen) as [out seen'] eqn:Hadd. cbn [fst snd] in *.
      destruct (expandInputs_from rest seen' w) as [more|e] eqn:Hmore; [|discriminate].
      intros [= <-].
      destruct (IH seen' more Hmore) as (Hnd & Hseen & Hfirst & Hsound).
      assert (Hpaths : itPath <$> out = kept).
      { rewrite Hout, <- list_fmap_compose. apply list_fmap_id. }
      split; [|split; [|split]].
      * rewrite fmap_app, Hpaths. apply NoDup_app. split; [exact Hnd0|]. split; [|exact Hnd].
        intros m Hm Hm'. apply list_elem_of_fmap in Hm' as (it & -> & Hit).
        apply (Hseen it Hit). rewrite Hseen'. apply Hkept in Hm. set_solver.
      * intros it [Hit|Hit]%elem_of_app.
        -- rewrite Hout in Hit. apply list_elem_of_fmap in Hit as (m & -> & Hm).
           apply Hkept in Hm. tauto.
        -- specialize (Hseen it Hit). rewrite Hseen' in Hseen. set_solver.
      * intros [|k] i ms m Hk Hnb Hms Hm Hnot Hbefore.
        -- injection Hk as <-. apply elem_of_app. left. rewrite Hout.
           apply list_elem_of_fmap. exists m. split; [reflexivity|].
           apply Hkept. split; [congruence|exact Hnot].
        -- apply elem_of_app. right. apply (Hfirst k i ms m Hk Hnb Hms Hm).
           ++ rewrite Hseen'. intros [Hin|Hin]%elem_of_union; [|contradiction].
              apply Hbefore. exists 0, i0, ms0. split; [lia|]. split; [reflexivity|].
              split; [exact Hblank|]. split; [exact Hms0|]. apply elem_of_list_to_set in Hin.
              exact Hin.
           ++ intros (j & i' & ms' & Hlt & Hj & Hnb' & Hms' & Hm').
              apply Hbefore. exists (S j), i', ms'. split; [lia|]. auto.
      * intros it [Hit|Hit]%elem_of_app.
        -- rewrite Hout in Hit. apply list_elem_of_fmap in Hit as (m & -> & Hm).
           apply Hkept in Hm as [Hm Hnot].
           exists 0, i0, ms0. split; [reflexivity|]. split; [exact Hblank|].
           split; [exact Hms0|]. split; [exact Hm|]. split; [|reflexivity].
           intros (j & _ & _ & Hlt & _). lia.
        -- destruct (Hsound it Hit) as (k & i & ms & Hk & Hnb & Hms & Hm & Hb & Heq).
           exists (S k), i, ms. split; [exact Hk|]. split; [exact Hnb|]. split; [exact Hms|].
           split; [exact Hm|]. split; [|exact Heq].
           intros (j & i' & ms' & Hlt & Hj & Hnb' & Hms' & Hm').
           destruct j as [|j].
           ++ injection Hj as <-. rewrite Hms0 in Hms'. injection Hms' as <-.
              apply (Hseen it Hit). rewrite Hseen'. set_solver.
           ++ apply Hb. exists j, i', ms'. split; [lia|]. auto.
Qed.

(** The items [expandInputs] hands to the ingestion loop: each path once;
    a path that several inputs match is ingested under the first of them
    whose pattern is not blank, with that input's alert type and error
    directory; and every item is such a first match. *)
Theorem expandInputs_takes_each_path_once_under_its_first_input
    (inputs : list InputSpec) (w : World) (items : list inputItem) :
  expandInputs inputs w = Ok items ->
  NoDup (itPath <$> items)
  /\ (forall k i ms m,
        inputs !! k = Some i -> blank (Glob i) = false ->
        expandGlobWithDoubleStar (Glob i) (fs w) = Ok ms -> m ∈ ms ->
        ~ matchedBefore inputs w k m ->
        mkInputItem m (inAlertType i) (inErrorDir i) ∈ items)
  /\ (forall it, it ∈ items ->
        exists k i ms,
          inputs !! k = Some i /\ blank (Glob i) = false
          /\ expandGlobWithDoubleStar (Glob i) (fs w) = Ok ms /\ itPath it ∈ ms
          /\ ~ matchedBefore inputs w k (itPath it)
          /\ it = mkInputItem (itPath it) (inAlertType i) (inErrorDir i)).
Proof.
  intros H. destruct (expandInputs_from_spec inputs w ∅ items H) as (Hnd & _ & Hfirst & Hsound).
  split; [exact Hnd|]. split; [|exact Hsound].
  intros k i ms m Hk Hnb Hms Hm Hb. apply (Hfirst k i ms m Hk Hnb Hms Hm); [set_solver|exact Hb].
Qed.

End Expand.

Lemma expandInputs_takes_each_path_once_under_its_first_input_witness :
  exists items,
    @expandInputs sampleRuntime (Inputs sampleConfig) (sampleWorld []) = Ok items
    /\ NoDup (itPath <$> items)
    /\ mkInputItem "/in/general/fail.warn" "general" EmptyString ∈ items.
Proof.
  assert (H : @expandInputs sampleRuntime (Inputs sampleConfig) (sampleWorld [])
              = Ok [mkInputItem "/in/general/fail.warn" "general" EmptyString])
    by (vm_compute; reflexivity).
  eexists. split; [exact H|].
  destruct (@expandInputs_takes_each_path_once_under_its_first_input sampleRuntime _ _ _ H)
    as (Hnd & Hfirst & _).
  split; [exact Hnd|].
  apply (Hfirst 0 (mkInputSpec "/in/general/fail.warn" "general" EmptyString)
           ["/in/general/fail.warn"] "/in/general/fail.warn");
    [reflexivity|reflexivity|vm_compute; reflexivity|apply list_elem_of_here|].
  intros (j & _ & _ & Hlt & _). lia.
Defined.

(** ** The monthly stores: naming and selection *)

Lemma allFrom_spec (p : Z -> bool) (n : nat) :
  forall z, allFrom n z p = true ->
            forall x, (z <= x < z + Z.of_nat n)%Z -> p x = true.
Proof.
  induction n as [|n IH]; intros z Hall x Hx; [lia|].
  cbn [allFrom] in Hall. apply andb_true_iff in Hall as [Hz Hrest].
  destruct (Z.eq_dec x z) as [->|Hne]; [exact Hz|].
  apply (IH (z + 1)%Z Hrest). lia.
Qed.

Lemma fourDigitsOK_all : allFrom (Z.to_nat 10000) 0 fourDigitsOK = true.
Proof. vm_compute. reflexivity. Qed.

Lemma twoDigitsOK_all : allFrom (Z.to_nat 12) 1 twoDigitsOK = true.
Proof. vm_compute. reflexivity. Qed.

Lemma monthOfEraDay_range (doe : Z) :
  (0 <= doe < 146097)%Z -> (1 <= monthOfEraDay doe <= 12)%Z.
Proof.
  intros Hd. unfold monthOfEraDay. cbv zeta.
  destruct (_ <? 10)%Z eqn:Hmp; [apply Z.ltb_lt in Hmp|apply Z.ltb_ge in Hmp];
    Z.to_euclidean_division_equations; lia.
Qed.

Lemma monthName_eq (t : Time) :
  padZeros 4 (Year t) +:+ padZeros 2 (Month t) = monthName t.
Proof. unfold monthName. reflexivity. Qed.

(** The month of an instant is between 1 and 12. *)
Lemma Month_range (t : Time) : (1 <= Month t <= 12)%Z.
Proof.
  set (z := (t / nsPerDay + 306)%Z).
  assert (Hm : Month t = monthOfEraDay (z mod 146097)).
  { unfold Month, civil, monthOfEraDay. cbn [snd]. fold z.
    replace (z - z / 146097 * 146097)%Z with (z mod 146097)%Z
      by (rewrite Z.mod_eq by lia; lia).
    reflexivity. }
  rewrite Hm. apply monthOfEraDay_range. apply Z.mod_pos_bound. lia.
Qed.

(** The name of a month reads back as the month, for the years that have
    four digits. *)
Lemma monthName_reads_back (t : Time) :
  (0 <= Year t <= 9999)%Z ->
  String.length (monthName t) = 6
  /\ parseYYYYMM (monthName t) = Some (Year t, Month t).
Proof.
  intros Hy. pose proof (Month_range t) as Hm. unfold monthName.
  pose proof (allFrom_spec _ _ _ fourDigitsOK_all (Year t)) as H4.
  rewrite Z2Nat.id in H4 by lia. specialize (H4 ltac:(lia)).
  pose proof (allFrom_spec _ _ _ twoDigitsOK_all (Month t)) as H2.
  rewrite Z2Nat.id in H2 by lia. specialize (H2 ltac:(lia)).
  unfold fourDigitsOK in H4. unfold twoDigitsOK in H2.
  destruct (padZeros 4 (Year t)) as [|y1 [|y2 [|y3 [|y4 [|]]]]]; try discriminate.
  destruct (padZeros 2 (Month t)) as [|m1 [|m2 [|]]]; try discriminate.
  apply andb_true_iff in H4 as [Hd4 Hv4%Z.eqb_eq].
  apply andb_true_iff in H2 as [Hd2 Hv2%Z.eqb_eq].
  split; [reflexivity|].
  cbn [List.forallb] in Hd4, Hd2.
  apply andb_true_iff in Hd4 as [D1 Hd4]. apply andb_true_iff in Hd4 as [D2 Hd4].
  apply andb_true_iff in Hd4 as [D3 Hd4]. apply andb_true_iff in Hd4 as [D4 _].
  apply andb_true_iff in Hd2 as [D5 Hd2]. apply andb_true_iff in Hd2 as [D6 _].
  change (parseYYYYMM (String y1 (String y2 (String y3 (String y4 (String m1 (String m2 EmptyString))))))
          = Some (Year t, Month t)).
  unfold parseYYYYMM. cbn [List.forallb]. rewrite D1, D2, D3, D4, D5, D6. cbn [andb].
  rewrite Hv4, Hv2.
  replace ((1 <=? Month t)%Z && (Month t <=? 12)%Z) with true; [reflexivity|].
  symmetry. apply andb_true_iff. split; apply Z.leb_le; lia.
Qed.

Lemma prefix_append (p s : string) : String.prefix p (p +:+ s) = true.
Proof.
  induction p as [|c p IH]; [destruct s; reflexivity|].
  change (String c p +:+ s) with (String c (p +:+ s)). cbn [String.prefix].
  destruct (ascii_dec c c) as [_|Hne]; [exact IH|congruence].
Qed.

Lemma drop_append (p s : string) : GoStr.drop (String.length p) (p +:+ s) = s.
Proof.
  induction p as [|c p IH]; [destruct s; reflexivity|].
  change (String c p +:+ s) with (String c (p +:+ s)). exact IH.
Qed.

Lemma take_append (p s : string) : GoStr.take (String.length p) (p +:+ s) = p.
Proof.
  induction p as [|c p IH]; [destruct s; reflexivity|].
  change (String c p +:+ s) with (String c (p +:+ s)). cbn [String.length GoStr.take].
  now rewrite IH.
Qed.

Lemma length_append (p s : string) :
  String.length (p +:+ s) = String.length p + String.length s.
Proof.
  induction p as [|c p IH]; [reflexivity|].
  change (String c p +:+ s) with (String c (p +:+ s)). cbn [String.length]. now rewrite IH.
Qed.

Lemma rev_go_append (s acc : string) : GoStr.rev_go acc s = GoStr.rev s +:+ acc.
Proof.
  revert acc. induction s as [|c s IH]; intros acc; [reflexivity|].
  unfold GoStr.rev. cbn [GoStr.rev_go]. rewrite (IH (String c acc)), (IH (String c EmptyString)).
  rewrite append_assoc. reflexivity.
Qed.

Lemma rev_of_append (a b : string) : GoStr.rev (a +:+ b) = GoStr.rev b +:+ GoStr.rev a.
Proof.
  induction a as [|x a IH]; [cbn; now rewrite append_empty_r|].
  change (String x a +:+ b) with (String x (a +:+ b)).
  unfold GoStr.rev at 1 3. cbn [GoStr.rev_go].
  rewrite !rev_go_append, IH. now rewrite append_assoc.
Qed.

Lemma HasSuffix_app (s p : string) : GoStr.HasSuffix (s +:+ p) p = true.
Proof. unfold GoStr.HasSuffix. rewrite rev_of_append. apply prefix_append. Qed.

Lemma TrimSuffix_app (s p : string) : GoStr.TrimSuffix (s +:+ p) p = s.
Proof.
  unfold GoStr.TrimSuffix. rewrite HasSuffix_app, length_append.
  replace (String.length s + String.length p - String.length p) with (String.length s) by lia.
  apply take_append.
Qed.

Lemma TrimPrefix_app (p s : string) : GoStr.TrimPrefix (p +:+ s) p = s.
Proof. unfold GoStr.TrimPrefix, GoStr.HasPrefix. rewrite prefix_append. apply drop_append. Qed.

Section MonthlyStores.

Context `{RT : Runtime}.

(** A database file named after the month of an instant is taken by the
    replay's selection exactly when that month lies in the range asked for:
    the name that [ensureDBForNow] writes is the name that [listMonthlyDBs]
    reads. *)
Lemma isMonthlyDB_selects_the_months_in_range
    (prefix p : string) (fromKey toKey : Z) (t : Time) :
  (0 <= Year t <= 9999)%Z ->
  Filepath.Base p = prefix +:+ monthName t +:+ ".db" ->
  isMonthlyDB prefix fromKey toKey p = true <-> (fromKey <= monthKey t <= toKey)%Z.
Proof.
  intros Hy Hbase. destruct (monthName_reads_back t Hy) as [Hlen Hparse].
  unfold isMonthlyDB. cbv zeta. rewrite Hbase.
  unfold GoStr.HasPrefix at 1. rewrite prefix_append.
  rewrite <- append_assoc at 1. rewrite HasSuffix_app. cbn [negb orb].
  rewrite TrimPrefix_app, TrimSuffix_app, Hlen, Hparse. cbn [Nat.eqb negb].
  fold (monthKey t). rewrite negb_true_iff, orb_false_iff, !Z.ltb_ge. reflexivity.
Qed.

(** A file whose name is not the prefix, six digits of a month and ".db"
    is never taken. *)
Lemma isMonthlyDB_reads_the_name (prefix p : string) (fromKey toKey : Z) :
  isMonthlyDB prefix fromKey toKey p = true ->
  exists y m, (1 <= m <= 12)%Z /\ (0 <= y <= 9999)%Z
    /\ (fromKey <= y * 100 + m <= toKey)%Z
    /\ GoStr.HasPrefix (Filepath.Base p) prefix = true
    /\ GoStr.HasSuffix (Filepath.Base p) ".db" = true
    /\ parseYYYYMM (GoStr.TrimSuffix (GoStr.TrimPrefix (Filepath.Base p) prefix) ".db")
       = Some (y, m).
Proof.
  unfold isMonthlyDB. cbv zeta.
  destruct (GoStr.HasPrefix _ prefix); [|discriminate].
  destruct (GoStr.HasSuffix _ ".db"); [|discriminate]. cbn [negb orb].
  destruct (negb _); [discriminate|].
  destruct (parseYYYYMM _) as [[y m]|] eqn:Hparse; [|discriminate].
  intros Hin. rewrite negb_true_iff, orb_false_iff, !Z.ltb_ge in Hin.
  exists y, m. repeat split; try tauto; try lia.
  all: revert Hparse; unfold parseYYYYMM;
    destruct (GoStr.TrimSuffix _ _) as [|y1 [|y2 [|y3 [|y4 [|m1 [|m2 [|]]]]]]]; try discriminate;
    destruct (List.forallb _ _) eqn:Hd; [|discriminate]; cbv zeta;
    destruct (_ && _)%bool eqn:Hm; [|discriminate];
    intros [= <- <-]; apply andb_true_iff in Hm as [H1%Z.leb_le H2%Z.leb_le]; try lia.
  all: cbn [List.forallb] in Hd; repeat (apply andb_true_iff in Hd as [? Hd]);
    repeat match goal with
    | H : GoStr.isDigit ?c = true |- _ =>
      unfold GoStr.isDigit in H; apply andb_true_iff in H as [?%N.leb_le ?%N.leb_le]
    end; unfold digitVal; lia.
Qed.

(** The databases of a replay: the candidates of the folder whose name is
    the prefix, the six digits of a month between those of [from] and [to],
    and ".db" - each as often as it is a candidate, in ascending order of
    the paths.  A candidate named after the month of an instant in the range
    is among them. *)
Theorem listMonthlyDBs_takes_the_months_in_range_in_order
    (folder prefix : string) (from to : Time) (w : World) (dbPaths : list string) :
  listMonthlyDBs folder prefix from to w = Ok dbPaths ->
  exists candidates,
    filepath_Glob (filepath_Join folder (prefix +:+ "*.db"))
                  (List.map fst (map_to_list (stores w))) = Ok candidates
    /\ Sorted String.le dbPaths
    /\ dbPaths ≡ₚ List.filter (isMonthlyDB prefix (monthKey from) (monthKey to)) candidates
    /\ (forall p, p ∈ dbPaths ->
          p ∈ candidates
          /\ exists y m, (1 <= m <= 12)%Z /\ (0 <= y <= 9999)%Z
               /\ (monthKey from <= y * 100 + m <= monthKey to)%Z
               /\ GoStr.HasPrefix (Filepath.Base p) prefix = true
               /\ GoStr.HasSuffix (Filepath.Base p) ".db" = true
               /\ parseYYYYMM (GoStr.TrimSuffix (GoStr.TrimPrefix (Filepath.Base p) prefix)
                                                ".db") = Some (y, m))
    /\ (forall p t, p ∈ candidates -> (0 <= Year t <= 9999)%Z ->
          Filepath.Base p = prefix +:+ monthName t +:+ ".db" ->
          (monthKey from <= monthKey t <= monthKey to)%Z ->
          p ∈ dbPaths).
Proof.
  unfold listMonthlyDBs. cbv zeta.
  destruct (filepath_Glob _ _) as [candidates|e]; [|discriminate].
  intros [= <-]. exists candidates. split; [reflexivity|].
  assert (Hperm : sortStrings
                    (List.filter (isMonthlyDB prefix (monthKey from) (monthKey to)) candidates)
                  ≡ₚ List.filter (isMonthlyDB prefix (monthKey from) (monthKey to)) candidates)
    by apply merge_sort_Permutation.
  split; [apply Sorted_merge_sort; apply _|]. split; [exact Hperm|]. split.
  - intros p Hp. rewrite Hperm in Hp.
    apply list_elem_of_In, filter_In in Hp as [Hp Hsel].
    split; [apply list_elem_of_In; exact Hp|].
    apply isMonthlyDB_reads_the_name in Hsel. exact Hsel.
  - intros p t Hp Hy Hbase Hin. rewrite Hperm. apply list_elem_of_In, filter_In.
    split; [apply list_elem_of_In; exact Hp|].
    apply (isMonthlyDB_selects_the_months_in_range prefix p _ _ t Hy Hbase). exact Hin.
Qed.

End MonthlyStores.

Lemma listMonthlyDBs_takes_the_months_in_range_in_order_witness :
  @listMonthlyDBs sampleRuntime "/db" "spooler_" sampleNow sampleNow (firstCycle []).1.2
  = Ok ["/db/spooler_202602.db"]
  /\ Sorted String.le ["/db/spooler_202602.db"].
Proof.
  assert (H : @listMonthlyDBs sampleRuntime "/db" "spooler_" sampleNow sampleNow
                (firstCycle []).1.2 = Ok ["/db/spooler_202602.db"])
    by (vm_compute; reflexivity).
  split; [exact H|].
  destruct (@listMonthlyDBs_takes_the_months_in_range_in_order sampleRuntime _ _ _ _ _ _ H)
    as (candidates & _ & Hsorted & _).
  exact Hsorted.
Defined.

Section MonthlyStoreOpened.

Context `{RT : Runtime}.

(** In monthly mode, the database that [ensureDBForNow] opens when none of
    the current month is open is the file <prefix><YYYYMM>.db of the folder,
    for the local month of the clock; it exists afterwards, and the
    selection of the replay takes it exactly for the ranges that contain
    that month. *)
Theorem ensureDBForNow_opens_the_store_of_the_month
    (r r1 : Runner) (w w1 : World) (fromKey toKey : Z) :
  let now := Add (clock w) (zoneOffset (clock w)) in
  let prefix := if blank (DBPrefix (cfg r)) then "alerts_" else DBPrefix (cfg r) in
  let dbPath := filepath_Join (DBFolder (cfg r)) (prefix +:+ monthName now +:+ ".db") in
  blank (DBFolder (cfg r)) = false ->
  (db r = None \/ dbKey r <> monthName now) ->
  (0 <= Year now <= 9999)%Z ->
  Filepath.Base dbPath = prefix +:+ monthName now +:+ ".db" ->
  ensureDBForNow r w = (r1, w1, None) ->
  db r1 = Some dbPath
  /\ dbKey r1 = monthName now
  /\ DBPrefix (cfg r1) = prefix
  /\ is_Some (stores w1 !! dbPath)
  /\ (isMonthlyDB (DBPrefix (cfg r1)) fromKey toKey dbPath = true
      <-> (fromKey <= monthKey now <= toKey)%Z).
Proof.
  intros now prefix dbPath Hmode Hnone Hyear Hbase.
  unfold ensureDBForNow. rewrite Hmode. cbv zeta. fold now. rewrite (monthName_eq now).
  assert (Hswitch : match db r with
                    | Some _ => String.eqb (dbKey r) (monthName now)
                    | None => false
                    end = false).
  { destruct Hnone as [-> | Hne]; [reflexivity|].
    destruct (db r); [|reflexivity]. now apply String.eqb_neq. }
  rewrite Hswitch.
  assert (Hcfg : cfg (Close r) = cfg r) by (unfold Close; destruct (db r); reflexivity).
  set (r' := if blank (DBPrefix (cfg (Close r)))
             then mkRunner (setDBPrefix "alerts_" (cfg (Close r))) (db (Close r)) (dbKey (Close r))
             else Close r).
  assert (Hprefix : DBPrefix (cfg r') = prefix).
  { subst r' prefix. rewrite Hcfg. destruct (blank (DBPrefix (cfg r))); [reflexivity|].
    now rewrite Hcfg. }
  assert (Hfolder : DBFolder (cfg r') = DBFolder (cfg r)).
  { subst r'. rewrite Hcfg. destruct (blank (DBPrefix (cfg r))); [reflexivity|].
    now rewrite Hcfg. }
  rewrite Hprefix, Hfolder. fold dbPath.
  destruct (os_MkdirAll (DBFolder (cfg r)) w) as [w2 [e|]]; [discriminate|].
  unfold OpenDB. destruct (decide (dbPath ∈ unopenable w2)); [discriminate|].
  assert (Hsel : isMonthlyDB prefix fromKey toKey dbPath = true
                 <-> (fromKey <= monthKey now <= toKey)%Z)
    by (apply isMonthlyDB_selects_the_months_in_range; assumption).
  destruct (stores w2 !! dbPath) as [d|] eqn:Hstore; intros [= <- <-]; cbn [db dbKey cfg];
    rewrite Hprefix; repeat split; try tauto.
  - rewrite Hstore. eauto.
  - cbn [stores withStores]. rewrite lookup_insert_eq. eauto.
Qed.

End MonthlyStoreOpened.

Lemma ensureDBForNow_opens_the_store_of_the_month_witness :
  let r := mkRunner sampleConfig None EmptyString in
  let w := sampleWorld [] in
  blank (DBFolder (cfg r)) = false
  /\ db (@ensureDBForNow sampleRuntime r w).1.1 = Some "/db/spooler_202602.db"
  /\ (isMonthlyDB "spooler_" 202601 202603 "/db/spooler_202602.db" = true
      <-> (202601 <= monthKey sampleNow <= 202603)%Z).
Proof.
  intros r w. split; [reflexivity|].
  assert (Hrun : @ensureDBForNow sampleRuntime r w
                 = ((@ensureDBForNow sampleRuntime r w).1.1,
                    (@ensureDBForNow sampleRuntime r w).1.2, None))
    by (vm_compute; reflexivity).
  destruct (@ensureDBForNow_opens_the_store_of_the_month sampleRuntime r _ w _ 202601 202603
              ltac:(reflexivity) ltac:(left; reflexivity)
              ltac:(vm_compute; split; discriminate) ltac:(vm_compute; reflexivity) Hrun)
    as (Hdb & _ & _ & _ & Hsel).
  split; [rewrite Hdb; vm_compute; reflexivity|exact Hsel].
Defined.

(** ** syslog.go: the tokens of the header *)

(** A host or application name, once sanitized, can stand as one token of
    the space-separated header: it is not empty and holds no space.  It has
    as many bytes as the trimmed name, or is "-" when that is empty. *)
Theorem sanitizeSyslogToken_is_one_token (s : string) :
  sanitizeSyslogToken s <> EmptyString
  /\ allBytes notSpace (sanitizeSyslogToken s) = true
  /\ (GoStr.TrimSpace s = EmptyString -> sanitizeSyslogToken s = "-")
  /\ (GoStr.TrimSpace s <> EmptyString ->
      String.length (sanitizeSyslogToken s) = String.length (GoStr.TrimSpace s)).
Proof.
  unfold sanitizeSyslogToken. cbv zeta.
  destruct (String.eqb_spec (GoStr.TrimSpace s) EmptyString) as [Hempty|Hne].
  - split; [discriminate|]. split; [reflexivity|]. split; [reflexivity|]. congruence.
  - rewrite ReplaceAll_one_byte. revert Hne. generalize (GoStr.TrimSpace s). intros t Hne.
    assert (Hall : forall u,
              allBytes notSpace
                (mapBytes (fun c => if Ascii.eqb " " c then "_" else String c EmptyString) u)
              = true
              /\ String.length
                   (mapBytes (fun c => if Ascii.eqb " " c then "_" else String c EmptyString) u)
                 = String.length u).
    { induction u as [|c u [IH1 IH2]]; [split; reflexivity|]. cbn [mapBytes].
      destruct (Ascii.eqb " " c) eqn:Hc.
      - rewrite append_cons, append_nil. cbn [allBytes String.length]. rewrite IH1, IH2.
        split; reflexivity.
      - rewrite append_cons, append_nil. cbn [allBytes String.length]. rewrite IH1, IH2.
        split; [|reflexivity]. unfold notSpace. rewrite Ascii.eqb_sym, Hc. reflexivity. }
    destruct (Hall t) as [H1 H2].
    split; [|split; [exact H1|split; [contradiction|intros _; exact H2]]].
    destruct t as [|c t]; [contradiction|]. cbn [mapBytes].
    destruct (Ascii.eqb " " c); rewrite append_cons; discriminate.
Qed.

(** ** normalize.go: the shape of a normalized text *)

Lemma spaceWidth_ascii (c : ascii) (s : string) :
  GoStr.spaceWidth (String c s) = 0 -> isAsciiSpace c = false.
Proof.
  unfold GoStr.spaceWidth, isAsciiSpace. cbv zeta.
  destruct (_ || _)%bool; [discriminate|reflexivity].
Qed.

Lemma allBytes_rev_go (p : ascii -> bool) (s acc : string) :
  allBytes p s = true -> allBytes p acc = true -> allBytes p (GoStr.rev_go acc s) = true.
Proof.
  revert acc. induction s as [|c s IH]; intros acc Hs Hacc; [exact Hacc|].
  cbn [allBytes] in Hs. apply andb_true_iff in Hs as [Hc Hs].
  cbn [GoStr.rev_go]. apply IH; [exact Hs|]. cbn [allBytes]. now rewrite Hc, Hacc.
Qed.

Lemma rev_go_not_empty (s acc : string) :
  acc <> EmptyString -> GoStr.rev_go acc s <> EmptyString.
Proof.
  revert acc. induction s as [|c s IH]; intros acc Hacc; [exact Hacc|].
  cbn [GoStr.rev_go]. apply IH. discriminate.
Qed.

Lemma rev_word (cur : string) :
  cur <> EmptyString -> allBytes (fun c => negb (isAsciiSpace c)) cur = true ->
  isWord (GoStr.rev cur).
Proof.
  intros Hne Hall. destruct cur as [|c cur]; [contradiction|].
  cbn [allBytes] in Hall. apply andb_true_iff in Hall as [Hc Hall].
  unfold GoStr.rev. cbn [GoStr.rev_go]. split.
  - apply rev_go_not_empty. discriminate.
  - apply allBytes_rev_go; [exact Hall|]. cbn [allBytes]. now rewrite Hc.
Qed.

Lemma fields_go_words (s : string) :
  forall (skip : nat) (cur : string),
    allBytes (fun c => negb (isAsciiSpace c)) cur = true ->
    Forall isWord (GoStr.fields_go skip cur s).
Proof.
  induction s as [|c s IH]; intros skip cur Hcur.
  - cbn [GoStr.fields_go]. destruct cur as [|c0 cur']; [constructor|].
    constructor; [|constructor]. apply rev_word; [discriminate|exact Hcur].
  - cbn [GoStr.fields_go]. cbv zeta.
    assert (Hflush : Forall isWord match cur with
                                   | EmptyString => []
                                   | String _ _ => [GoStr.rev cur]
                                   end).
    { destruct cur as [|c0 cur']; [constructor|].
      constructor; [|constructor]. apply rev_word; [discriminate|exact Hcur]. }
    destruct skip as [|n]; [|apply IH; reflexivity].
    destruct (GoStr.spaceWidth (String c s)) as [|n] eqn:Hw.
    + apply IH. cbn [allBytes]. rewrite (spaceWidth_ascii _ _ Hw), Hcur. reflexivity.
    + apply Forall_app. split; [exact Hflush|]. apply IH. reflexivity.
Qed.

(** A normalized text is a sequence of words with one space between them:
    each word is not empty and holds no ASCII white space, so the text has
    no white space at either end, no tab or line break, and no run of
    spaces. *)
Theorem NormalizeText_is_words_joined_by_single_spaces (input : string) :
  exists words, NormalizeText input = GoStr.Join words " " /\ Forall isWord words.
Proof.
  unfold NormalizeText. cbv zeta. eexists. split; [reflexivity|].
  apply fields_go_words. reflexivity.
Qed.
